(** * gowarcraft3: the BNCS client ([network/bnet])

    A shallow embedding of [network/bnet/bnet.go]: the chat filter, the
    channel-membership handler and the readers of its state, the
    handshake orchestrator ([Dial], [Logon], [CreateAccount],
    [ChangePassword]) over a scripted connection, and [NewClient]. *)

From Stdlib Require Import ZArith Lia List Bool.
From Stdlib.Strings Require Import Byte Ascii String.
From stdpp Require Import gmap strings list.

Open Scope Z_scope.

(** ** Go strings

    A Go [string] is a sequence of bytes, and so is a [string] here.  The
    functions that look at the bytes go through [list byte]. *)

Definition bytes (s : string) : list byte := list_byte_of_string s.
Definition of_bytes (l : list byte) : string := string_of_list_byte l.

Definition b2z (b : byte) : Z := Z.of_N (Byte.to_N b).

(** Go's conversion [byte(x)]: the low eight bits. *)
Definition z2b (z : Z) : byte :=
  match Byte.of_N (Z.to_N (z mod 256)) with
  | Some b => b
  | None => x00
  end.

(** [len(s)] *)
Definition len (s : string) : nat := String.length s.

(** [s[:n]] for [n <= len(s)] *)
Definition slice_to (n : nat) (s : string) : string := of_bytes (firstn n (bytes s)).

(** ** [unicode/utf8] of the Go standard library

    [strings.Map] and [range] over a string decode UTF-8 the way
    [utf8.DecodeRuneInString] does, and [strings.Builder.WriteRune] encodes
    the way [utf8.AppendRune] does.  Runes are [int32] values, kept in [Z]. *)

Module utf8.

Definition RuneError : Z := 0xFFFD.
Definition RuneSelf : Z := 0x80.
Definition MaxRune : Z := 0x10FFFF.

Definition surrogateMin : Z := 0xD800.
Definition surrogateMax : Z := 0xDFFF.

Definition t2 : Z := 0xC0.
Definition t3 : Z := 0xE0.
Definition t4 : Z := 0xF0.
Definition tx : Z := 0x80.

Definition maskx : Z := 0x3F.
Definition mask2 : Z := 0x1F.
Definition mask3 : Z := 0x0F.
Definition mask4 : Z := 0x07.

Definition rune1Max : Z := 0x7F.
Definition rune2Max : Z := 0x7FF.
Definition rune3Max : Z := 0xFFFF.

Definition locb : Z := 0x80.
Definition hicb : Z := 0xBF.

(** Entries of the [first] table: [xx] invalid, [as_] ASCII, the others
    carry the size in the low three bits and the index of the accept range
    in the high four. *)
Definition xx : Z := 0xF1.
Definition as_ : Z := 0xF0.
Definition s1 : Z := 0x02.
Definition s2 : Z := 0x13.
Definition s3 : Z := 0x03.
Definition s4 : Z := 0x23.
Definition s5 : Z := 0x34.
Definition s6 : Z := 0x04.
Definition s7 : Z := 0x44.

Definition first (b : Z) : Z :=
  if b <? 0x80 then as_
  else if b <? 0xC2 then xx
  else if b <? 0xE0 then s1
  else if b =? 0xE0 then s2
  else if b <? 0xED then s3
  else if b =? 0xED then s4
  else if b <? 0xF0 then s3
  else if b =? 0xF0 then s5
  else if b <? 0xF4 then s6
  else if b =? 0xF4 then s7
  else xx.

Definition acceptRanges (i : Z) : Z * Z :=
  if i =? 0 then (locb, hicb)
  else if i =? 1 then (0xA0, hicb)
  else if i =? 2 then (locb, 0x9F)
  else if i =? 3 then (0x90, hicb)
  else if i =? 4 then (locb, 0x8F)
  else (0, 0).

(** [utf8.DecodeRuneInString]: the first rune of [s] and its width in bytes. *)
Definition DecodeRune (s : list byte) : Z * nat :=
  match s with
  | [] => (RuneError, 0%nat)
  | c0 :: r0 =>
    let n := Z.of_nat (length s) in
    let b0 := b2z c0 in
    let x := first b0 in
    if as_ <=? x then ((if x =? xx then RuneError else b0), 1%nat)
    else
      let sz := Z.land x 7 in
      let accept := acceptRanges (Z.shiftr x 4) in
      if n <? sz then (RuneError, 1%nat)
      else
        match r0 with
        | [] => (RuneError, 1%nat)
        | c1 :: r1 =>
          let b1 := b2z c1 in
          if (b1 <? fst accept) || (snd accept <? b1) then (RuneError, 1%nat)
          else if sz <=? 2
          then (Z.lor (Z.shiftl (Z.land b0 mask2) 6) (Z.land b1 maskx), 2%nat)
          else
            match r1 with
            | [] => (RuneError, 1%nat)
            | c2 :: r2 =>
              let b2 := b2z c2 in
              if (b2 <? locb) || (hicb <? b2) then (RuneError, 1%nat)
              else if sz <=? 3
              then (Z.lor (Z.lor (Z.shiftl (Z.land b0 mask3) 12)
                                 (Z.shiftl (Z.land b1 maskx) 6))
                          (Z.land b2 maskx), 3%nat)
              else
                match r2 with
                | [] => (RuneError, 1%nat)
                | c3 :: _ =>
                  let b3 := b2z c3 in
                  if (b3 <? locb) || (hicb <? b3) then (RuneError, 1%nat)
                  else (Z.lor (Z.lor (Z.lor (Z.shiftl (Z.land b0 mask4) 18)
                                            (Z.shiftl (Z.land b1 maskx) 12))
                                     (Z.shiftl (Z.land b2 maskx) 6))
                              (Z.land b3 maskx), 4%nat)
                end
            end
        end
  end.

(** [for _, c := range s]: the runes of [s], one [RuneError] per byte that
    starts no valid encoding.  Every step consumes at least one byte, so
    [length s] steps are enough. *)
Fixpoint runes_fuel (fuel : nat) (s : list byte) : list Z :=
  match fuel with
  | O => []
  | S fuel' =>
    match s with
    | [] => []
    | _ :: _ =>
      let '(r, w) := DecodeRune s in
      r :: runes_fuel fuel' (skipn w s)
    end
  end.

Definition runes (s : list byte) : list Z := runes_fuel (length s) s.

(** [uint32(r)] of an [int32] rune. *)
Definition u32 (r : Z) : Z := r mod 2 ^ 32.

(** [utf8.AppendRune]: a rune that is negative, above [MaxRune] or a
    surrogate is written as [RuneError]. *)
Definition EncodeRune (r : Z) : list byte :=
  let i := u32 r in
  if i <=? rune1Max then [z2b r]
  else if i <=? rune2Max
  then [z2b (Z.lor t2 (Z.shiftr r 6)); z2b (Z.lor tx (Z.land r maskx))]
  else
    let bad := (MaxRune <? i) || ((surrogateMin <=? i) && (i <=? surrogateMax)) in
    let r := if bad then RuneError else r in
    if bad || (i <=? rune3Max)
    then [z2b (Z.lor t3 (Z.shiftr r 12));
          z2b (Z.lor tx (Z.land (Z.shiftr r 6) maskx));
          z2b (Z.lor tx (Z.land r maskx))]
    else [z2b (Z.lor t4 (Z.shiftr r 18));
          z2b (Z.lor tx (Z.land (Z.shiftr r 12) maskx));
          z2b (Z.lor tx (Z.land (Z.shiftr r 6) maskx));
          z2b (Z.lor tx (Z.land r maskx))].

End utf8.

(** [strings.Map(mapping, s)]: every rune [c] of [s] is replaced by
    [mapping c], and dropped when that is negative. *)
Definition strings_Map (mapping : Z -> Z) (s : string) : string :=
  of_bytes
    (concat (map (fun c => let r := mapping c in
                           if r <? 0 then [] else utf8.EncodeRune r)
                 (utf8.runes (bytes s)))).

(** ** The chat filter

    [emojiToText] is a [strings.Replacer] built from the code table of a
    third-party emoji package, and [unicode.IsPrint] consults the Unicode
    tables of the standard library; both are taken as given. *)

Section FilterChat.

Variable emojiToText_Replace : string -> string.
Variable IsPrint : Z -> bool.

Definition FilterChat (s : string) : string :=
  let s := emojiToText_Replace s in
  let s := strings_Map (fun r => if negb (IsPrint r) then -1 else r) s in
  if (254 <? len s)%nat then slice_to 254 s else s.

End FilterChat.

(** [strings.ContainsRune(s, ':')]: the colon is ASCII, so the search is a
    search for its byte. *)
Definition contains_colon (s : string) : bool :=
  existsb (fun c => b2z c =? 0x3A) (bytes s).

(** ** Go's [(T, error)] results *)

(** The error values the client can return: the two sentinels of package
    [bnet], the errors of a connection, and any other error value (of the
    resolver, the file system, the key decoder, or one made from a server
    result code), told apart by a number. *)
Inductive error : Type :=
| ErrInvalidServerSig
| ErrPasswordVerification
| io_EOF
| ErrTimeout
| Errno (code : Z).

Inductive result (A : Type) : Type :=
| Ok (a : A)
| Err (e : error).
Arguments Ok {A} a.
Arguments Err {A} e.

(** ** Packets of [protocol/bncs] that the client sends or looks at

    Each record carries the fields [bnet.go] reads or writes.  The numeric
    values of the result codes and of the chat event types are declared in
    [protocol/bncs]; the client only compares them with the named constants,
    so every other value is kept as a number under one last constructor. *)

Module bncs.

Inductive AuthResult := AuthSuccess | AuthResultCode (code : Z).
Inductive LogonResult := LogonSuccess | LogonResultCode (code : Z).
Inductive LogonProofResult :=
  LogonProofSuccess | LogonProofRequireEmail | LogonProofResultCode (code : Z).
Inductive AccountCreateResult :=
  AccountCreateSuccess | AccountCreateResultCode (code : Z).
Inductive JoinChannelFlag := ChannelJoinFirst | ChannelJoinFlag (code : Z).

Inductive ChatEventType :=
| ChatShowUser | ChatJoin | ChatLeave | ChatWhisper | ChatTalk | ChatBroadcast
| ChatChannelInfo | ChatUserFlagsUpdate | ChatWhisperSent | ChatChannelFull
| ChatChannelDoesNotExist | ChatChannelRestricted | ChatInfo | ChatError
| ChatEmote | ChatEventCode (code : Z).

Module GameVersion.
Record t := { Product : Z; Version : Z }.
End GameVersion.

Module AuthInfoReq.
Record t := {
  PlatformCode : string;
  GameVersion : GameVersion.t;
  LanguageCode : string;
  TimeZoneBias : Z;
  MpqLocaleID : Z;
  UserLanguageID : Z;
  CountryAbbreviation : string;
  Country : string }.
End AuthInfoReq.

Module AuthInfoResp.
Record t := {
  ServerToken : Z;
  MpqFileName : string;
  ValueString : string;
  ServerSignature : list byte }.
End AuthInfoResp.

Module CDKey.
Record t := {
  KeyLength : Z;
  KeyProductValue : Z;
  KeyPublicValue : Z;
  KeyHash : list byte }.
End CDKey.

Module AuthCheckReq.
Record t := {
  ClientToken : Z;
  ExeVersion : Z;
  ExeHash : Z;
  CDKeys : list CDKey.t;
  ExeInformation : string;
  KeyOwnerName : string }.
End AuthCheckReq.

Module AuthCheckResp.
Record t := { Result : AuthResult; AdditionalInformation : string }.
End AuthCheckResp.

Module AuthAccountLogonReq.
Record t := { ClientKey : list byte; Username : string }.
End AuthAccountLogonReq.

Module AuthAccountLogonResp.
Record t := { Result : LogonResult; Salt : list byte; ServerKey : list byte }.
End AuthAccountLogonResp.

Module AuthAccountLogonProofReq.
Record t := { ClientPasswordProof : list byte }.
End AuthAccountLogonProofReq.

Module AuthAccountLogonProofResp.
Record t := {
  Result : LogonProofResult;
  ServerPasswordProof : list byte;
  AdditionalInformation : string }.
End AuthAccountLogonProofResp.

Module AuthAccountCreateReq.
Record t := { Salt : list byte; Verifier : list byte; Username : string }.
End AuthAccountCreateReq.

Module AuthAccountCreateResp.
Record t := { Result : AccountCreateResult }.
End AuthAccountCreateResp.

Module AuthAccountChangePassProofReq.
Record t := {
  ClientPasswordProof : list byte;
  NewSalt : list byte;
  NewVerifier : list byte }.
End AuthAccountChangePassProofReq.

Module EnterChatResp.
Record t := { UniqueName : string; StatString : string; AccountName : string }.
End EnterChatResp.

Module ChatEvent.
Record t := {
  Type_ : ChatEventType;
  UserFlags : Z;
  ChannelFlags : Z;
  Ping : Z;
  Username : string;
  Text : string }.
End ChatEvent.

(** [bncs.Packet]: what a connection sends and receives.  A change-password
    request embeds a logon request, and the two change-password responses
    embed the logon responses. *)
Inductive Packet :=
| KeepAlive
| Ping (Payload : Z)
| EnterChatReq
| EnterChatResp (p : EnterChatResp.t)
| JoinChannel (Flag : JoinChannelFlag) (Channel : string)
| ChatCommand (Text : string)
| ChatEvent (p : ChatEvent.t)
| NetGamePort (Port : Z)
| AuthInfoReq (p : AuthInfoReq.t)
| AuthInfoResp (p : AuthInfoResp.t)
| AuthCheckReq (p : AuthCheckReq.t)
| AuthCheckResp (p : AuthCheckResp.t)
| AuthAccountCreateReq (p : AuthAccountCreateReq.t)
| AuthAccountCreateResp (p : AuthAccountCreateResp.t)
| AuthAccountLogonReq (p : AuthAccountLogonReq.t)
| AuthAccountLogonResp (p : AuthAccountLogonResp.t)
| AuthAccountLogonProofReq (p : AuthAccountLogonProofReq.t)
| AuthAccountLogonProofResp (p : AuthAccountLogonProofResp.t)
| AuthAccountChangePassReq (p : AuthAccountLogonReq.t)
| AuthAccountChangePassResp (p : AuthAccountLogonResp.t)
| AuthAccountChangePassProofReq (p : AuthAccountChangePassProofReq.t)
| AuthAccountChangePassProofResp (p : AuthAccountLogonProofResp.t)
| SetEmail (EmailAddress : string)
| UnknownPacket (ID : Z) (Blob : list byte).

End bncs.

(** [copy(dst[:], src)] into a zeroed array of [n] bytes. *)
Definition copy_array (n : nat) (src : list byte) : list byte :=
  firstn n src ++ repeat x00 (n - length src)%nat.

(** ** The client's data *)

Module Config.
Record t := {
  ServerAddr : string;
  KeepAliveInterval : Z;
  Platform : bncs.AuthInfoReq.t;
  BinPath : string;
  ExeInfo : string;
  ExeVersion : Z;
  ExeHash : Z;
  VerifySignature : bool;
  SHA1Auth : bool;
  Username : string;
  Password : string;
  CDKeyOwner : string;
  CDKeys : list string;
  GamePort : Z }.

Definition set_ServerAddr (a : string) (c : t) : t :=
  {| ServerAddr := a; KeepAliveInterval := KeepAliveInterval c;
     Platform := Platform c; BinPath := BinPath c; ExeInfo := ExeInfo c;
     ExeVersion := ExeVersion c; ExeHash := ExeHash c;
     VerifySignature := VerifySignature c; SHA1Auth := SHA1Auth c;
     Username := Username c; Password := Password c;
     CDKeyOwner := CDKeyOwner c; CDKeys := CDKeys c; GamePort := GamePort c |}.

Definition set_Password (p : string) (c : t) : t :=
  {| ServerAddr := ServerAddr c; KeepAliveInterval := KeepAliveInterval c;
     Platform := Platform c; BinPath := BinPath c; ExeInfo := ExeInfo c;
     ExeVersion := ExeVersion c; ExeHash := ExeHash c;
     VerifySignature := VerifySignature c; SHA1Auth := SHA1Auth c;
     Username := Username c; Password := p;
     CDKeyOwner := CDKeyOwner c; CDKeys := CDKeys c; GamePort := GamePort c |}.
End Config.

(** A [time.Time], as a number. *)
Definition Time := Z.

Module User.
Record t := {
  Name : string;
  StatString : string;
  Flags : Z;
  Ping : Z;
  Joined : Time;
  LastSeen : Time }.

Definition set_Flags (f : Z) (u : t) : t :=
  {| Name := Name u; StatString := StatString u; Flags := f; Ping := Ping u;
     Joined := Joined u; LastSeen := LastSeen u |}.

Definition set_Joined (j : Time) (u : t) : t :=
  {| Name := Name u; StatString := StatString u; Flags := Flags u;
     Ping := Ping u; Joined := j; LastSeen := LastSeen u |}.

Definition set_LastSeen (l : Time) (u : t) : t :=
  {| Name := Name u; StatString := StatString u; Flags := Flags u;
     Ping := Ping u; Joined := Joined u; LastSeen := l |}.
End User.

(** What [Fire] is called with: a received packet, or one of the client's
    own notifications. *)
Inductive Event :=
| Received (pkt : bncs.Packet)
| Channel (Name : string) (Flags : Z)
| UserJoined (User : User.t) (AlreadyInChannel : bool)
| UserUpdate (User : User.t)
| UserLeft (User : User.t)
| Chat (User : User.t) (Content : string) (Type_ : bncs.ChatEventType)
| Whisper (Username Content : string) (Flags Ping : Z)
| JoinError (Channel : string) (Error : bncs.ChatEventType)
| SystemMessage (Content : string) (Type_ : bncs.ChatEventType)
| AsyncError (Src : string) (Err_ : error).

(** ** Sockets

    A socket is scripted: [inbox] holds what the reads will return, in
    order, and [outcomes] what the sends will return ([None] for success; a
    send beyond the script succeeds).  When the inbox is exhausted the peer
    has closed and a read returns [io.EOF].  [log] records every operation
    on the socket. *)

Inductive Timeout := NoTimeout | Duration (seconds : Z).

Inductive IO :=
| Write_Greeting
| Send_ (pkt : bncs.Packet)
| NextPacket_ (timeout : Timeout)
| Close_.

Module Socket.
Record t := {
  RemoteIP : list byte;
  inbox : list (result bncs.Packet);
  outcomes : list (option error);
  log : list IO;
  closed : bool }.

Definition logged (a : IO) (s : t) : t :=
  {| RemoteIP := RemoteIP s; inbox := inbox s; outcomes := outcomes s;
     log := log s ++ [a]; closed := closed s |}.

Definition set_inbox (i : list (result bncs.Packet)) (s : t) : t :=
  {| RemoteIP := RemoteIP s; inbox := i; outcomes := outcomes s;
     log := log s; closed := closed s |}.

Definition set_outcomes (o : list (option error)) (s : t) : t :=
  {| RemoteIP := RemoteIP s; inbox := inbox s; outcomes := o;
     log := log s; closed := closed s |}.

Definition set_closed (s : t) : t :=
  {| RemoteIP := RemoteIP s; inbox := inbox s; outcomes := outcomes s;
     log := log s; closed := true |}.

(** A send takes the next scripted outcome. *)
Definition send (pkt : bncs.Packet) (s : t) : result unit * t :=
  let s := logged (Send_ pkt) s in
  match outcomes s with
  | [] => (Ok tt, s)
  | None :: rest => (Ok tt, set_outcomes rest s)
  | Some e :: rest => (Err e, set_outcomes rest s)
  end.

(** A read takes the next entry of the inbox. *)
Definition next (timeout : Timeout) (s : t) : result bncs.Packet * t :=
  let s := logged (NextPacket_ timeout) s in
  match inbox s with
  | [] => (Err io_EOF, s)
  | r :: rest => (r, set_inbox rest s)
  end.

Definition close (s : t) : t := set_closed (logged Close_ s).
End Socket.

(** A [*network.BNCSConn] is a handle into the store of sockets. *)
Abbreviation Conn := nat.

(** The [Client]: the events fired on its [EventEmitter] so far, the socket
    of its embedded [BNCSConn] (none before the first [Logon]), the chat
    state behind [chatmut], and the embedded [Config].  A nil [users] map
    reads as the empty map, and the handler allocates it before its only
    write, so nil and empty are one value here. *)
Module Client.
Record t := {
  fired : list Event;
  conn : option Conn;
  channel : string;
  users : gmap string User.t;
  UniqueName : string;
  config : Config.t }.

Definition emit (e : Event) (b : t) : t :=
  {| fired := fired b ++ [e]; conn := conn b; channel := channel b;
     users := users b; UniqueName := UniqueName b; config := config b |}.

Definition set_conn (c : option Conn) (b : t) : t :=
  {| fired := fired b; conn := c; channel := channel b;
     users := users b; UniqueName := UniqueName b; config := config b |}.

Definition set_chat (ch : string) (us : gmap string User.t) (b : t) : t :=
  {| fired := fired b; conn := conn b; channel := ch;
     users := us; UniqueName := UniqueName b; config := config b |}.

Definition set_UniqueName (n : string) (b : t) : t :=
  {| fired := fired b; conn := conn b; channel := channel b;
     users := users b; UniqueName := n; config := config b |}.

Definition set_config (c : Config.t) (b : t) : t :=
  {| fired := fired b; conn := conn b; channel := channel b;
     users := users b; UniqueName := UniqueName b; config := c |}.
End Client.

(** The world a call runs in: the client, the sockets, and the clock
    ([wall i] is what the [i]-th call of [time.Now] reads). *)
Module World.
Record t := {
  client : Client.t;
  sockets : list Socket.t;
  wall : nat -> Time;
  ticks : nat }.

Definition set_client (b : Client.t) (w : t) : t :=
  {| client := b; sockets := sockets w; wall := wall w; ticks := ticks w |}.

Definition set_sockets (s : list Socket.t) (w : t) : t :=
  {| client := client w; sockets := s; wall := wall w; ticks := ticks w |}.

Definition tick (w : t) : t :=
  {| client := client w; sockets := sockets w; wall := wall w;
     ticks := S (ticks w) |}.
End World.

(** ** Calls: state passing with Go's error returns *)

Definition M (A : Type) : Type := World.t -> result A * World.t.

Definition ret {A} (a : A) : M A := fun w => (Ok a, w).
Definition fail {A} (e : error) : M A := fun w => (Err e, w).

Definition bind {A B} (m : M A) (k : A -> M B) : M B :=
  fun w =>
    match m w with
    | (Ok a, w') => k a w'
    | (Err e, w') => (Err e, w')
    end.

Notation "'let*' x ':=' m 'in' k" := (bind m (fun x => k))
  (at level 10, x pattern, m at level 100, k at level 200).

(** Lift a pure [(T, error)] result. *)
Definition lift {A} (r : result A) : M A := fun w => (r, w).

Definition get_config : M Config.t :=
  fun w => (Ok (Client.config (World.client w)), w).

Definition modify_client (f : Client.t -> Client.t) : M unit :=
  fun w => (Ok tt, World.set_client (f (World.client w)) w).

(** [time.Now()] *)
Definition time_Now : M Time :=
  fun w => (Ok (World.wall w (World.ticks w)), World.tick w).

(** *** Operations of a connection ([network.BNCSConn]) *)

Definition update_socket (c : Conn) (f : Socket.t -> Socket.t) (w : World.t) : World.t :=
  match World.sockets w !! c with
  | Some s => World.set_sockets (<[c := f s]> (World.sockets w)) w
  | None => w
  end.

(** An operation on the socket behind a connection; it fails when the
    socket is closed. *)
Definition on_socket {A} (c : Conn) (f : Socket.t -> result A * Socket.t) : M A :=
  fun w =>
    match World.sockets w !! c with
    | None => (Err io_EOF, w)
    | Some s =>
      if Socket.closed s then (Err io_EOF, w)
      else
        let '(r, s') := f s in
        (r, World.set_sockets (<[c := s']> (World.sockets w)) w)
    end.

(** [conn.Send(pkt)] *)
Definition Send (c : Conn) (pkt : bncs.Packet) : M unit :=
  on_socket c (Socket.send pkt).

(** [conn.NextPacket(timeout)] *)
Definition NextPacket (c : Conn) (timeout : Timeout) : M bncs.Packet :=
  on_socket c (Socket.next timeout).

(** [conn.Close()] *)
Definition Close (c : Conn) (w : World.t) : World.t :=
  update_socket c Socket.close w.

(** [if err != nil { bncsconn.Close(); return err }] around a step. *)
Definition or_close {A} (c : Conn) (m : M A) : M A :=
  fun w =>
    match m w with
    | (Ok a, w') => (Ok a, w')
    | (Err e, w') => (Err e, Close c w')
    end.

(** [bncsconn.Close(); return err] *)
Definition close_fail {A} (c : Conn) (e : error) : M A :=
  fun w => (Err e, Close c w).

(** [defer bncsconn.Close()] over the rest of a function. *)
Definition defer_close {A} (c : Conn) (m : M A) : M A :=
  fun w => let '(r, w') := m w in (r, Close c w').

(** [b.Send(pkt)] and [b.SendRL(pkt)] on the client's embedded connection;
    rate limiting only delays the send. *)
Definition b_Send (pkt : bncs.Packet) : M unit :=
  fun w =>
    match Client.conn (World.client w) with
    | None => (Err io_EOF, w)
    | Some c => Send c pkt w
    end.

Definition b_SendRL (pkt : bncs.Packet) : M unit := b_Send pkt.

(** [b.Fire(e)] for a notification that has no default handler. *)
Definition emit (e : Event) : M unit := modify_client (Client.emit e).

Definition get_client : M Client.t := fun w => (Ok (World.client w), w).

(** ** What the client calls outside this file

    The password-proof schemes ([NewSHA1], [NewNLS], behind the [SRP]
    interface), the inspection of the game executable, the CD-key
    decoder, the check of the server signature, the resolver and the
    dialer, the maps from result codes to errors, and the functions of
    the standard library that consult Unicode tables. *)

(** The [SRP] interface.  [PasswordProof] derives the session secret that
    [VerifyPassword] later checks against, so it returns the updated
    context. *)
Class SRP (S : Type) := {
  ClientKey : S -> list byte;
  PasswordProof : S -> list byte -> list byte -> list byte * S;
  VerifyPassword : S -> list byte -> bool;
  AccountCreate : S -> result (list byte * list byte) }.

(** A resolved address: IP and port. *)
Definition TCPAddr : Type := list byte * Z.

Class Externals (S : Type) := {
  NewSHA1 : string -> S;
  NewNLS : string -> string -> result S;
  strings_ToLower : string -> string;
  emojiToText_Replace : string -> string;
  unicode_IsPrint : Z -> bool;
  filepath_Join : string -> string -> string;
  os_Stat : string -> option error;
  GetExeInfo : string -> result (Z * string);
  CheckRevision : string -> list string -> Z -> result Z;
  ExtractMPQNumber : string -> Z;
  CreateBNCSKeyInfo : string -> Z -> Z -> result bncs.CDKey.t;
  VerifyServerSignature : list byte -> list byte -> bool;
  net_ResolveTCPAddr : string -> result TCPAddr;
  (** the peer that answers at an address: what it will send, and how the
      client's sends to it will end *)
  net_DialTCP : TCPAddr -> result (list (result bncs.Packet) * list (option error));
  AuthResultToError : bncs.AuthResult -> error;
  LogonResultToError : bncs.LogonResult -> error;
  LogonProofResultToError : bncs.LogonProofResult -> error;
  AccountCreateResultToError : bncs.AccountCreateResult -> error }.

(** [t.Unix()] of a time kept in nanoseconds. *)
Definition Unix (t : Time) : Z := t / 1000000000.

(** What the [switch] of a handshake step does with a packet: return it,
    echo it, or fire it (the [default] arm). *)
Inductive Verdict (A : Type) : Type :=
| Return (a : A)
| Echo
| Default.
Arguments Return {A} a.
Arguments Echo {A}.
Arguments Default {A}.

Section Client.

Context {S : Type} {srp_ops : SRP S} {ext : Externals S}.

(** *** Default handlers ([InitDefaultHandlers]) *)

Definition onPing (pkt : bncs.Packet) : M unit :=
  fun w =>
    match b_Send pkt w with
    | (Ok _, w') => (Ok tt, w')
    | (Err e, w') => emit (AsyncError "onPing[Send]"%string e) w'
    end.

Definition is_ShowUser (t : bncs.ChatEventType) : bool :=
  match t with bncs.ChatShowUser => true | _ => false end.

Definition onChatEvent (pkt : bncs.ChatEvent.t) : M unit :=
  let key := strings_ToLower (bncs.ChatEvent.Username pkt) in
  match bncs.ChatEvent.Type_ pkt with
  | bncs.ChatChannelInfo =>
    let* _ := modify_client (Client.set_chat (bncs.ChatEvent.Text pkt) ∅) in
    emit (Channel (bncs.ChatEvent.Text pkt) (bncs.ChatEvent.ChannelFlags pkt))
  | bncs.ChatShowUser | bncs.ChatJoin =>
    let* t := time_Now in
    let u := {| User.Name := bncs.ChatEvent.Username pkt;
                User.StatString := bncs.ChatEvent.Text pkt;
                User.Flags := bncs.ChatEvent.UserFlags pkt;
                User.Ping := bncs.ChatEvent.Ping pkt;
                User.Joined := t;
                User.LastSeen := t |} in
    let* b := get_client in
    let p := Client.users b !! key in
    let u := match p with
             | Some p => User.set_LastSeen (User.LastSeen p)
                           (User.set_Joined (User.Joined p) u)
             | None => u
             end in
    let* _ := modify_client
                (fun b => Client.set_chat (Client.channel b)
                            (<[key := u]> (Client.users b)) b) in
    match p with
    | None => emit (UserJoined u (is_ShowUser (bncs.ChatEvent.Type_ pkt)))
    | Some _ => emit (UserUpdate u)
    end
  | bncs.ChatUserFlagsUpdate =>
    let* b := get_client in
    match Client.users b !! key with
    | Some u =>
      let u := User.set_Flags (bncs.ChatEvent.UserFlags pkt) u in
      let* _ := modify_client
                  (fun b => Client.set_chat (Client.channel b)
                              (<[key := u]> (Client.users b)) b) in
      emit (UserUpdate u)
    | None => ret tt
    end
  | bncs.ChatLeave =>
    let* b := get_client in
    let u := Client.users b !! key in
    let* _ := modify_client
                (fun b => Client.set_chat (Client.channel b)
                            (delete key (Client.users b)) b) in
    match u with
    | Some u => emit (UserLeft u)
    | None => ret tt
    end
  | bncs.ChatTalk | bncs.ChatEmote =>
    let* b := get_client in
    match Client.users b !! key with
    | Some u =>
      let* t := time_Now in
      let u := User.set_LastSeen t u in
      let* _ := modify_client
                  (fun b => Client.set_chat (Client.channel b)
                              (<[key := u]> (Client.users b)) b) in
      emit (Chat u (bncs.ChatEvent.Text pkt) (bncs.ChatEvent.Type_ pkt))
    | None => ret tt
    end
  | bncs.ChatWhisper =>
    emit (Whisper (bncs.ChatEvent.Username pkt) (bncs.ChatEvent.Text pkt)
                  (bncs.ChatEvent.UserFlags pkt) (bncs.ChatEvent.Ping pkt))
  | bncs.ChatChannelFull | bncs.ChatChannelDoesNotExist
  | bncs.ChatChannelRestricted =>
    emit (JoinError (bncs.ChatEvent.Text pkt) (bncs.ChatEvent.Type_ pkt))
  | bncs.ChatBroadcast | bncs.ChatInfo | bncs.ChatError =>
    emit (SystemMessage (bncs.ChatEvent.Text pkt) (bncs.ChatEvent.Type_ pkt))
  | _ => ret tt
  end.

(** [b.Fire(pkt)] for a received packet: the event is recorded and the
    default handler registered for its type, if any, runs.  Handlers that
    a user of the package registers are outside this file. *)
Definition Fire (pkt : bncs.Packet) : M unit :=
  let* _ := emit (Received pkt) in
  match pkt with
  | bncs.Ping _ => onPing pkt
  | bncs.ChatEvent p => onChatEvent p
  | _ => ret tt
  end.

(** *** [Say] *)

Definition Say (s : string) : M unit :=
  let s := FilterChat emojiToText_Replace unicode_IsPrint s in
  if (len s =? 0)%nat then ret tt
  else
    let* _ := b_SendRL (bncs.ChatCommand s) in
    ret tt.

(** *** The wait of every handshake step

    [pkt, err := conn.NextPacket(timeout); for { ...; pkt, err =
    conn.NextPacket(network.NoTimeout) }].  The [switch] on the packet's
    type is the step's own and decides between returning the packet,
    echoing it, and firing it.  Every turn of the loop takes one entry of
    the inbox, so the length of the inbox bounds the turns; the loop never
    reaches the end of that fuel (see [wait_loop_fuel]). *)

Fixpoint wait_loop {A} (fuel : nat) (conn : Conn)
    (switch : bncs.Packet -> Verdict A) (pkt : result bncs.Packet) : M A :=
  match pkt with
  | Err e => fail e
  | Ok pkt =>
    let next : M A :=
      match fuel with
      | O => fail io_EOF
      | Datatypes.S fuel' =>
        fun w =>
          let '(r, w') := NextPacket conn NoTimeout w in
          wait_loop fuel' conn switch r w'
      end in
    match switch pkt with
    | Return p => ret p
    | Echo => let* _ := Send conn pkt in next
    | Default => let* _ := Fire pkt in next
    end
  end.

Definition inbox_length (conn : Conn) (w : World.t) : nat :=
  match World.sockets w !! conn with
  | Some s => length (Socket.inbox s)
  | None => O
  end.

Definition wait {A} (conn : Conn) (timeout : Timeout)
    (switch : bncs.Packet -> Verdict A) : M A :=
  fun w =>
    let '(r, w') := NextPacket conn timeout w in
    wait_loop (inbox_length conn w) conn switch r w'.

(** *** The steps *)

Definition newSRP (password : string) : M S :=
  let* b := get_config in
  if Config.SHA1Auth b then ret (NewSHA1 password)
  else lift (NewNLS (Config.Username b) password).

Definition sendAuthInfo (conn : Conn) : M bncs.AuthInfoResp.t :=
  let* b := get_config in
  let* _ := Send conn (bncs.AuthInfoReq (Config.Platform b)) in
  wait conn (Duration 10)
    (fun pkt => match pkt with
                | bncs.Ping _ => Echo
                | bncs.AuthInfoResp p => Return p
                | _ => Default
                end).

(** [if _, err := os.Stat(path); err != nil { return nil, err }] *)
Definition stat (path : string) : M unit :=
  match os_Stat path with
  | Some e => fail e
  | None => ret tt
  end.

Fixpoint key_infos (keys : list string) (clientToken serverToken : Z)
    : M (list bncs.CDKey.t) :=
  match keys with
  | [] => ret []
  | k :: keys =>
    let* info := lift (CreateBNCSKeyInfo k clientToken serverToken) in
    let* infos := key_infos keys clientToken serverToken in
    ret (info :: infos)
  end.

Definition sendAuthCheck (conn : Conn) (clientToken : Z)
    (authinfo : bncs.AuthInfoResp.t) : M bncs.AuthCheckResp.t :=
  let* b := get_config in
  let exeInfo := Config.ExeInfo b in
  let exeVers := Config.ExeVersion b in
  let exeHash := Config.ExeHash b in
  let version := bncs.GameVersion.Version (bncs.AuthInfoReq.GameVersion (Config.Platform b)) in
  let* (exeInfo, exeVers, exeHash) :=
    if (exeVers =? 0) || (exeHash =? 0) then
      let exePath :=
        if version <? 28 then filepath_Join (Config.BinPath b) "war3.exe"%string
        else filepath_Join (Config.BinPath b) "Warcraft III.exe"%string in
      let* _ := stat exePath in
      let* (exeInfo, exeVers) :=
        if exeVers =? 0 then
          let* (v, i) := lift (GetExeInfo exePath) in
          ret (if String.eqb exeInfo EmptyString then i else exeInfo,
               if exeVers =? 0 then v else exeVers)
        else ret (exeInfo, exeVers) in
      let* exeHash :=
        if exeHash =? 0 then
          let* files :=
            if version <? 29 then
              let stormPath := filepath_Join (Config.BinPath b) "Storm.dll"%string in
              let* _ := stat stormPath in
              let gamePath := filepath_Join (Config.BinPath b) "game.dll"%string in
              let* _ := stat gamePath in
              ret [exePath; stormPath; gamePath]
            else ret [exePath] in
          lift (CheckRevision (bncs.AuthInfoResp.ValueString authinfo) files
                  (ExtractMPQNumber (bncs.AuthInfoResp.MpqFileName authinfo)))
        else ret exeHash in
      ret (exeInfo, exeVers, exeHash)
    else ret (exeInfo, exeVers, exeHash) in
  let* cdkeys := key_infos (Config.CDKeys b) clientToken
                   (bncs.AuthInfoResp.ServerToken authinfo) in
  let req := {| bncs.AuthCheckReq.ClientToken := clientToken;
                bncs.AuthCheckReq.ExeInformation := exeInfo;
                bncs.AuthCheckReq.ExeVersion := exeVers;
                bncs.AuthCheckReq.ExeHash := exeHash;
                bncs.AuthCheckReq.CDKeys := cdkeys;
                bncs.AuthCheckReq.KeyOwnerName := Config.CDKeyOwner b |} in
  let* _ := Send conn (bncs.AuthCheckReq req) in
  wait conn (Duration 10)
    (fun pkt => match pkt with
                | bncs.AuthCheckResp p => Return p
                | _ => Default
                end).

Definition sendLogon (conn : Conn) (srp : S) : M bncs.AuthAccountLogonResp.t :=
  let* b := get_config in
  let req := {| bncs.AuthAccountLogonReq.ClientKey := ClientKey srp;
                bncs.AuthAccountLogonReq.Username := Config.Username b |} in
  let* _ := Send conn (bncs.AuthAccountLogonReq req) in
  wait conn (Duration 15)
    (fun pkt => match pkt with
                | bncs.AuthAccountLogonResp p => Return p
                | _ => Default
                end).

Definition sendLogonProof (conn : Conn) (srp : S)
    (logon : bncs.AuthAccountLogonResp.t)
    : M (bncs.AuthAccountLogonProofResp.t * S) :=
  let '(proof, srp) :=
    PasswordProof srp (bncs.AuthAccountLogonResp.ServerKey logon)
                      (bncs.AuthAccountLogonResp.Salt logon) in
  let req := {| bncs.AuthAccountLogonProofReq.ClientPasswordProof := proof |} in
  let* _ := Send conn (bncs.AuthAccountLogonProofReq req) in
  let* p := wait conn (Duration 10)
              (fun pkt => match pkt with
                          | bncs.AuthAccountLogonProofResp p => Return p
                          | _ => Default
                          end) in
  ret (p, srp).

Definition sendCreateAccount (conn : Conn) (srp : S) : M bncs.AuthAccountCreateResp.t :=
  let* (salt, verifier) := lift (AccountCreate srp) in
  let* b := get_config in
  let req := {| bncs.AuthAccountCreateReq.Username := Config.Username b;
                bncs.AuthAccountCreateReq.Salt := copy_array 32 salt;
                bncs.AuthAccountCreateReq.Verifier := copy_array 32 verifier |} in
  let* _ := Send conn (bncs.AuthAccountCreateReq req) in
  wait conn (Duration 10)
    (fun pkt => match pkt with
                | bncs.AuthAccountCreateResp p => Return p
                | _ => Default
                end).

Definition sendChangePass (conn : Conn) (srp : S) : M bncs.AuthAccountLogonResp.t :=
  let* b := get_config in
  let req := {| bncs.AuthAccountLogonReq.ClientKey := ClientKey srp;
                bncs.AuthAccountLogonReq.Username := Config.Username b |} in
  let* _ := Send conn (bncs.AuthAccountChangePassReq req) in
  wait conn (Duration 15)
    (fun pkt => match pkt with
                | bncs.AuthAccountChangePassResp p => Return p
                | _ => Default
                end).

Definition sendChangePassProof (conn : Conn) (oldSRP newSRP_ : S)
    (resp : bncs.AuthAccountLogonResp.t)
    : M (bncs.AuthAccountLogonProofResp.t * S) :=
  let* (salt, verifier) := lift (AccountCreate newSRP_) in
  let '(proof, oldSRP) :=
    PasswordProof oldSRP (bncs.AuthAccountLogonResp.ServerKey resp)
                         (bncs.AuthAccountLogonResp.Salt resp) in
  let req := {| bncs.AuthAccountChangePassProofReq.ClientPasswordProof := proof;
                bncs.AuthAccountChangePassProofReq.NewSalt := copy_array 32 salt;
                bncs.AuthAccountChangePassProofReq.NewVerifier := copy_array 32 verifier |} in
  let* _ := Send conn (bncs.AuthAccountChangePassProofReq req) in
  let* p := wait conn (Duration 10)
              (fun pkt => match pkt with
                          | bncs.AuthAccountChangePassProofResp p => Return p
                          | _ => Default
                          end) in
  ret (p, oldSRP).

Definition sendEnterChat (conn : Conn) : M bncs.EnterChatResp.t :=
  let* b := get_config in
  let* _ := Send conn (bncs.NetGamePort (Config.GamePort b)) in
  let* _ := Send conn bncs.EnterChatReq in
  wait conn (Duration 10)
    (fun pkt => match pkt with
                | bncs.EnterChatResp p => Return p
                | _ => Default
                end).

(** *** [DialWithConn], [Dial] *)

(** [conn.Write([]byte{bncs.ProtocolGreeting})]; what the write returns is
    dropped. *)
Definition write_greeting (conn : Conn) : M unit :=
  fun w => (Ok tt, update_socket conn (Socket.logged Write_Greeting) w).

(** The IP of [conn.RemoteAddr()] *)
Definition RemoteAddr_IP (conn : Conn) (w : World.t) : list byte :=
  match World.sockets w !! conn with
  | Some s => Socket.RemoteIP s
  | None => []
  end.

Definition remote_ip (conn : Conn) : M (list byte) :=
  fun w => (Ok (RemoteAddr_IP conn w), w).

Definition DialWithConn (conn : Conn) : M Conn :=
  let* _ := write_greeting conn in
  let bncsconn := conn in
  let* authInfo := or_close bncsconn (sendAuthInfo bncsconn) in
  let* b := get_config in
  let* ip := remote_ip conn in
  if Config.VerifySignature b
     && negb (VerifyServerSignature ip (bncs.AuthInfoResp.ServerSignature authInfo))
  then close_fail bncsconn ErrInvalidServerSig
  else
    let* now := time_Now in
    let clientToken := Unix now mod 2 ^ 32 in
    let* authCheck := or_close bncsconn (sendAuthCheck bncsconn clientToken authInfo) in
    match bncs.AuthCheckResp.Result authCheck with
    | bncs.AuthSuccess => ret bncsconn
    | r => close_fail bncsconn (AuthResultToError r)
    end.

(** [net.DialTCP]: a new socket enters the store; its handle is returned. *)
Definition open_socket (addr : TCPAddr) : M Conn :=
  let* script := lift (net_DialTCP addr) in
  fun w =>
    let s := {| Socket.RemoteIP := fst addr;
                Socket.inbox := fst script;
                Socket.outcomes := snd script;
                Socket.log := [];
                Socket.closed := false |} in
    (Ok (length (World.sockets w)),
     World.set_sockets (World.sockets w ++ [s]) w).

(** [Dial] down to [return b.DialWithConn(conn)]: the default port, the
    resolver, the dialer.  The socket options set on the way
    ([SetKeepAlive], [SetNoDelay], [SetLinger]) change nothing here. *)
Definition connect : M Conn :=
  let* b := get_config in
  let* _ :=
    if negb (contains_colon (Config.ServerAddr b))
    then modify_client
           (Client.set_config
              (Config.set_ServerAddr
                 (String.append (Config.ServerAddr b) ":6112"%string) b))
    else ret tt in
  let* b := get_config in
  let* addr := lift (net_ResolveTCPAddr (Config.ServerAddr b)) in
  open_socket addr.

Definition Dial : M Conn :=
  let* conn := connect in
  DialWithConn conn.

(** *** [Logon], [CreateAccount], [ChangePassword]

    [defer srp.Free()] scrubs a context that no one holds after the call
    returns; it leaves no trace in the world. *)

Definition Logon : M unit :=
  let* b := get_config in
  let* srp := newSRP (Config.Password b) in
  let* bncsconn := Dial in
  let* logon := or_close bncsconn (sendLogon bncsconn srp) in
  match bncs.AuthAccountLogonResp.Result logon with
  | bncs.LogonSuccess =>
    let* (proof, srp) := or_close bncsconn (sendLogonProof bncsconn srp logon) in
    let* _ :=
      match bncs.AuthAccountLogonProofResp.Result proof with
      | bncs.LogonProofSuccess => ret tt
      | bncs.LogonProofRequireEmail =>
        or_close bncsconn (Send bncsconn (bncs.SetEmail EmptyString))
      | r => close_fail bncsconn (LogonProofResultToError r)
      end in
    if negb (VerifyPassword srp (bncs.AuthAccountLogonProofResp.ServerPasswordProof proof))
    then close_fail bncsconn ErrPasswordVerification
    else
      let* chat := or_close bncsconn (sendEnterChat bncsconn) in
      let* _ := or_close bncsconn
                  (Send bncsconn (bncs.JoinChannel bncs.ChannelJoinFirst "W3"%string)) in
      modify_client
        (fun b => Client.set_conn (Some bncsconn)
                    (Client.set_UniqueName (bncs.EnterChatResp.UniqueName chat) b))
  | r => close_fail bncsconn (LogonResultToError r)
  end.

Definition CreateAccount : M unit :=
  let* b := get_config in
  let* srp := newSRP (Config.Password b) in
  let* bncsconn := Dial in
  defer_close bncsconn
    (let* create := sendCreateAccount bncsconn srp in
     match bncs.AuthAccountCreateResp.Result create with
     | bncs.AccountCreateSuccess => ret tt
     | r => fail (AccountCreateResultToError r)
     end).

Definition ChangePassword (newPassword : string) : M unit :=
  let* b := get_config in
  let* oldSRP := newSRP (Config.Password b) in
  let* newSRP_ := newSRP newPassword in
  let* bncsconn := Dial in
  defer_close bncsconn
    (let* resp := sendChangePass bncsconn oldSRP in
     match bncs.AuthAccountLogonResp.Result resp with
     | bncs.LogonSuccess =>
       let* (proof, oldSRP) := sendChangePassProof bncsconn oldSRP newSRP_ resp in
       match bncs.AuthAccountLogonProofResp.Result proof with
       | bncs.LogonProofSuccess =>
         if negb (VerifyPassword oldSRP
                    (bncs.AuthAccountLogonProofResp.ServerPasswordProof proof))
         then fail ErrPasswordVerification
         else modify_client
                (fun b => Client.set_config
                            (Config.set_Password newPassword (Client.config b)) b)
       | r => fail (LogonProofResultToError r)
       end
     | r => fail (LogonResultToError r)
     end).

End Client.

(** ** Notions the properties are stated with *)

Definition cfg (w : World.t) : Config.t := Client.config (World.client w).
Definition users_of (w : World.t) : gmap string User.t := Client.users (World.client w).
Definition channel_of (w : World.t) : string := Client.channel (World.client w).
Definition fired_of (w : World.t) : list Event := Client.fired (World.client w).

(** Every rune that [range] finds in [s] is printable. *)
Definition printable (IsPrint : Z -> bool) (s : string) : Prop :=
  Forall (fun r => IsPrint r = true) (utf8.runes (bytes s)).

(** The entry the handler builds from a "user shown" or "user joined"
    event read at time [t]. *)
Definition user_of_event (pkt : bncs.ChatEvent.t) (t : Time) : User.t :=
  {| User.Name := bncs.ChatEvent.Username pkt;
     User.StatString := bncs.ChatEvent.Text pkt;
     User.Flags := bncs.ChatEvent.UserFlags pkt;
     User.Ping := bncs.ChatEvent.Ping pkt;
     User.Joined := t;
     User.LastSeen := t |}.

Definition shows_user (pkt : bncs.ChatEvent.t) : Prop :=
  bncs.ChatEvent.Type_ pkt = bncs.ChatShowUser
  \/ bncs.ChatEvent.Type_ pkt = bncs.ChatJoin.

(** The entry that an update would store if only [Joined] were kept from
    the entry before. *)
Definition update_keeping_Joined_only (pkt : bncs.ChatEvent.t) (t : Time)
    (old : User.t) : User.t :=
  User.set_Joined (User.Joined old) (user_of_event pkt t).

(** What [Dial] can have done to a configuration: nothing, or the default
    port appended to an address that had no colon. *)
Definition dialed (c c' : Config.t) : Prop :=
  c' = c
  \/ (contains_colon (Config.ServerAddr c) = false
      /\ c' = Config.set_ServerAddr
                (String.append (Config.ServerAddr c) ":6112"%string) c).

(** The socket behind [conn] exists and is closed. *)
Definition is_closed (conn : Conn) (w : World.t) : Prop :=
  exists s, World.sockets w !! conn = Some s /\ Socket.closed s = true.

Definition not_logon (p : bncs.Packet) : Prop :=
  match p with
  | bncs.AuthAccountLogonReq _ => False
  | _ => True
  end.

Definition any_packet (_ : bncs.Packet) : Prop := True.

(** Every packet sent satisfies [Q]. *)
Definition sent_ok (Q : bncs.Packet -> Prop) (a : IO) : Prop :=
  match a with
  | Send_ p => Q p
  | _ => True
  end.

(** No logon request has been sent on [conn]. *)
Definition no_logon_sent (conn : Conn) (w : World.t) : Prop :=
  forall s, World.sockets w !! conn = Some s ->
  Forall (sent_ok not_logon) (Socket.log s).

(** An invariant of the world with three parts: the configuration is [c0],
    the store holds [n] sockets, and every packet sent on [conn] so far
    satisfies [Q]. *)
Definition inv (c0 : Config.t) (n : nat) (conn : Conn) (Q : bncs.Packet -> Prop)
    (w : World.t) : Prop :=
  Client.config (World.client w) = c0
  /\ length (World.sockets w) = n
  /\ forall s, World.sockets w !! conn = Some s -> Forall (sent_ok Q) (Socket.log s).

Definition keeps (c0 : Config.t) (n : nat) (conn : Conn) (Q : bncs.Packet -> Prop)
    {A} (m : M A) : Prop :=
  forall w, inv c0 n conn Q w -> inv c0 n conn Q (snd (m w)).

(** *** The auth-info step, in the words of its description

    What the step returns, what it leaves of the socket, and the packets
    it hands to the event bus, in order.  Every wait is logged with its
    timeout; then the packet decides: the expected response is returned, a
    ping is echoed (and the error of a failed echo returned), anything
    else goes to the bus and the wait goes on without a timeout; a read
    error is returned. *)
Fixpoint AuthInfo_exchange (inbox : list (result bncs.Packet)) (timeout : Timeout)
    (s : Socket.t) : result bncs.AuthInfoResp.t * Socket.t * list bncs.Packet :=
  let s := Socket.logged (NextPacket_ timeout) s in
  match inbox with
  | [] => (Err io_EOF, s, [])
  | Err e :: rest => (Err e, Socket.set_inbox rest s, [])
  | Ok pkt :: rest =>
    let s := Socket.set_inbox rest s in
    match pkt with
    | bncs.AuthInfoResp p => (Ok p, s, [])
    | bncs.Ping _ =>
      match Socket.send pkt s with
      | (Err e, s) => (Err e, s, [])
      | (Ok _, s) => AuthInfo_exchange rest NoTimeout s
      end
    | _ =>
      let '(r, s', ds) := AuthInfo_exchange rest NoTimeout s in
      (r, s', pkt :: ds)
    end
  end.

(** The same step when only reads can fail: the first [AuthInfoResp]
    received, or the first read error. *)
Fixpoint first_AuthInfoResp_or_read_error (inbox : list (result bncs.Packet))
    : result bncs.AuthInfoResp.t :=
  match inbox with
  | [] => Err io_EOF
  | Err e :: _ => Err e
  | Ok (bncs.AuthInfoResp p) :: _ => Ok p
  | Ok _ :: rest => first_AuthInfoResp_or_read_error rest
  end.

(** The [switch] of [sendAuthInfo]. *)
Definition AuthInfo_switch (pkt : bncs.Packet) : Verdict bncs.AuthInfoResp.t :=
  match pkt with
  | bncs.Ping _ => Echo
  | bncs.AuthInfoResp p => Return p
  | _ => Default
  end.

Section Fires.

Context {S : Type} {srp_ops : SRP S} {ext : Externals S}.

(** The packets fired one after the other. *)
Definition fires (ds : list bncs.Packet) (w : World.t) : World.t :=
  fold_left (fun w pkt => snd (Fire pkt w)) ds w.

End Fires.

(** ** What the UTF-8 codec is checked against *)

Module utf8_check.
Import utf8.

(** What a rune is written as: itself, or [RuneError] when it is no
    Unicode scalar value. *)
Definition norm (r : Z) : Z :=
  if (MaxRune <? r) || ((surrogateMin <=? r) && (r <=? surrogateMax))
  then RuneError else r.

(** The bytes hold all of the encoding that their first byte announces. *)
Definition complete (l : list byte) : bool :=
  match l with
  | [] => false
  | c :: _ => let x := first (b2z c) in
              (as_ <=? x) || (Z.land x 7 <=? Z.of_nat (length l))
  end.

(** The encoding of [r] is complete, decodes to [norm r] whatever follows
    it, and every proper prefix of it decodes to one [RuneError] per
    byte. *)
Definition encoded (r : Z) : Prop :=
  complete (EncodeRune r) = true
  /\ (forall rest, DecodeRune (EncodeRune r ++ rest)
                   = (norm r, length (EncodeRune r)))
  /\ (forall k, (k < length (EncodeRune r))%nat ->
                runes (firstn k (EncodeRune r)) = repeat RuneError k).

Definition in21 (z : Z) : bool := (0 <=? z) && (z <? 2 ^ 21).

Definition field_ok (c : byte) : bool :=
  in21 (b2z c)
  && in21 (Z.land (b2z c) maskx)
  && in21 (Z.shiftl (Z.land (b2z c) maskx) 6)
  && in21 (Z.shiftl (Z.land (b2z c) maskx) 12)
  && in21 (Z.shiftl (Z.land (b2z c) mask2) 6)
  && in21 (Z.shiftl (Z.land (b2z c) mask3) 12)
  && in21 (Z.shiftl (Z.land (b2z c) mask4) 18).

End utf8_check.

(** ** Scripted peers and stand-ins for the outside, for running the model

    A toy proof scheme (the server must answer with the salt followed by
    the client's key), a file system where every file exists, a resolver
    that knows one address, and ASCII-only versions of the Unicode
    functions. *)

Module Mock.

Record srp := { secret : list byte; session : list byte }.

Definition bytes_eqb (a b : list byte) : bool := String.eqb (of_bytes a) (of_bytes b).

#[global] Instance srp_ops : SRP srp := {|
  ClientKey s := secret s;
  PasswordProof s serverKey salt :=
    (serverKey ++ secret s, {| secret := secret s; session := salt ++ secret s |});
  VerifyPassword s proof := bytes_eqb proof (session s);
  AccountCreate s := Ok ([x01; x02], secret s) |}.

Definition lower (c : byte) : byte :=
  if (0x41 <=? b2z c) && (b2z c <=? 0x5A) then z2b (b2z c + 0x20) else c.

Definition IsPrint (r : Z) : bool := (0x20 <=? r) && negb ((0x7F <=? r) && (r <? 0xA0)).

Definition externals (peer : list (result bncs.Packet) * list (option error))
    : Externals srp := {|
  NewSHA1 password := {| secret := bytes password; session := [] |};
  NewNLS username password :=
    Ok {| secret := bytes username ++ bytes password; session := [] |};
  strings_ToLower s := of_bytes (map lower (bytes s));
  emojiToText_Replace s := s;
  unicode_IsPrint := IsPrint;
  filepath_Join dir file := String.append dir (String "/"%char file);
  os_Stat _ := None;
  GetExeInfo _ := Ok (0x011a0001, "war3.exe 01/01/16 00:00:00 471040"%string);
  CheckRevision _ _ _ := Ok 0x1234;
  ExtractMPQNumber _ := 1;
  CreateBNCSKeyInfo key clientToken serverToken :=
    Ok {| bncs.CDKey.KeyLength := Z.of_nat (len key);
          bncs.CDKey.KeyProductValue := 14;
          bncs.CDKey.KeyPublicValue := clientToken;
          bncs.CDKey.KeyHash := [] |};
  VerifyServerSignature _ _ := true;
  net_ResolveTCPAddr addr :=
    if String.eqb addr "bnet.example:6112"%string
    then Ok ([x0a; x00; x00; x01], 6112) else Err (Errno 1);
  net_DialTCP _ := Ok peer;
  AuthResultToError r :=
    match r with bncs.AuthSuccess => Errno 100 | bncs.AuthResultCode c => Errno (100 + c) end;
  LogonResultToError r :=
    match r with bncs.LogonSuccess => Errno 200 | bncs.LogonResultCode c => Errno (200 + c) end;
  LogonProofResultToError r :=
    match r with
    | bncs.LogonProofSuccess => Errno 300
    | bncs.LogonProofRequireEmail => Errno 314
    | bncs.LogonProofResultCode c => Errno (300 + c)
    end;
  AccountCreateResultToError r :=
    match r with
    | bncs.AccountCreateSuccess => Errno 400
    | bncs.AccountCreateResultCode c => Errno (400 + c)
    end |}.

Definition platform : bncs.AuthInfoReq.t := {|
  bncs.AuthInfoReq.PlatformCode := "IX86";
  bncs.AuthInfoReq.GameVersion :=
    {| bncs.GameVersion.Product := 0x57335850; bncs.GameVersion.Version := 26 |};
  bncs.AuthInfoReq.LanguageCode := "enUS";
  bncs.AuthInfoReq.TimeZoneBias := 4294967176;
  bncs.AuthInfoReq.MpqLocaleID := 1033;
  bncs.AuthInfoReq.UserLanguageID := 1033;
  bncs.AuthInfoReq.CountryAbbreviation := "USA";
  bncs.AuthInfoReq.Country := "United States" |}.

Definition config (addr : string) : Config.t := {|
  Config.ServerAddr := addr;
  Config.KeepAliveInterval := 30000000000;
  Config.Platform := platform;
  Config.BinPath := "/opt/war3";
  Config.ExeInfo := EmptyString;
  Config.ExeVersion := 0;
  Config.ExeHash := 0;
  Config.VerifySignature := false;
  Config.SHA1Auth := true;
  Config.Username := "alice";
  Config.Password := "hunter2";
  Config.CDKeyOwner := "gowarcraft3";
  Config.CDKeys := ["ROCKEY"%string; "TFTKEY"%string];
  Config.GamePort := 6112 |}.

Definition client (addr : string) (us : gmap string User.t) : Client.t := {|
  Client.fired := [];
  Client.conn := None;
  Client.channel := EmptyString;
  Client.users := us;
  Client.UniqueName := EmptyString;
  Client.config := config addr |}.

Definition world (addr : string) (us : gmap string User.t) : World.t := {|
  World.client := client addr us;
  World.sockets := [];
  World.wall i := nth i [1700000000000000000; 1700000000250000000] 1700000001000000000;
  World.ticks := 0 |}.

Definition bob : User.t := {|
  User.Name := "Bob"; User.StatString := "PX3W"; User.Flags := 0;
  User.Ping := 40; User.Joined := 1; User.LastSeen := 5 |}.

Definition event (t : bncs.ChatEventType) (name text : string) : bncs.ChatEvent.t := {|
  bncs.ChatEvent.Type_ := t;
  bncs.ChatEvent.UserFlags := 2;
  bncs.ChatEvent.ChannelFlags := 1;
  bncs.ChatEvent.Ping := 55;
  bncs.ChatEvent.Username := name;
  bncs.ChatEvent.Text := text |}.

(** Scripted peers. *)
Module Peer.

Definition authInfo : bncs.AuthInfoResp.t := {|
  bncs.AuthInfoResp.ServerToken := 0xC0FFEE;
  bncs.AuthInfoResp.MpqFileName := "ver-IX86-1.mpq";
  bncs.AuthInfoResp.ValueString := "A=1 B=2 C=3 4 A=A^S";
  bncs.AuthInfoResp.ServerSignature := [] |}.

Definition authCheck (r : bncs.AuthResult) : bncs.AuthCheckResp.t :=
  {| bncs.AuthCheckResp.Result := r; bncs.AuthCheckResp.AdditionalInformation := EmptyString |}.

Definition logon : bncs.AuthAccountLogonResp.t := {|
  bncs.AuthAccountLogonResp.Result := bncs.LogonSuccess;
  bncs.AuthAccountLogonResp.Salt := [x01];
  bncs.AuthAccountLogonResp.ServerKey := [x02] |}.

Definition logonProof (proof : list byte) : bncs.AuthAccountLogonProofResp.t := {|
  bncs.AuthAccountLogonProofResp.Result := bncs.LogonProofSuccess;
  bncs.AuthAccountLogonProofResp.ServerPasswordProof := proof;
  bncs.AuthAccountLogonProofResp.AdditionalInformation := EmptyString |}.

(** The proof the toy scheme expects for the password ["hunter2"]. *)
Definition good_proof : list byte := x01 :: bytes "hunter2".

(** Refuses the version. *)
Definition bad_version : list (result bncs.Packet) * list (option error) :=
  ([Ok (bncs.Ping 7);
    Ok (bncs.AuthInfoResp authInfo);
    Ok (bncs.AuthCheckResp (authCheck (bncs.AuthResultCode 0x101)))], []).

(** Accepts the logon but answers with a proof that does not verify. *)
Definition liar : list (result bncs.Packet) * list (option error) :=
  ([Ok (bncs.AuthInfoResp authInfo);
    Ok (bncs.AuthCheckResp (authCheck bncs.AuthSuccess));
    Ok (bncs.AuthAccountLogonResp logon);
    Ok (bncs.AuthAccountLogonProofResp (logonProof [x00]))], []).

(** Accepts a change of password. *)
Definition change_ok : list (result bncs.Packet) * list (option error) :=
  ([Ok (bncs.AuthInfoResp authInfo);
    Ok (bncs.AuthCheckResp (authCheck bncs.AuthSuccess));
    Ok (bncs.AuthAccountChangePassResp logon);
    Ok (bncs.AuthAccountChangePassProofResp (logonProof good_proof))], []).

(** Pings, and then the echo of the ping cannot be written. *)
Definition broken_pipe : list (result bncs.Packet) * list (option error) :=
  ([Ok (bncs.Ping 7); Ok (bncs.AuthInfoResp authInfo)], [None; Some ErrTimeout]).

End Peer.

End Mock.

(** Worlds to run the model in. *)
Definition ext0 : Externals Mock.srp := Mock.externals ([], []).
Definition w_bob : World.t := Mock.world "bnet.example" {["bob"%string := Mock.bob]}.
Definition w_start : World.t := Mock.world "bnet.example:6112" ∅.
Definition w_no_port : World.t := Mock.world "bnet.example" ∅.
Definition w_broken_pipe : World.t :=
  snd (connect (ext := Mock.externals Mock.Peer.broken_pipe) w_start).

(** ** Reading the chat state

    [Channel], [User] and [Users] read the chat state under [chatmut] and
    hand out copies. *)

Section Chat_state.

Context {S : Type} {ext : Externals S}.

(** [b.Channel()] *)
Definition b_Channel (b : Client.t) : string := Client.channel b.

(** [b.User(name)]: the entry and [ok]. *)
Definition b_User (name : string) (b : Client.t) : option User.t :=
  Client.users b !! strings_ToLower name.

(** [b.Users()] *)
Definition b_Users (b : Client.t) : gmap string User.t := Client.users b.

(** Every entry of the membership sits under the lower-cased name it
    carries. *)
Definition users_keyed (w : World.t) : Prop :=
  forall k u, users_of w !! k = Some u -> strings_ToLower (User.Name u) = k.

(** The chat events that tell of a user who is already there. *)
Definition about_member (t : bncs.ChatEventType) : Prop :=
  t = bncs.ChatUserFlagsUpdate \/ t = bncs.ChatLeave
  \/ t = bncs.ChatTalk \/ t = bncs.ChatEmote.

(** A "user left" event for the name of [pkt]. *)
Definition leave_of (pkt : bncs.ChatEvent.t) : bncs.ChatEvent.t :=
  {| bncs.ChatEvent.Type_ := bncs.ChatLeave;
     bncs.ChatEvent.UserFlags := bncs.ChatEvent.UserFlags pkt;
     bncs.ChatEvent.ChannelFlags := bncs.ChatEvent.ChannelFlags pkt;
     bncs.ChatEvent.Ping := bncs.ChatEvent.Ping pkt;
     bncs.ChatEvent.Username := bncs.ChatEvent.Username pkt;
     bncs.ChatEvent.Text := EmptyString |}.

End Chat_state.

(** ** Texts the chat filter is given *)

(** A Unicode scalar value: a code point that is no surrogate. *)
Definition scalar (r : Z) : Prop :=
  0 <= r <= utf8.MaxRune /\ ~ utf8.surrogateMin <= r <= utf8.surrogateMax.

(** The UTF-8 text of the runes [rs]. *)
Definition utf8_text (rs : list Z) : string :=
  of_bytes (concat (map utf8.EncodeRune rs)).

(** [if len(s) > 254 { s = s[:254] }] *)
Definition cut254 (s : string) : string :=
  if (254 <? len s)%nat then slice_to 254 s else s.

(** The socket behind [conn] exists and is open. *)
Definition is_open (conn : Conn) (w : World.t) : Prop :=
  exists s, World.sockets w !! conn = Some s /\ Socket.closed s = false.

(** ** What a call does to the connections *)

(** Which sockets of the store are closed. *)
Definition flags (w : World.t) : list bool := map Socket.closed (World.sockets w).

(** The connection attached to the client. *)
Definition attached (w : World.t) : option Conn := Client.conn (World.client w).

(** A call that opens no socket, closes none, and leaves the client's
    connection as it is. *)
Definition quiet {A} (m : M A) : Prop :=
  forall w, flags (snd (m w)) = flags w /\ attached (snd (m w)) = attached w.

(** What a call that dials at most once leaves of the store: the store as
    it was, or one more socket, closed. *)
Definition nothing_left_open (w w' : World.t) : Prop :=
  World.sockets w' = World.sockets w
  \/ (length (World.sockets w') = Datatypes.S (length (World.sockets w))
      /\ is_closed (length (World.sockets w)) w').

(** A call that, on a socket [c] of the store, either succeeds and closes
    nothing, or fails and leaves [c] closed.  A [final] call attaches [c]
    to the client when it succeeds; any other leaves the client's
    connection as it is. *)
Definition closing (c : Conn) (final : bool) {A} (m : M A) : Prop :=
  forall w r w', (c < length (World.sockets w))%nat -> m w = (r, w') ->
    length (World.sockets w') = length (World.sockets w)
    /\ match r with
       | Ok _ => flags w' = flags w
                 /\ attached w' = (if final then Some c else attached w)
       | Err _ => is_closed c w' /\ attached w' = attached w
       end.

(** No version and key check has been sent on [conn]. *)
Definition not_auth_check (p : bncs.Packet) : Prop :=
  match p with
  | bncs.AuthCheckReq _ => False
  | _ => True
  end.

Definition no_auth_check_sent (conn : Conn) (w : World.t) : Prop :=
  forall s, World.sockets w !! conn = Some s ->
  Forall (sent_ok not_auth_check) (Socket.log s).

(** The address [Dial] resolves: the configured one, with the default
    port when it names none. *)
Definition with_port (addr : string) : string :=
  if contains_colon addr then addr else String.append addr ":6112"%string.

(** The configuration with the default port in its address: every field
    as it is but [ServerAddr], which is [with_port] of what it was. *)
Definition ported (c : Config.t) : Config.t :=
  Config.set_ServerAddr (with_port (Config.ServerAddr c)) c.

(** What is waiting to be read on [conn]. *)
Definition inbox_of (conn : Conn) (w : World.t) : list (result bncs.Packet) :=
  match World.sockets w !! conn with
  | Some s => Socket.inbox s
  | None => []
  end.

Section Contexts.

Context {S : Type} {srp_ops : SRP S} {ext : Externals S}.

(** [newSRP] makes a context for [password]; if it does not, [Logon],
    [CreateAccount] and [ChangePassword] return before they dial. *)
Definition context_made (password : string) (w : World.t) : bool :=
  match fst (newSRP password w) with
  | Ok _ => true
  | Err _ => false
  end.

End Contexts.

(** ** The wait of a step, in terms of the inbox

    A step that echoes nothing takes the first packet it is waiting for,
    or the first read error, and hands every packet before that to the
    event bus.  [first_response] gives the result, the packets fired, in
    order, and the number of reads made. *)
Fixpoint first_response {A} (pick : bncs.Packet -> option A)
    (inbox : list (result bncs.Packet)) : result A * list bncs.Packet * nat :=
  match inbox with
  | [] => (Err io_EOF, [], 1%nat)
  | Err e :: _ => (Err e, [], 1%nat)
  | Ok pkt :: rest =>
    match pick pkt with
    | Some a => (Ok a, [], 1%nat)
    | None =>
      let '(r, ds, n) := first_response pick rest in
      (r, pkt :: ds, Datatypes.S n)
    end
  end.

(** The socket after [n] reads, the first with [timeout] and the others
    with none. *)
Fixpoint reads (timeout : Timeout) (n : nat) (s : Socket.t) : Socket.t :=
  match n with
  | O => s
  | Datatypes.S n' => reads NoTimeout n' (snd (Socket.next timeout s))
  end.

(** What the steps wait for. *)
Definition logon_response (pkt : bncs.Packet) : option bncs.AuthAccountLogonResp.t :=
  match pkt with
  | bncs.AuthAccountLogonResp p => Some p
  | _ => None
  end.

Definition enter_chat_response (pkt : bncs.Packet) : option bncs.EnterChatResp.t :=
  match pkt with
  | bncs.EnterChatResp p => Some p
  | _ => None
  end.

(** The [switch] of [sendAuthCheck] and of [sendCreateAccount]. *)
Definition AuthCheck_switch (pkt : bncs.Packet) : Verdict bncs.AuthCheckResp.t :=
  match pkt with
  | bncs.AuthCheckResp p => Return p
  | _ => Default
  end.

Definition AccountCreate_switch (pkt : bncs.Packet)
    : Verdict bncs.AuthAccountCreateResp.t :=
  match pkt with
  | bncs.AuthAccountCreateResp p => Return p
  | _ => Default
  end.

Section Executable.

Context {S : Type} {ext : Externals S}.

(** The executable [sendAuthCheck] inspects: [war3.exe] below version 28,
    [Warcraft III.exe] from there on. *)
Definition exe_path (b : Config.t) : string :=
  if bncs.GameVersion.Version (bncs.AuthInfoReq.GameVersion (Config.Platform b)) <? 28
  then filepath_Join (Config.BinPath b) "war3.exe"%string
  else filepath_Join (Config.BinPath b) "Warcraft III.exe"%string.

End Executable.

(** ** [NewClient]

    What [NewClient] calls outside this file: the merge of the defaults
    into the given configuration ([mergo.Merge]), the reading of a file,
    [strings.TrimSpace], the installation directory, and the constants
    of [protocol/w3gs]. *)

Class Installation := {
  mergo_Merge : Config.t -> Config.t -> result Config.t;
  ioutil_ReadFile : string -> result string;
  strings_TrimSpace : string -> string;
  dir_InstallDir : string;
  w3gs_ProductROC : Z;
  w3gs_ProductTFT : Z;
  w3gs_CurrentGameVersion : Z }.

(** [c.Platform.GameVersion.Version = v] and [.Product = p] *)
Definition with_GameVersion (g : bncs.GameVersion.t) (c : Config.t) : Config.t :=
  {| Config.ServerAddr := Config.ServerAddr c;
     Config.KeepAliveInterval := Config.KeepAliveInterval c;
     Config.Platform :=
       {| bncs.AuthInfoReq.PlatformCode := bncs.AuthInfoReq.PlatformCode (Config.Platform c);
          bncs.AuthInfoReq.GameVersion := g;
          bncs.AuthInfoReq.LanguageCode := bncs.AuthInfoReq.LanguageCode (Config.Platform c);
          bncs.AuthInfoReq.TimeZoneBias := bncs.AuthInfoReq.TimeZoneBias (Config.Platform c);
          bncs.AuthInfoReq.MpqLocaleID := bncs.AuthInfoReq.MpqLocaleID (Config.Platform c);
          bncs.AuthInfoReq.UserLanguageID :=
            bncs.AuthInfoReq.UserLanguageID (Config.Platform c);
          bncs.AuthInfoReq.CountryAbbreviation :=
            bncs.AuthInfoReq.CountryAbbreviation (Config.Platform c);
          bncs.AuthInfoReq.Country := bncs.AuthInfoReq.Country (Config.Platform c) |};
     Config.BinPath := Config.BinPath c; Config.ExeInfo := Config.ExeInfo c;
     Config.ExeVersion := Config.ExeVersion c; Config.ExeHash := Config.ExeHash c;
     Config.VerifySignature := Config.VerifySignature c;
     Config.SHA1Auth := Config.SHA1Auth c;
     Config.Username := Config.Username c; Config.Password := Config.Password c;
     Config.CDKeyOwner := Config.CDKeyOwner c; Config.CDKeys := Config.CDKeys c;
     Config.GamePort := Config.GamePort c |}.

Definition game_version (c : Config.t) : bncs.GameVersion.t :=
  bncs.AuthInfoReq.GameVersion (Config.Platform c).

Definition with_Version (v : Z) (c : Config.t) : Config.t :=
  with_GameVersion
    {| bncs.GameVersion.Product := bncs.GameVersion.Product (game_version c);
       bncs.GameVersion.Version := v |} c.

Definition with_Product (p : Z) (c : Config.t) : Config.t :=
  with_GameVersion
    {| bncs.GameVersion.Product := p;
       bncs.GameVersion.Version := bncs.GameVersion.Version (game_version c) |} c.

Definition with_Username (u : string) (c : Config.t) : Config.t :=
  {| Config.ServerAddr := Config.ServerAddr c;
     Config.KeepAliveInterval := Config.KeepAliveInterval c;
     Config.Platform := Config.Platform c;
     Config.BinPath := Config.BinPath c; Config.ExeInfo := Config.ExeInfo c;
     Config.ExeVersion := Config.ExeVersion c; Config.ExeHash := Config.ExeHash c;
     Config.VerifySignature := Config.VerifySignature c;
     Config.SHA1Auth := Config.SHA1Auth c;
     Config.Username := u; Config.Password := Config.Password c;
     Config.CDKeyOwner := Config.CDKeyOwner c; Config.CDKeys := Config.CDKeys c;
     Config.GamePort := Config.GamePort c |}.

Definition with_CDKeys (k : list string) (c : Config.t) : Config.t :=
  {| Config.ServerAddr := Config.ServerAddr c;
     Config.KeepAliveInterval := Config.KeepAliveInterval c;
     Config.Platform := Config.Platform c;
     Config.BinPath := Config.BinPath c; Config.ExeInfo := Config.ExeInfo c;
     Config.ExeVersion := Config.ExeVersion c; Config.ExeHash := Config.ExeHash c;
     Config.VerifySignature := Config.VerifySignature c;
     Config.SHA1Auth := Config.SHA1Auth c;
     Config.Username := Config.Username c; Config.Password := Config.Password c;
     Config.CDKeyOwner := Config.CDKeyOwner c; Config.CDKeys := k;
     Config.GamePort := Config.GamePort c |}.

(** The fields [NewClient] derives nothing for. *)
Definition given_fields (c : Config.t) :=
  (Config.ServerAddr c, Config.KeepAliveInterval c, Config.BinPath c,
   Config.ExeInfo c, Config.ExeVersion c, Config.ExeHash c,
   Config.VerifySignature c, Config.SHA1Auth c, Config.Password c,
   Config.CDKeyOwner c, Config.GamePort c).

(** What a derivation leaves alone: the given fields always, and each of
    the four derived ones under its condition. *)
Record frame (c c' : Config.t) (version username cdkeys product : Prop) : Prop := {
  frame_given : given_fields c' = given_fields c;
  frame_Version :
    version -> bncs.GameVersion.Version (game_version c')
               = bncs.GameVersion.Version (game_version c);
  frame_Username : username -> Config.Username c' = Config.Username c;
  frame_CDKeys : cdkeys -> Config.CDKeys c' = Config.CDKeys c;
  frame_Product :
    product -> bncs.GameVersion.Product (game_version c')
               = bncs.GameVersion.Product (game_version c) }.

Section NewClient.

Context {S : Type} {ext : Externals S} {inst : Installation}.

Definition DefaultConfig : Config.t := {|
  Config.ServerAddr := EmptyString;
  Config.KeepAliveInterval := 30 * 1000000000;
  Config.Platform :=
    {| bncs.AuthInfoReq.PlatformCode := "IX86";
       bncs.AuthInfoReq.GameVersion :=
         {| bncs.GameVersion.Product := w3gs_ProductROC;
            bncs.GameVersion.Version := w3gs_CurrentGameVersion |};
       bncs.AuthInfoReq.LanguageCode := "enUS";
       bncs.AuthInfoReq.TimeZoneBias := 4294967176;
       bncs.AuthInfoReq.MpqLocaleID := 1033;
       bncs.AuthInfoReq.UserLanguageID := 1033;
       bncs.AuthInfoReq.CountryAbbreviation := "USA";
       bncs.AuthInfoReq.Country := "United States" |};
  Config.BinPath := dir_InstallDir;
  Config.ExeInfo := EmptyString;
  Config.ExeVersion := 0;
  Config.ExeHash := 0;
  Config.VerifySignature := false;
  Config.SHA1Auth := false;
  Config.Username := EmptyString;
  Config.Password := EmptyString;
  Config.CDKeyOwner := "gowarcraft3";
  Config.CDKeys := [];
  Config.GamePort := 6112 |}.

(** [(v >> 16) & 0xFF] *)
Definition version_byte (v : Z) : Z := Z.land (Z.shiftr v 16) 0xFF.

(** [strings.TrimSpace(string(f))] of the file [name] under [BinPath], or
    the empty string when the file cannot be read. *)
Definition key_file (c : Config.t) (name : string) : string :=
  match ioutil_ReadFile (filepath_Join (Config.BinPath c) name) with
  | Ok f => strings_TrimSpace f
  | Err _ => EmptyString
  end.

(** The four derivations of [NewClient], in its order.  Each looks at the
    configuration as given ([conf]) to decide, and at the merged one
    ([c]) to derive. *)

(** [if conf.Platform.GameVersion.Version == 0 { ... }] *)
Definition derive_version (conf c : Config.t) : Config.t :=
  if bncs.GameVersion.Version (game_version conf) =? 0 then
    if negb (Config.ExeVersion c =? 0)
    then with_Version (version_byte (Config.ExeVersion c)) c
    else
      match GetExeInfo (filepath_Join (Config.BinPath c) "war3.exe"%string) with
      | Ok (exeVersion, _) => with_Version (version_byte exeVersion) c
      | Err _ =>
        match GetExeInfo
                (filepath_Join (Config.BinPath c) "Warcraft III.exe"%string) with
        | Ok (exeVersion, _) => with_Version (version_byte exeVersion) c
        | Err _ => c
        end
      end
  else c.

(** [if conf.Username == "" { ... }] *)
Definition read_username (conf c : Config.t) : Config.t :=
  if String.eqb (Config.Username conf) EmptyString then
    match ioutil_ReadFile (filepath_Join (Config.BinPath c) "user.w3k"%string) with
    | Ok f => with_Username (strings_TrimSpace f) c
    | Err _ => c
    end
  else c.

(** [if len(conf.CDKeys) == 0 { ... }] *)
Definition read_cdkeys (conf c : Config.t) : Config.t :=
  if (length (Config.CDKeys conf) =? 0)%nat then
    let rock := key_file c "roc.w3k" in
    let tftk := key_file c "tft.w3k" in
    if negb (String.eqb rock EmptyString) then
      if negb (String.eqb tftk EmptyString)
      then with_CDKeys [rock; tftk] c
      else with_CDKeys [rock] c
    else c
  else c.

(** [if conf.Platform.GameVersion.Product == 0 { switch len(c.CDKeys) ... }] *)
Definition derive_product (conf c : Config.t) : Config.t :=
  if bncs.GameVersion.Product (game_version conf) =? 0 then
    match length (Config.CDKeys c) with
    | 1%nat => with_Product w3gs_ProductROC c
    | 2%nat => with_Product w3gs_ProductTFT c
    | _ => c
    end
  else c.

(** The default handlers and the write timeout that [NewClient] sets live
    in the embedded emitter and connection; the client it returns has no
    connection and an empty chat state. *)
Definition NewClient (conf : Config.t) : result Client.t :=
  match mergo_Merge conf DefaultConfig with
  | Err e => Err e
  | Ok c =>
    let c := derive_version conf c in
    let c := read_username conf c in
    let c := read_cdkeys conf c in
    let c := derive_product conf c in
    Ok {| Client.fired := [];
          Client.conn := None;
          Client.channel := EmptyString;
          Client.users := ∅;
          Client.UniqueName := EmptyString;
          Client.config := c |}
  end.

End NewClient.

(** ** More scenes to run the model in *)

Module Scenes.

(** The externals of [Mock], with a context maker, a signature check, a
    file system and a key decoder of one's choice. *)
Definition rigged (nls : string -> string -> result Mock.srp)
    (signature_ok : bool) (stat : string -> option error)
    (key : string -> Z -> Z -> result bncs.CDKey.t)
    (peer : list (result bncs.Packet) * list (option error))
    : Externals Mock.srp := {|
  NewSHA1 := NewSHA1 (Externals := ext0);
  NewNLS := nls;
  strings_ToLower := strings_ToLower (Externals := ext0);
  emojiToText_Replace := emojiToText_Replace (Externals := ext0);
  unicode_IsPrint := unicode_IsPrint (Externals := ext0);
  filepath_Join := filepath_Join (Externals := ext0);
  os_Stat := stat;
  GetExeInfo := GetExeInfo (Externals := ext0);
  CheckRevision := CheckRevision (Externals := ext0);
  ExtractMPQNumber := ExtractMPQNumber (Externals := ext0);
  CreateBNCSKeyInfo := key;
  VerifyServerSignature _ _ := signature_ok;
  net_ResolveTCPAddr := net_ResolveTCPAddr (Externals := ext0);
  net_DialTCP _ := Ok peer;
  AuthResultToError := AuthResultToError (Externals := ext0);
  LogonResultToError := LogonResultToError (Externals := ext0);
  LogonProofResultToError := LogonProofResultToError (Externals := ext0);
  AccountCreateResultToError := AccountCreateResultToError (Externals := ext0) |}.

(** No context can be made from a password that is empty. *)
Definition nls (username password : string) : result Mock.srp :=
  if String.eqb password EmptyString then Err (Errno 22)
  else NewNLS (Externals := ext0) username password.

(** Nothing is installed. *)
Definition no_files (path : string) : option error := Some (Errno 2).

(** The key ["BADKEY"] does not decode. *)
Definition key (k : string) (clientToken serverToken : Z) : result bncs.CDKey.t :=
  if String.eqb k "BADKEY" then Err (Errno 33)
  else CreateBNCSKeyInfo (Externals := ext0) k clientToken serverToken.

Definition picky : Externals Mock.srp :=
  rigged nls false no_files key Mock.Peer.liar.

Definition settings (sha1 verify : bool) (exeVersion exeHash : Z) (keys : list string)
    : Config.t := {|
  Config.ServerAddr := "bnet.example:6112";
  Config.KeepAliveInterval := 30000000000;
  Config.Platform := Mock.platform;
  Config.BinPath := "/opt/war3";
  Config.ExeInfo := "war3.exe 01/01/16 00:00:00 471040";
  Config.ExeVersion := exeVersion;
  Config.ExeHash := exeHash;
  Config.VerifySignature := verify;
  Config.SHA1Auth := sha1;
  Config.Username := "alice";
  Config.Password := EmptyString;
  Config.CDKeyOwner := "gowarcraft3";
  Config.CDKeys := keys;
  Config.GamePort := 6112 |}.

Definition socket (inbox : list (result bncs.Packet)) (outcomes : list (option error))
    : Socket.t := {|
  Socket.RemoteIP := [x0a; x00; x00; x01];
  Socket.inbox := inbox;
  Socket.outcomes := outcomes;
  Socket.log := [];
  Socket.closed := false |}.

(** A world with one open socket, attached to the client or not. *)
Definition stage (c : Config.t) (attached : option Conn) (s : Socket.t) : World.t := {|
  World.client := {|
    Client.fired := [];
    Client.conn := attached;
    Client.channel := EmptyString;
    Client.users := ∅;
    Client.UniqueName := EmptyString;
    Client.config := c |};
  World.sockets := [s];
  World.wall i := nth i [1700000000000000000; 1700000000250000000] 1700000001000000000;
  World.ticks := 0 |}.

(** An installation with both key files and no user file; the merge
    fills in the directory and the key owner. *)
Definition installation : Installation := {|
  mergo_Merge conf def :=
    Ok {| Config.ServerAddr := Config.ServerAddr conf;
          Config.KeepAliveInterval := Config.KeepAliveInterval def;
          Config.Platform := Config.Platform conf;
          Config.BinPath := Config.BinPath def;
          Config.ExeInfo := Config.ExeInfo conf;
          Config.ExeVersion := Config.ExeVersion conf;
          Config.ExeHash := Config.ExeHash conf;
          Config.VerifySignature := Config.VerifySignature conf;
          Config.SHA1Auth := Config.SHA1Auth conf;
          Config.Username := Config.Username conf;
          Config.Password := Config.Password conf;
          Config.CDKeyOwner := Config.CDKeyOwner def;
          Config.CDKeys := Config.CDKeys conf;
          Config.GamePort := Config.GamePort def |};
  ioutil_ReadFile path :=
    if String.eqb path "/opt/war3/roc.w3k" then Ok "ROCKEY"%string
    else if String.eqb path "/opt/war3/tft.w3k" then Ok "TFTKEY"%string
    else Err (Errno 2);
  strings_TrimSpace s := s;
  dir_InstallDir := "/opt/war3";
  w3gs_ProductROC := 0x57415233;
  w3gs_ProductTFT := 0x57335850;
  w3gs_CurrentGameVersion := 10032 |}.

(** A configuration that names no game version, no product and no key. *)
Definition bare : Config.t :=
  with_GameVersion {| bncs.GameVersion.Product := 0; bncs.GameVersion.Version := 0 |}
    (settings true false 0x011a0001 0 []).

(** A server that lets the client in, under the name ["alice#2"]. *)
Definition welcome : list (result bncs.Packet) * list (option error) :=
  ([Ok (bncs.AuthInfoResp Mock.Peer.authInfo);
    Ok (bncs.AuthCheckResp (Mock.Peer.authCheck bncs.AuthSuccess));
    Ok (bncs.AuthAccountLogonResp Mock.Peer.logon);
    Ok (bncs.AuthAccountLogonProofResp (Mock.Peer.logonProof Mock.Peer.good_proof));
    Ok (bncs.EnterChatResp
          {| bncs.EnterChatResp.UniqueName := "alice#2";
             bncs.EnterChatResp.StatString := "PX3W";
             bncs.EnterChatResp.AccountName := "alice" |})], []).

(** A server on which the name is taken. *)
Definition taken : list (result bncs.Packet) * list (option error) :=
  ([Ok (bncs.AuthInfoResp Mock.Peer.authInfo);
    Ok (bncs.AuthCheckResp (Mock.Peer.authCheck bncs.AuthSuccess));
    Ok (bncs.AuthAccountCreateResp
          {| bncs.AuthAccountCreateResp.Result := bncs.AccountCreateResultCode 4 |})],
   []).

End Scenes.

(** Worlds of the scenes. *)
Definition w_online : World.t :=
  Scenes.stage (Mock.config "bnet.example:6112") (Some 0%nat) (Scenes.socket [] [None]).
Definition w_no_context : World.t :=
  Scenes.stage (Scenes.settings false false 0 0 []) None (Scenes.socket [] []).
Definition w_signed : World.t :=
  Scenes.stage (Scenes.settings true true 0 0 []) None
    (Scenes.socket [Ok (bncs.AuthInfoResp Mock.Peer.authInfo)] []).
Definition w_logon : World.t :=
  Scenes.stage (Mock.config "bnet.example:6112") None
    (Scenes.socket [Ok (bncs.Ping 7); Ok (bncs.AuthAccountLogonResp Mock.Peer.logon)] []).
Definition w_enter : World.t :=
  Scenes.stage (Mock.config "bnet.example:6112") None
    (Scenes.socket [] [None; Some ErrTimeout]).
Definition w_exe : World.t :=
  Scenes.stage (Scenes.settings true false 0x011a0001 0x1234
                  ["ROCKEY"%string; "BADKEY"%string; "TFTKEY"%string])
    None (Scenes.socket [] []).
Definition w_one_key : World.t :=
  Scenes.stage (Scenes.settings true false 0x011a0001 0x1234 ["ROCKEY"%string])
    None (Scenes.socket [] []).
(** * Properties *)

(** ** The UTF-8 codec *)

Module utf8_facts.
Import utf8 utf8_check.

Lemma b2z_range (c : byte) : 0 <= b2z c < 256.
Proof. unfold b2z. pose proof (Byte.to_N_bounded c). lia. Qed.

Lemma b2z_z2b_small (v : Z) : 0 <= v < 256 -> b2z (z2b v) = v.
Proof.
  intros Hv. unfold b2z, z2b. rewrite Z.mod_small by lia.
  destruct (Byte.of_N (Z.to_N v)) as [b|] eqn:E.
  - apply Byte.to_of_N in E. rewrite E. lia.
  - apply Byte.of_N_None_iff in E. lia.
Qed.

(** *** Bit fields as arithmetic *)

Lemma land_shiftl_low (hi lo k : Z) :
  0 <= k -> 0 <= lo < 2 ^ k -> Z.land (Z.shiftl hi k) lo = 0.
Proof.
  intros Hk Hlo. apply Z.bits_inj'. intros n Hn.
  rewrite Z.land_spec, Z.bits_0.
  destruct (Z_lt_ge_dec n k).
  - rewrite Z.shiftl_spec_low by lia. reflexivity.
  - rewrite <- (Z.mod_small lo (2 ^ k)) by lia.
    rewrite Z.mod_pow2_bits_high by lia. apply andb_false_r.
Qed.

Lemma lor_shiftl (hi lo k : Z) :
  0 <= k -> 0 <= lo < 2 ^ k -> Z.lor (Z.shiftl hi k) lo = hi * 2 ^ k + lo.
Proof.
  intros Hk Hlo.
  rewrite <- Z.lxor_lor, <- Z.add_nocarry_lxor by (apply land_shiftl_low; lia).
  rewrite Z.shiftl_mul_pow2 by lia. reflexivity.
Qed.

Lemma lor_tx (x : Z) : 0 <= x < 64 -> Z.lor tx x = 128 + x.
Proof. intros. exact (lor_shiftl 2 x 6 ltac:(lia) ltac:(lia)). Qed.

Lemma lor_t2 (x : Z) : 0 <= x < 32 -> Z.lor t2 x = 192 + x.
Proof. intros. exact (lor_shiftl 6 x 5 ltac:(lia) ltac:(lia)). Qed.

Lemma lor_t3 (x : Z) : 0 <= x < 16 -> Z.lor t3 x = 224 + x.
Proof. intros. exact (lor_shiftl 14 x 4 ltac:(lia) ltac:(lia)). Qed.

Lemma lor_t4 (x : Z) : 0 <= x < 8 -> Z.lor t4 x = 240 + x.
Proof. intros. exact (lor_shiftl 30 x 3 ltac:(lia) ltac:(lia)). Qed.

Lemma land_maskx (x : Z) : Z.land x maskx = x mod 64.
Proof. exact (Z.land_ones x 6 ltac:(lia)). Qed.

Lemma land_mask2 (x : Z) : Z.land x mask2 = x mod 32.
Proof. exact (Z.land_ones x 5 ltac:(lia)). Qed.

Lemma land_mask3 (x : Z) : Z.land x mask3 = x mod 16.
Proof. exact (Z.land_ones x 4 ltac:(lia)). Qed.

Lemma land_mask4 (x : Z) : Z.land x mask4 = x mod 8.
Proof. exact (Z.land_ones x 3 ltac:(lia)). Qed.

Lemma shiftr_6 (x : Z) : Z.shiftr x 6 = x / 64.
Proof. exact (Z.shiftr_div_pow2 x 6 ltac:(lia)). Qed.

Lemma shiftr_12 (x : Z) : Z.shiftr x 12 = x / 4096.
Proof. exact (Z.shiftr_div_pow2 x 12 ltac:(lia)). Qed.

Lemma shiftr_18 (x : Z) : Z.shiftr x 18 = x / 262144.
Proof. exact (Z.shiftr_div_pow2 x 18 ltac:(lia)). Qed.

(** The fields of a rune, put together again. *)
Lemma lor_2 (x y : Z) :
  0 <= y < 64 -> Z.lor (Z.shiftl x 6) y = x * 64 + y.
Proof. intros. exact (lor_shiftl x y 6 ltac:(lia) ltac:(lia)). Qed.

Lemma lor_3 (x y z : Z) :
  0 <= y < 64 -> 0 <= z < 64 ->
  Z.lor (Z.lor (Z.shiftl x 12) (Z.shiftl y 6)) z = x * 4096 + y * 64 + z.
Proof.
  intros Hy Hz.
  replace (Z.shiftl x 12) with (Z.shiftl (Z.shiftl x 6) 6)
    by (rewrite Z.shiftl_shiftl by lia; reflexivity).
  rewrite <- Z.shiftl_lor, (lor_2 x y Hy), (lor_2 _ z Hz). lia.
Qed.

Lemma lor_4 (x y z t : Z) :
  0 <= y < 64 -> 0 <= z < 64 -> 0 <= t < 64 ->
  Z.lor (Z.lor (Z.lor (Z.shiftl x 18) (Z.shiftl y 12)) (Z.shiftl z 6)) t
  = x * 262144 + y * 4096 + z * 64 + t.
Proof.
  intros Hy Hz Ht.
  replace (Z.shiftl x 18) with (Z.shiftl (Z.shiftl x 12) 6)
    by (rewrite Z.shiftl_shiftl by lia; reflexivity).
  replace (Z.shiftl y 12) with (Z.shiftl (Z.shiftl y 6) 6)
    by (rewrite Z.shiftl_shiftl by lia; reflexivity).
  rewrite <- !Z.shiftl_lor, (lor_3 x y z Hy Hz), (lor_2 _ t Ht). lia.
Qed.

(** *** The classes of a first byte *)

Ltac split_first :=
  unfold first;
  repeat match goal with
  | |- context [?a <? ?b] => destruct (Z.ltb_spec a b); try lia
  | |- context [?a =? ?b] => destruct (Z.eqb_spec a b); try lia
  end; reflexivity.

Lemma first_as (b : Z) : b < 0x80 -> first b = as_.
Proof. intros. split_first. Qed.

Lemma first_cont (b : Z) : 0x80 <= b < 0xC2 -> first b = xx.
Proof. intros. split_first. Qed.

Lemma first_s1 (b : Z) : 0xC2 <= b < 0xE0 -> first b = s1.
Proof. intros. split_first. Qed.

Lemma first_s3 (b : Z) : 0xE0 < b < 0xF0 -> b <> 0xED -> first b = s3.
Proof. intros. split_first. Qed.

Lemma first_s6 (b : Z) : 0xF0 < b < 0xF4 -> first b = s6.
Proof. intros. split_first. Qed.

Lemma first_cases (b : Z) :
  first b = as_ \/ first b = xx \/ first b = s1 \/ first b = s2 \/ first b = s3
  \/ first b = s4 \/ first b = s5 \/ first b = s6 \/ first b = s7.
Proof. unfold first. repeat case_match; tauto. Qed.

(** Once the class of the first byte is known, its size and accept range
    are numbers. *)
Ltac eval_first E :=
  match type of E with
  | first _ = ?s =>
    let v := eval vm_compute in (Z.land s 7) in
    change (Z.land s 7) with v in *;
    let a := eval vm_compute in (acceptRanges (Z.shiftr s 4)) in
    change (acceptRanges (Z.shiftr s 4)) with a in *;
    let o := eval vm_compute in (as_ <=? s) in
    change (as_ <=? s) with o in *;
    let o := eval vm_compute in (s =? xx) in
    change (s =? xx) with o in *
  end.

Ltac split_sizes :=
  repeat match goal with
  | |- context [Z.of_nat ?n <? ?k] =>
      destruct (Z.ltb_spec (Z.of_nat n) k); try lia
  | |- context [?a <=? ?b] => destruct (Z.leb_spec a b); try lia
  | |- context [?a <? ?b] => destruct (Z.ltb_spec a b); try lia
  end.

(** *** What [DecodeRune] reads, class by class *)

Lemma Decode_1 (c : byte) (rest : list byte) :
  b2z c < 0x80 -> DecodeRune (c :: rest) = (b2z c, 1%nat).
Proof.
  intros H. unfold DecodeRune. cbv zeta.
  pose proof (first_as _ H) as E. rewrite E. eval_first E. reflexivity.
Qed.

Lemma Decode_cont (c : byte) (rest : list byte) :
  0x80 <= b2z c < 0xC2 -> DecodeRune (c :: rest) = (RuneError, 1%nat).
Proof.
  intros H. unfold DecodeRune. cbv zeta.
  pose proof (first_cont _ H) as E. rewrite E. eval_first E. reflexivity.
Qed.

Lemma Decode_short (c : byte) (l : list byte) :
  Z.of_nat (length (c :: l)) < Z.land (first (b2z c)) 7 ->
  DecodeRune (c :: l) = (RuneError, 1%nat).
Proof.
  intros H. unfold DecodeRune. cbv zeta.
  destruct (first_cases (b2z c)) as [E|[E|[E|[E|[E|[E|[E|[E|E]]]]]]]];
    rewrite E in *; eval_first E; cbn [length] in *; try lia;
    split_sizes; reflexivity.
Qed.

Lemma Decode_2 (c0 c1 : byte) (rest : list byte) (x y : Z) :
  b2z c0 = 192 + x -> 2 <= x < 32 ->
  b2z c1 = 128 + y -> 0 <= y < 64 ->
  DecodeRune (c0 :: c1 :: rest) = (x * 64 + y, 2%nat).
Proof.
  intros H0 Hx H1 Hy. unfold DecodeRune. cbv zeta. rewrite H0, H1.
  assert (E : first (192 + x) = s1) by (apply first_s1; lia).
  rewrite E. eval_first E. cbn [length fst snd]. unfold locb, hicb.
  split_sizes. cbn [orb]. f_equal.
  rewrite land_mask2, land_maskx, lor_2 by (apply Z.mod_pos_bound; lia).
  Z.div_mod_to_equations. lia.
Qed.

Lemma Decode_3 (c0 c1 c2 : byte) (rest : list byte) (x y z : Z) :
  b2z c0 = 224 + x -> 0 <= x < 16 ->
  b2z c1 = 128 + y -> 0 <= y < 64 ->
  b2z c2 = 128 + z -> 0 <= z < 64 ->
  (x = 0 -> 32 <= y) -> (x = 13 -> y < 32) ->
  DecodeRune (c0 :: c1 :: c2 :: rest) = (x * 4096 + y * 64 + z, 3%nat).
Proof.
  intros H0 Hx H1 Hy H2 Hz Hlo Hhi. unfold DecodeRune. cbv zeta.
  rewrite H0, H1, H2.
  assert (E : first (224 + x) = s2 \/ first (224 + x) = s4
              \/ first (224 + x) = s3).
  { destruct (Z.eq_dec x 0) as [->|]; [left; reflexivity|].
    destruct (Z.eq_dec x 13) as [->|]; [right; left; reflexivity|].
    right; right. apply first_s3; lia. }
  assert (Hand : forall v, 0 <= v < 64 -> Z.land (128 + v) maskx = v).
  { intros v Hv. rewrite land_maskx. Z.div_mod_to_equations. lia. }
  assert (Hx3 : Z.land (224 + x) mask3 = x).
  { rewrite land_mask3. Z.div_mod_to_equations. lia. }
  destruct E as [E|[E|E]]; rewrite E; eval_first E;
    cbn [length fst snd]; unfold locb, hicb;
    split_sizes; cbn [orb]; f_equal;
    (rewrite Hx3, (Hand y Hy), (Hand z Hz), lor_3 by lia; lia)
    || (exfalso; destruct (Z.eq_dec x 0) as [->|];
        [discriminate E || lia|];
        destruct (Z.eq_dec x 13) as [->|]; [discriminate E || lia|];
        rewrite first_s3 in E by lia; discriminate E || lia).
Qed.

Lemma Decode_4 (c0 c1 c2 c3 : byte) (rest : list byte) (x y z t : Z) :
  b2z c0 = 240 + x -> 0 <= x <= 4 ->
  b2z c1 = 128 + y -> 0 <= y < 64 ->
  b2z c2 = 128 + z -> 0 <= z < 64 ->
  b2z c3 = 128 + t -> 0 <= t < 64 ->
  (x = 0 -> 16 <= y) -> (x = 4 -> y < 16) ->
  DecodeRune (c0 :: c1 :: c2 :: c3 :: rest)
  = (x * 262144 + y * 4096 + z * 64 + t, 4%nat).
Proof.
  intros H0 Hx H1 Hy H2 Hz H3 Ht Hlo Hhi. unfold DecodeRune. cbv zeta.
  rewrite H0, H1, H2, H3.
  assert (E : first (240 + x) = s5 \/ first (240 + x) = s7
              \/ first (240 + x) = s6).
  { destruct (Z.eq_dec x 0) as [->|]; [left; reflexivity|].
    destruct (Z.eq_dec x 4) as [->|]; [right; left; reflexivity|].
    right; right. apply first_s6; lia. }
  assert (Hand : forall v, 0 <= v < 64 -> Z.land (128 + v) maskx = v).
  { intros v Hv. rewrite land_maskx. Z.div_mod_to_equations. lia. }
  assert (Hx4 : Z.land (240 + x) mask4 = x).
  { rewrite land_mask4. Z.div_mod_to_equations. lia. }
  destruct E as [E|[E|E]]; rewrite E; eval_first E;
    cbn [length fst snd]; unfold locb, hicb;
    split_sizes; cbn [orb]; f_equal;
    (rewrite Hx4, (Hand y Hy), (Hand z Hz), (Hand t Ht), lor_4 by lia; lia)
    || (exfalso; destruct (Z.eq_dec x 0) as [->|];
        [discriminate E || lia|];
        destruct (Z.eq_dec x 4) as [->|]; [discriminate E || lia|];
        rewrite first_s6 in E by lia; discriminate E || lia).
Qed.

Lemma DecodeRune_width (s : list byte) :
  s <> [] -> (1 <= snd (DecodeRune s) <= 4)%nat.
Proof.
  intros Hs. destruct s as [|c0 r0]; [done|].
  unfold DecodeRune. repeat case_match; simpl; lia.
Qed.

Lemma runes_fuel_enough (f1 f2 : nat) (s : list byte) :
  (length s <= f1)%nat -> (length s <= f2)%nat ->
  runes_fuel f1 s = runes_fuel f2 s.
Proof.
  revert f2 s. induction f1 as [|f1 IH]; intros f2 s H1 H2.
  - destruct s; [|simpl in H1; lia]. destruct f2; reflexivity.
  - destruct s as [|c s]; [destruct f2; reflexivity|].
    destruct f2 as [|f2]; [simpl in H2; lia|].
    cbn [runes_fuel].
    pose proof (DecodeRune_width (c :: s) ltac:(done)) as Hw.
    destruct (DecodeRune (c :: s)) as [r w]. simpl in Hw.
    f_equal. apply IH; rewrite length_skipn; simpl in *; lia.
Qed.

Lemma runes_nil : runes [] = [].
Proof. reflexivity. Qed.

Lemma runes_cons (c : byte) (s : list byte) :
  runes (c :: s) =
  fst (DecodeRune (c :: s)) :: runes (skipn (snd (DecodeRune (c :: s))) (c :: s)).
Proof.
  unfold runes at 1. cbn [length runes_fuel].
  pose proof (DecodeRune_width (c :: s) ltac:(done)) as Hw.
  destruct (DecodeRune (c :: s)) as [r w]. simpl in *.
  f_equal. apply runes_fuel_enough; rewrite ?length_skipn; simpl; lia.
Qed.

(** Continuation bytes with no first byte before them are one
    [RuneError] each. *)
Lemma runes_cont (l : list byte) :
  Forall (fun c => 0x80 <= b2z c < 0xC2) l ->
  runes l = repeat RuneError (length l).
Proof.
  induction 1 as [|c l Hc _ IH]; [reflexivity|].
  rewrite runes_cons, Decode_cont by exact Hc.
  cbn [fst snd length repeat]. change (skipn 1 (c :: l)) with l.
  rewrite IH. reflexivity.
Qed.

(** An encoding cut short: the first byte announces more bytes than there
    are, and the continuation bytes that follow it stand alone. *)
Lemma runes_short (c : byte) (l : list byte) :
  Z.of_nat (length (c :: l)) < Z.land (first (b2z c)) 7 ->
  Forall (fun c => 0x80 <= b2z c < 0xC2) l ->
  runes (c :: l) = repeat RuneError (length (c :: l)).
Proof.
  intros Hn Hl. rewrite runes_cons, Decode_short by exact Hn.
  cbn [fst snd length repeat]. change (skipn 1 (c :: l)) with l.
  rewrite (runes_cont l Hl). reflexivity.
Qed.

(** *** What [EncodeRune] writes, range by range *)

Ltac split_ranges :=
  unfold EncodeRune, u32; cbv zeta;
  rewrite Z.mod_small by lia;
  unfold rune1Max, rune2Max, rune3Max, MaxRune, surrogateMin, surrogateMax;
  repeat match goal with
  | |- context [?a <=? ?b] => destruct (Z.leb_spec a b); try lia
  | |- context [?a <? ?b] => destruct (Z.ltb_spec a b); try lia
  end; cbn [orb andb].

Lemma Encode_1 (r : Z) : 0 <= r <= 0x7F -> EncodeRune r = [z2b r].
Proof. intros Hr. split_ranges. reflexivity. Qed.

Lemma Encode_2 (r : Z) :
  0x80 <= r <= 0x7FF ->
  EncodeRune r = [z2b (192 + r / 64); z2b (128 + r mod 64)].
Proof.
  intros Hr. split_ranges.
  rewrite shiftr_6, land_maskx, lor_t2, lor_tx
    by (Z.div_mod_to_equations; lia).
  reflexivity.
Qed.

Lemma Encode_3 (r : Z) :
  0x800 <= r <= 0xFFFF -> ~ 0xD800 <= r <= 0xDFFF ->
  EncodeRune r = [z2b (224 + r / 4096); z2b (128 + (r / 64) mod 64);
                  z2b (128 + r mod 64)].
Proof.
  intros Hr Hs. split_ranges;
    rewrite shiftr_6, shiftr_12, !land_maskx, lor_t3, !lor_tx
      by (Z.div_mod_to_equations; lia);
    reflexivity.
Qed.

Lemma Encode_4 (r : Z) :
  0x10000 <= r <= 0x10FFFF ->
  EncodeRune r = [z2b (240 + r / 262144); z2b (128 + (r / 4096) mod 64);
                  z2b (128 + (r / 64) mod 64); z2b (128 + r mod 64)].
Proof.
  intros Hr. split_ranges.
  rewrite shiftr_6, shiftr_12, shiftr_18, !land_maskx, lor_t4, !lor_tx
    by (Z.div_mod_to_equations; lia).
  reflexivity.
Qed.

Lemma Encode_bad (r : Z) :
  0 <= r < 2 ^ 32 -> 0x10FFFF < r \/ 0xD800 <= r <= 0xDFFF ->
  EncodeRune r = [xef; xbf; xbd].
Proof. intros Hr Hs. split_ranges; reflexivity. Qed.

Lemma norm_good (r : Z) :
  r <= 0x10FFFF -> ~ 0xD800 <= r <= 0xDFFF -> norm r = r.
Proof.
  intros Hr Hs. unfold norm, MaxRune, surrogateMin, surrogateMax.
  repeat match goal with
  | |- context [?a <=? ?b] => destruct (Z.leb_spec a b); try lia
  | |- context [?a <? ?b] => destruct (Z.ltb_spec a b); try lia
  end; reflexivity.
Qed.

Lemma norm_bad (r : Z) :
  0x10FFFF < r \/ 0xD800 <= r <= 0xDFFF -> norm r = RuneError.
Proof.
  intros Hs. unfold norm, MaxRune, surrogateMin, surrogateMax.
  repeat match goal with
  | |- context [?a <=? ?b] => destruct (Z.leb_spec a b); try lia
  | |- context [?a <? ?b] => destruct (Z.ltb_spec a b); try lia
  end; reflexivity.
Qed.

Ltac cut_cases k :=
  let rec go k :=
    destruct k as [|k];
    [ try reflexivity
    | try (exfalso; cbn [length] in *; lia); try go k ] in
  go k.

Lemma cont_range (v : Z) :
  0 <= v < 64 -> 0x80 <= b2z (z2b (128 + v)) < 0xC2.
Proof. intros Hv. rewrite b2z_z2b_small by lia. lia. Qed.

Lemma first_size_3 (b : Z) : 0xE0 <= b < 0xF0 -> Z.land (first b) 7 = 3.
Proof.
  intros Hb.
  destruct (Z.eq_dec b 0xE0) as [->|]; [reflexivity|].
  destruct (Z.eq_dec b 0xED) as [->|]; [reflexivity|].
  rewrite first_s3 by lia. reflexivity.
Qed.

Lemma first_size_4 (b : Z) : 0xF0 <= b <= 0xF4 -> Z.land (first b) 7 = 4.
Proof.
  intros Hb.
  destruct (Z.eq_dec b 0xF0) as [->|]; [reflexivity|].
  destruct (Z.eq_dec b 0xF4) as [->|]; [reflexivity|].
  rewrite first_s6 by lia. reflexivity.
Qed.

Lemma complete_size (c : byte) (l : list byte) :
  Z.land (first (b2z c)) 7 <= Z.of_nat (length (c :: l)) ->
  complete (c :: l) = true.
Proof.
  intros H. unfold complete. apply orb_true_iff. right.
  apply Z.leb_le. exact H.
Qed.

Lemma encoded_all (r : Z) : 0 <= r < 2 ^ 21 -> encoded r.
Proof.
  intros Hr. unfold encoded.
  assert (Hm : forall v, 0 <= v mod 64 < 64)
    by (intros v; apply Z.mod_pos_bound; lia).
  destruct (Z_le_gt_dec r 0x7F) as [H1|H1].
  { rewrite Encode_1, norm_good by lia.
    assert (Hb : b2z (z2b r) = r) by (apply b2z_z2b_small; lia).
    repeat split.
    - unfold complete. rewrite Hb, first_as by lia. reflexivity.
    - intros rest. cbn [app]. rewrite Decode_1, Hb by lia. reflexivity.
    - intros k Hk. cut_cases k. }
  destruct (Z_le_gt_dec r 0x7FF) as [H2|H2].
  { rewrite Encode_2, norm_good by lia.
    assert (Hb : b2z (z2b (192 + r / 64)) = 192 + r / 64)
      by (apply b2z_z2b_small; Z.div_mod_to_equations; lia).
    assert (Hf : first (192 + r / 64) = s1)
      by (apply first_s1; Z.div_mod_to_equations; lia).
    repeat split.
    - unfold complete. rewrite Hb, Hf. reflexivity.
    - intros rest. cbn [app length].
      rewrite (Decode_2 _ _ rest (r / 64) (r mod 64));
        rewrite ?b2z_z2b_small; try (Z.div_mod_to_equations; lia).
      f_equal. Z.div_mod_to_equations; lia.
    - intros k Hk. cut_cases k.
      apply (runes_short _ []); [rewrite Hb, Hf; reflexivity|constructor]. }
  destruct (Z_le_gt_dec r 0x10FFFF) as [H4|H4];
    [destruct (Z_le_gt_dec 0xD800 r) as [Hs1|Hs1];
      [destruct (Z_le_gt_dec r 0xDFFF) as [Hs2|Hs2]|]|].
  2, 3: destruct (Z_le_gt_dec r 0xFFFF) as [H3|H3].
  - (* a surrogate *)
    rewrite Encode_bad, norm_bad by lia. repeat split.
    + intros rest. exact (Decode_3 xef xbf xbd rest 15 63 61
        eq_refl ltac:(lia) eq_refl ltac:(lia) eq_refl ltac:(lia)
        ltac:(lia) ltac:(lia)).
    + intros k Hk. cut_cases k.
  - (* three bytes, above the surrogates *)
    rewrite Encode_3, norm_good by lia.
    assert (Hb : b2z (z2b (224 + r / 4096)) = 224 + r / 4096)
      by (apply b2z_z2b_small; Z.div_mod_to_equations; lia).
    assert (Hf : Z.land (first (224 + r / 4096)) 7 = 3)
      by (apply first_size_3; Z.div_mod_to_equations; lia).
    repeat split.
    + apply complete_size. rewrite Hb, Hf. cbn [length]. lia.
    + intros rest. cbn [app length].
      rewrite (Decode_3 _ _ _ rest (r / 4096) ((r / 64) mod 64) (r mod 64));
        rewrite ?b2z_z2b_small; try (Z.div_mod_to_equations; lia).
      f_equal. Z.div_mod_to_equations; lia.
    + intros k Hk. cut_cases k.
      * apply (runes_short _ []); [rewrite Hb, Hf; cbn [length]; lia|constructor].
      * apply (runes_short _ [_]); [rewrite Hb, Hf; cbn [length]; lia|].
        repeat constructor; apply cont_range, Hm.
  - (* four bytes *)
    rewrite Encode_4, norm_good by lia.
    assert (Hb : b2z (z2b (240 + r / 262144)) = 240 + r / 262144)
      by (apply b2z_z2b_small; Z.div_mod_to_equations; lia).
    assert (Hf : Z.land (first (240 + r / 262144)) 7 = 4)
      by (apply first_size_4; Z.div_mod_to_equations; lia).
    repeat split.
    + apply complete_size. rewrite Hb, Hf. cbn [length]. lia.
    + intros rest. cbn [app length].
      rewrite (Decode_4 _ _ _ _ rest (r / 262144) ((r / 4096) mod 64)
                 ((r / 64) mod 64) (r mod 64));
        rewrite ?b2z_z2b_small; try (Z.div_mod_to_equations; lia).
      f_equal. Z.div_mod_to_equations; lia.
    + intros k Hk. cut_cases k.
      * apply (runes_short _ []); [rewrite Hb, Hf; cbn [length]; lia|constructor].
      * apply (runes_short _ [_]); [rewrite Hb, Hf; cbn [length]; lia|].
        repeat constructor; apply cont_range, Hm.
      * apply (runes_short _ [_; _]); [rewrite Hb, Hf; cbn [length]; lia|].
        repeat constructor; apply cont_range, Hm.
  - (* three bytes, below the surrogates *)
    rewrite Encode_3, norm_good by lia.
    assert (Hb : b2z (z2b (224 + r / 4096)) = 224 + r / 4096)
      by (apply b2z_z2b_small; Z.div_mod_to_equations; lia).
    assert (Hf : Z.land (first (224 + r / 4096)) 7 = 3)
      by (apply first_size_3; Z.div_mod_to_equations; lia).
    repeat split.
    + apply complete_size. rewrite Hb, Hf. cbn [length]. lia.
    + intros rest. cbn [app length].
      rewrite (Decode_3 _ _ _ rest (r / 4096) ((r / 64) mod 64) (r mod 64));
        rewrite ?b2z_z2b_small; try (Z.div_mod_to_equations; lia).
      f_equal. Z.div_mod_to_equations; lia.
    + intros k Hk. cut_cases k.
      * apply (runes_short _ []); [rewrite Hb, Hf; cbn [length]; lia|constructor].
      * apply (runes_short _ [_]); [rewrite Hb, Hf; cbn [length]; lia|].
        repeat constructor; apply cont_range, Hm.
  - (* impossible: above 0xFFFF and below 0xD800 *)
    lia.
  - (* above MaxRune *)
    rewrite Encode_bad, norm_bad by lia. repeat split.
    + intros rest. exact (Decode_3 xef xbf xbd rest 15 63 61
        eq_refl ltac:(lia) eq_refl ltac:(lia) eq_refl ltac:(lia)
        ltac:(lia) ltac:(lia)).
    + intros k Hk. cut_cases k.
Qed.

Lemma lor_bound (n a b : Z) :
  0 <= a < 2 ^ n -> 0 <= b < 2 ^ n -> 0 <= Z.lor a b < 2 ^ n.
Proof.
  intros Ha Hb. split; [apply Z.lor_nonneg; lia|].
  destruct (Z.eq_dec a 0) as [->|Ha0]; [rewrite Z.lor_0_l; lia|].
  destruct (Z.eq_dec b 0) as [->|Hb0]; [rewrite Z.lor_0_r; lia|].
  assert (Z.log2 a < n) by (apply Z.log2_lt_pow2; lia).
  assert (Z.log2 b < n) by (apply Z.log2_lt_pow2; lia).
  assert (0 <= Z.lor a b) by (apply Z.lor_nonneg; lia).
  destruct (Z.eq_dec (Z.lor a b) 0) as [->|]; [lia|].
  apply Z.log2_lt_pow2; [lia|]. rewrite Z.log2_lor by lia. lia.
Qed.

Lemma in21_spec (z : Z) : in21 z = true -> 0 <= z < 2 ^ 21.
Proof. unfold in21. intros [H1 H2]%andb_true_iff. lia. Qed.

Lemma field_ok_all (c : byte) : field_ok c = true.
Proof. destruct c; vm_compute; reflexivity. Qed.

Lemma field_bound (c : byte) :
  0 <= b2z c < 2 ^ 21
  /\ 0 <= Z.land (b2z c) maskx < 2 ^ 21
  /\ 0 <= Z.shiftl (Z.land (b2z c) maskx) 6 < 2 ^ 21
  /\ 0 <= Z.shiftl (Z.land (b2z c) maskx) 12 < 2 ^ 21
  /\ 0 <= Z.shiftl (Z.land (b2z c) mask2) 6 < 2 ^ 21
  /\ 0 <= Z.shiftl (Z.land (b2z c) mask3) 12 < 2 ^ 21
  /\ 0 <= Z.shiftl (Z.land (b2z c) mask4) 18 < 2 ^ 21.
Proof.
  pose proof (field_ok_all c) as H. unfold field_ok in H.
  do 6 (apply andb_true_iff in H as [H ?]).
  repeat match goal with
  | |- (_ <= _ < _) /\ _ => split; [apply in21_spec; assumption|]
  end.
  apply in21_spec; assumption.
Qed.

Lemma RuneError_bound : 0 <= RuneError < 2 ^ 21.
Proof. unfold RuneError. lia. Qed.

Lemma DecodeRune_bound (s : list byte) :
  0 <= fst (DecodeRune s) < 2 ^ 21.
Proof.
  unfold DecodeRune.
  repeat case_match; cbn [fst];
    first [ exact RuneError_bound
          | repeat apply lor_bound;
            match goal with |- context [b2z ?c] => apply (field_bound c) end ].
Qed.

Section Encoded.
Variable r : Z.
Hypothesis Hr : 0 <= r < 2 ^ 21.

Lemma EncodeRune_complete : complete (EncodeRune r) = true.
Proof. apply (encoded_all r Hr). Qed.

Lemma DecodeRune_EncodeRune (rest : list byte) :
  DecodeRune (EncodeRune r ++ rest) = (norm r, length (EncodeRune r)).
Proof. apply (encoded_all r Hr). Qed.

Lemma runes_EncodeRune_cut (k : nat) :
  (k < length (EncodeRune r))%nat ->
  runes (firstn k (EncodeRune r)) = repeat RuneError k.
Proof. apply (encoded_all r Hr). Qed.

Lemma EncodeRune_nonempty : (0 < length (EncodeRune r))%nat.
Proof.
  pose proof EncodeRune_complete as H.
  destruct (EncodeRune r); [discriminate H|simpl; lia].
Qed.

End Encoded.

(** What is left of the runes of an encoded text when the text is cut after
    [n] bytes: the runes that fit, then one [RuneError] per byte of the
    rune that was cut. *)
Lemma runes_cut (rs : list Z) :
  Forall (fun r => 0 <= r < 2 ^ 21) rs ->
  forall n, exists j m,
    runes (firstn n (concat (map EncodeRune rs)))
    = map norm (firstn j rs) ++ repeat RuneError m.
Proof.
  induction 1 as [|r rs Hr Hrs IH]; intros n.
  - exists 0%nat, 0%nat. rewrite firstn_nil. reflexivity.
  - cbn [map concat]. rewrite firstn_app.
    destruct (Nat.lt_ge_cases n (length (EncodeRune r))) as [Hlt|Hge].
    + replace (n - length (EncodeRune r))%nat with 0%nat by lia.
      rewrite firstn_0, app_nil_r, runes_EncodeRune_cut by assumption.
      exists 0%nat, n. reflexivity.
    + rewrite firstn_all2 by lia.
      destruct (IH (n - length (EncodeRune r))%nat) as (j & m & E).
      exists (S j), m.
      pose proof (EncodeRune_nonempty r Hr) as Hne.
      pose proof (DecodeRune_EncodeRune r Hr
                    (firstn (n - length (EncodeRune r)) (concat (map EncodeRune rs)))) as Hd.
      destruct (EncodeRune r) as [|c e] eqn:Ee; [simpl in Hne; lia|].
      cbn [app] in *. rewrite runes_cons, Hd. cbn [fst snd firstn map app].
      f_equal. rewrite <- E. f_equal.
      change (c :: e ++ ?x) with ((c :: e) ++ x).
      rewrite skipn_app, skipn_all, Nat.sub_diag. reflexivity.
Qed.

Lemma runes_bound (s : list byte) :
  Forall (fun r => 0 <= r < 2 ^ 21) (runes s).
Proof.
  remember (length s) as n eqn:Hn. revert s Hn.
  induction n as [n IH] using lt_wf_ind. intros s Hn.
  destruct s as [|c s]; [constructor|].
  rewrite runes_cons. constructor; [apply DecodeRune_bound|].
  pose proof (DecodeRune_width (c :: s) ltac:(done)).
  eapply IH; [|reflexivity]. rewrite length_skipn. simpl in *. lia.
Qed.

End utf8_facts.

(** ** The chat filter *)

Lemma len_of_bytes (l : list byte) : len (of_bytes l) = length l.
Proof. induction l as [|c l IH]; [reflexivity|]. simpl. f_equal. exact IH. Qed.

Lemma bytes_of_bytes (l : list byte) : bytes (of_bytes l) = l.
Proof. apply list_byte_of_string_of_list_byte. Qed.

Section FilterChat_facts.

Variable emojiToText_Replace : string -> string.
Variable IsPrint : Z -> bool.

(** [strings.Map] with the filter's mapping writes the printable runes of
    its argument, each as [utf8.AppendRune] encodes it. *)
Lemma Map_filter (rs : list Z) :
  Forall (fun r => 0 <= r < 2 ^ 21) rs ->
  concat (map (fun c => if (if negb (IsPrint c) then -1 else c) <? 0 then []
                        else utf8.EncodeRune (if negb (IsPrint c) then -1 else c)) rs)
  = concat (map utf8.EncodeRune (filter (fun r => IsPrint r = true) rs)).
Proof.
  induction 1 as [|r rs Hr _ IH]; [reflexivity|].
  rewrite map_cons, concat_cons, filter_cons, IH.
  destruct (IsPrint r) eqn:E; cbn [negb].
  - destruct (decide (true = true)); [|done].
    destruct (Z.ltb_spec r 0); [lia|]. reflexivity.
  - destruct (decide (false = true)); [done|]. reflexivity.
Qed.

(** [unicode.IsPrint] holds of U+FFFD, a symbol. *)
Hypothesis IsPrint_RuneError : IsPrint utf8.RuneError = true.

Lemma norm_printable (r : Z) :
  IsPrint r = true -> IsPrint (utf8_check.norm r) = true.
Proof. unfold utf8_check.norm. intros H. case_match; assumption. Qed.

Lemma printable_cut (rs : list Z) (n : nat) :
  Forall (fun r => 0 <= r < 2 ^ 21) rs ->
  Forall (fun r => IsPrint r = true) rs ->
  Forall (fun r => IsPrint r = true)
         (utf8.runes (firstn n (concat (map utf8.EncodeRune rs)))).
Proof.
  intros Hb Hp. destruct (utf8_facts.runes_cut rs Hb n) as (j & m & ->).
  apply Forall_app. split.
  - apply Forall_map. apply Forall_take.
    eapply Forall_impl; [exact Hp|]. intros r. apply norm_printable.
  - apply Forall_forall. intros r Hr%list_elem_of_In%repeat_spec.
    subst. exact IsPrint_RuneError.
Qed.

(** C7: whatever the input, every rune of [FilterChat s] is printable and
    [FilterChat s] is at most 254 bytes long.  The cut at 254 bytes can
    fall inside a rune; what is left of that rune reads as U+FFFD, which
    [unicode.IsPrint] accepts. *)
Theorem FilterChat_printable_bounded (s : string) :
  printable IsPrint (FilterChat emojiToText_Replace IsPrint s)
  /\ (len (FilterChat emojiToText_Replace IsPrint s) <= 254)%nat.
Proof.
  unfold FilterChat, strings_Map, slice_to. cbv beta zeta.
  pose proof (utf8_facts.runes_bound (bytes (emojiToText_Replace s))) as Hb.
  rewrite (Map_filter _ Hb).
  set (rs := filter _ _).
  assert (Hrb : Forall (fun r => 0 <= r < 2 ^ 21) rs).
  { apply Forall_forall. intros r Hr%list_elem_of_filter.
    rewrite Forall_forall in Hb. apply Hb, Hr. }
  assert (Hrp : Forall (fun r => IsPrint r = true) rs).
  { apply Forall_forall. intros r Hr%list_elem_of_filter. apply Hr. }
  rewrite len_of_bytes, bytes_of_bytes.
  destruct (Nat.ltb_spec 254 (length (concat (map utf8.EncodeRune rs)))) as [Hlt|Hle].
  - unfold printable. rewrite len_of_bytes, bytes_of_bytes. split.
    + apply printable_cut; assumption.
    + rewrite length_firstn. lia.
  - unfold printable. rewrite len_of_bytes, bytes_of_bytes. split.
    + rewrite <- (firstn_all (concat (map utf8.EncodeRune rs))).
      apply printable_cut; assumption.
    + exact Hle.
Qed.

End FilterChat_facts.

(** The filter on a short greeting. *)
Lemma FilterChat_printable_bounded_witness :
  printable Mock.IsPrint (FilterChat (fun s => s) Mock.IsPrint "hello"%string)
  /\ (len (FilterChat (fun s => s) Mock.IsPrint "hello"%string) <= 254)%nat.
Proof.
  apply (FilterChat_printable_bounded (fun s => s) Mock.IsPrint). reflexivity.
Defined.

(** ** The chat handler and [Say] *)

Section Chat_facts.

Context {S : Type} {srp_ops : SRP S} {ext : Externals S}.

(** C5: a "channel info" event leaves an empty membership and the event's
    text as channel name, whatever the state before; so does the same
    event a second time, and the chat state after does not depend on the
    world before. *)
Theorem channel_info_resets (pkt : bncs.ChatEvent.t) (w : World.t) :
  bncs.ChatEvent.Type_ pkt = bncs.ChatChannelInfo ->
  let w1 := snd (onChatEvent pkt w) in
  let w2 := snd (onChatEvent pkt w1) in
  (users_of w1 = ∅ /\ channel_of w1 = bncs.ChatEvent.Text pkt)
  /\ (users_of w2 = ∅ /\ channel_of w2 = bncs.ChatEvent.Text pkt)
  /\ (forall w', users_of (snd (onChatEvent pkt w')) = users_of w1
                 /\ channel_of (snd (onChatEvent pkt w')) = channel_of w1).
Proof.
  intros Ht. unfold onChatEvent. rewrite Ht. cbn. auto.
Qed.

(** C4, as the code has it: a "user shown" or "user joined" event for a
    name that is not in the membership stores the entry built from the
    event, with [Joined] and [LastSeen] at the current time, and emits
    [UserJoined]; for a name that is there it stores the entry built from
    the event with both [Joined] and [LastSeen] taken from the entry
    before, and emits [UserUpdate]. *)
Theorem user_shown_upsert (pkt : bncs.ChatEvent.t) (w : World.t) :
  shows_user pkt ->
  let key := strings_ToLower (bncs.ChatEvent.Username pkt) in
  let new := user_of_event pkt (World.wall w (World.ticks w)) in
  let w' := snd (onChatEvent pkt w) in
  match users_of w !! key with
  | None =>
    users_of w' = <[key := new]> (users_of w)
    /\ fired_of w' = fired_of w
         ++ [UserJoined new (is_ShowUser (bncs.ChatEvent.Type_ pkt))]
  | Some old =>
    let upd := User.set_LastSeen (User.LastSeen old)
                 (User.set_Joined (User.Joined old) new) in
    users_of w' = <[key := upd]> (users_of w)
    /\ fired_of w' = fired_of w ++ [UserUpdate upd]
  end.
Proof.
  intros [Ht|Ht]; unfold onChatEvent; rewrite Ht; cbn;
    unfold users_of; cbn;
    destruct (Client.users (World.client w) !! _); cbn; auto.
Qed.

(** C10: when the filtered text is empty [Say] returns nil and leaves the
    world as it was, so nothing is sent; otherwise it makes one
    rate-limited send of the filtered text and returns what that returns. *)
Theorem Say_nothing_to_say (s : string) (w : World.t) :
  (FilterChat emojiToText_Replace unicode_IsPrint s = EmptyString ->
   Say s w = (Ok tt, w))
  /\ (FilterChat emojiToText_Replace unicode_IsPrint s <> EmptyString ->
      Say s w =
      match b_SendRL (bncs.ChatCommand (FilterChat emojiToText_Replace unicode_IsPrint s)) w with
      | (Ok _, w') => (Ok tt, w')
      | (Err e, w') => (Err e, w')
      end).
Proof.
  unfold Say. split; intros H.
  - rewrite H. reflexivity.
  - destruct (FilterChat _ _ s) as [|a s'] eqn:E; [done|]. cbn.
    unfold bind. destruct (b_SendRL _ w) as [[[]|e] w']; reflexivity.
Qed.

End Chat_facts.

(** Bob is shown again: the entry stored keeps his [LastSeen] of 5, where
    an update that kept [Joined] only would store the time of the event. *)
Lemma user_update_keeps_LastSeen :
  let pkt := Mock.event bncs.ChatShowUser "Bob" "PX3W 1" in
  users_of w_bob !! "bob"%string = Some Mock.bob
  /\ users_of (snd (onChatEvent (ext := ext0) pkt w_bob)) !! "bob"%string
     <> Some (update_keeping_Joined_only pkt (World.wall w_bob (World.ticks w_bob)) Mock.bob).
Proof. split; [reflexivity|]. vm_compute. intros H. discriminate H. Qed.

Lemma channel_info_resets_witness :
  let pkt := Mock.event bncs.ChatChannelInfo EmptyString "Op W3" in
  let w1 := snd (onChatEvent (ext := ext0) pkt w_bob) in
  let w2 := snd (onChatEvent (ext := ext0) pkt w1) in
  (users_of w1 = ∅ /\ channel_of w1 = "Op W3"%string)
  /\ (users_of w2 = ∅ /\ channel_of w2 = "Op W3"%string)
  /\ (forall w', users_of (snd (onChatEvent (ext := ext0) pkt w')) = users_of w1
                 /\ channel_of (snd (onChatEvent (ext := ext0) pkt w')) = channel_of w1).
Proof.
  exact (channel_info_resets (ext := ext0)
           (Mock.event bncs.ChatChannelInfo EmptyString "Op W3") w_bob eq_refl).
Defined.

Lemma user_shown_upsert_witness :
  let pkt := Mock.event bncs.ChatShowUser "Bob" "PX3W 1" in
  let upd := User.set_LastSeen 5 (User.set_Joined 1 (user_of_event pkt 1700000000000000000)) in
  users_of (snd (onChatEvent (ext := ext0) pkt w_bob)) = <["bob"%string := upd]> (users_of w_bob)
  /\ fired_of (snd (onChatEvent (ext := ext0) pkt w_bob)) = [UserUpdate upd].
Proof.
  exact (user_shown_upsert (ext := ext0)
           (Mock.event bncs.ChatShowUser "Bob" "PX3W 1") w_bob (or_introl eq_refl)).
Defined.

(** A line feed is filtered away and nothing is sent; a greeting is sent
    (and the send fails, no connection being attached). *)
Lemma Say_nothing_to_say_witness :
  Say (ext := ext0) (String (Ascii.ascii_of_nat 10) EmptyString) w_bob = (Ok tt, w_bob)
  /\ Say (ext := ext0) "hello" w_bob = (Err io_EOF, w_bob).
Proof.
  split.
  - apply (proj1 (Say_nothing_to_say (ext := ext0) _ w_bob)). vm_compute. reflexivity.
  - rewrite (proj2 (Say_nothing_to_say (ext := ext0) "hello" w_bob)).
    + reflexivity.
    + vm_compute. discriminate.
Defined.

(** ** The handshake *)

(** ** Calls *)

Lemma bind_Ok {A B} (m : M A) (k : A -> M B) (w w1 : World.t) (a : A) :
  m w = (Ok a, w1) -> bind m k w = k a w1.
Proof. unfold bind. intros ->. reflexivity. Qed.

Lemma bind_Err {A B} (m : M A) (k : A -> M B) (w w1 : World.t) (e : error) :
  m w = (Err e, w1) -> bind m k w = (Err e, w1).
Proof. unfold bind. intros ->. reflexivity. Qed.

Lemma bind_inv_Ok {A B} (m : M A) (k : A -> M B) (w w' : World.t) (b : B) :
  bind m k w = (Ok b, w') ->
  exists a w1, m w = (Ok a, w1) /\ k a w1 = (Ok b, w').
Proof.
  unfold bind. destruct (m w) as [[a|e] w1]; [eauto|discriminate].
Qed.

Lemma or_close_Ok {A} (c : Conn) (m : M A) (w w1 : World.t) (a : A) :
  m w = (Ok a, w1) -> or_close c m w = (Ok a, w1).
Proof. unfold or_close. intros ->. reflexivity. Qed.

Lemma or_close_inv_Ok {A} (c : Conn) (m : M A) (w w1 : World.t) (a : A) :
  or_close c m w = (Ok a, w1) -> m w = (Ok a, w1).
Proof. unfold or_close. destruct (m w) as [[a'|e] w']; [done|discriminate]. Qed.

(** ** Sockets *)

Lemma Socket_send_log (pkt : bncs.Packet) (s : Socket.t) :
  Socket.log (snd (Socket.send pkt s)) = Socket.log s ++ [Send_ pkt].
Proof. unfold Socket.send. cbn. repeat case_match; reflexivity. Qed.

Lemma Socket_next_log (t : Timeout) (s : Socket.t) :
  Socket.log (snd (Socket.next t s)) = Socket.log s ++ [NextPacket_ t].
Proof. unfold Socket.next. cbn. repeat case_match; reflexivity. Qed.

Lemma Socket_send_closed (pkt : bncs.Packet) (s : Socket.t) :
  Socket.closed (snd (Socket.send pkt s)) = Socket.closed s.
Proof. unfold Socket.send. cbn. repeat case_match; reflexivity. Qed.

Lemma Socket_next_closed (t : Timeout) (s : Socket.t) :
  Socket.closed (snd (Socket.next t s)) = Socket.closed s.
Proof. unfold Socket.next. cbn. repeat case_match; reflexivity. Qed.

(** ** What a call leaves alone *)

Section Invariant.

Context {S : Type} {srp_ops : SRP S} {ext : Externals S}.

Variable c0 : Config.t.
Variable n : nat.
Variable conn : Conn.
Variable Q : bncs.Packet -> Prop.


Lemma inv_set_sockets (w : World.t) (c : Conn) (s s' : Socket.t) :
  inv c0 n conn Q w -> World.sockets w !! c = Some s ->
  (c = conn -> Forall (sent_ok Q) (Socket.log s) -> Forall (sent_ok Q) (Socket.log s')) ->
  inv c0 n conn Q (World.set_sockets (<[c := s']> (World.sockets w)) w).
Proof.
  intros (Hc & Hn & Hl) Hs Hf. split; [exact Hc|]. split.
  - cbn. rewrite length_insert. exact Hn.
  - cbn. intros s1 H1. destruct (decide (c = conn)) as [->|Hne].
    + rewrite list_lookup_insert_eq in H1 by (eapply lookup_lt_Some; eauto).
      injection H1 as <-. auto.
    + rewrite list_lookup_insert_ne in H1 by done. auto.
Qed.

Lemma inv_update_socket (w : World.t) (c : Conn) (f : Socket.t -> Socket.t) :
  inv c0 n conn Q w ->
  (forall s, c = conn -> Forall (sent_ok Q) (Socket.log s) -> Forall (sent_ok Q) (Socket.log (f s))) ->
  inv c0 n conn Q (update_socket c f w).
Proof.
  intros Hi Hf. unfold update_socket.
  destruct (World.sockets w !! c) as [s|] eqn:E; [|exact Hi].
  eapply inv_set_sockets; eauto.
Qed.

Lemma inv_Close (w : World.t) (c : Conn) :
  inv c0 n conn Q w -> inv c0 n conn Q (Close c w).
Proof.
  intros Hi. apply inv_update_socket; [exact Hi|].
  intros s _ Hs. cbn. apply Forall_app. split; [exact Hs|]. repeat constructor.
Qed.

Lemma inv_client (w : World.t) (f : Client.t -> Client.t) :
  (forall b, Client.config (f b) = Client.config b) ->
  inv c0 n conn Q w -> inv c0 n conn Q (World.set_client (f (World.client w)) w).
Proof. intros Hf (Hc & Hn & Hl). split; [cbn; rewrite Hf; exact Hc|]. split; assumption. Qed.

Lemma keeps_ret {A} (a : A) : keeps c0 n conn Q (ret a).
Proof. intros w H. exact H. Qed.

Lemma keeps_fail {A} (e : error) : keeps c0 n conn Q (@fail A e).
Proof. intros w H. exact H. Qed.

Lemma keeps_lift {A} (r : result A) : keeps c0 n conn Q (lift r).
Proof. intros w H. exact H. Qed.

Lemma keeps_get_config : keeps c0 n conn Q get_config.
Proof. intros w H. exact H. Qed.

Lemma keeps_get_client : keeps c0 n conn Q get_client.
Proof. intros w H. exact H. Qed.

Lemma keeps_time_Now : keeps c0 n conn Q time_Now.
Proof. intros w H. exact H. Qed.

Lemma keeps_bind {A B} (m : M A) (k : A -> M B) :
  keeps c0 n conn Q m -> (forall a, keeps c0 n conn Q (k a)) -> keeps c0 n conn Q (bind m k).
Proof.
  intros Hm Hk w Hi. unfold bind. specialize (Hm w Hi).
  destruct (m w) as [[a|e] w1]; cbn in Hm; [apply Hk; exact Hm|exact Hm].
Qed.

Lemma keeps_modify_client (f : Client.t -> Client.t) :
  (forall b, Client.config (f b) = Client.config b) -> keeps c0 n conn Q (modify_client f).
Proof. intros Hf w Hi. apply inv_client; assumption. Qed.

Lemma keeps_emit (e : Event) : keeps c0 n conn Q (emit e).
Proof. apply keeps_modify_client. reflexivity. Qed.

Lemma keeps_on_socket {A} (c : Conn) (f : Socket.t -> result A * Socket.t) :
  (forall s, c = conn -> Forall (sent_ok Q) (Socket.log s) ->
             Forall (sent_ok Q) (Socket.log (snd (f s)))) ->
  keeps c0 n conn Q (on_socket c f).
Proof.
  intros Hf w Hi. unfold on_socket.
  destruct (World.sockets w !! c) as [s|] eqn:E; [|exact Hi].
  destruct (Socket.closed s); [exact Hi|].
  specialize (Hf s). destruct (f s) as [r s']. cbn in *.
  eapply inv_set_sockets; eauto.
Qed.

Lemma keeps_Send (c : Conn) (pkt : bncs.Packet) :
  (c = conn -> Q pkt) -> keeps c0 n conn Q (Send c pkt).
Proof.
  intros HQ. apply keeps_on_socket. intros s Hc Hs.
  rewrite Socket_send_log. apply Forall_app. split; [exact Hs|].
  constructor; [cbn; auto|constructor].
Qed.

Lemma keeps_NextPacket (c : Conn) (t : Timeout) :
  keeps c0 n conn Q (NextPacket c t).
Proof.
  apply keeps_on_socket. intros s Hc Hs.
  rewrite Socket_next_log. apply Forall_app. split; [exact Hs|].
  repeat constructor.
Qed.

Lemma keeps_or_close {A} (c : Conn) (m : M A) :
  keeps c0 n conn Q m -> keeps c0 n conn Q (or_close c m).
Proof.
  intros Hm w Hi. unfold or_close. specialize (Hm w Hi).
  destruct (m w) as [[a|e] w1]; cbn in *; [exact Hm|apply inv_Close, Hm].
Qed.

Lemma keeps_close_fail {A} (c : Conn) (e : error) :
  keeps c0 n conn Q (@close_fail A c e).
Proof. intros w Hi. apply inv_Close, Hi. Qed.

Lemma keeps_defer_close {A} (c : Conn) (m : M A) :
  keeps c0 n conn Q m -> keeps c0 n conn Q (defer_close c m).
Proof.
  intros Hm w Hi. unfold defer_close. specialize (Hm w Hi).
  destruct (m w) as [r w1]. apply inv_Close, Hm.
Qed.

Ltac keeps_step :=
  first
    [ apply keeps_ret | apply keeps_fail | apply keeps_lift
    | apply keeps_get_config | apply keeps_get_client | apply keeps_time_Now
    | apply keeps_emit | apply keeps_NextPacket | apply keeps_close_fail
    | apply keeps_modify_client; intros []; reflexivity
    | apply keeps_bind; [|intros ?]
    | apply keeps_or_close
    | apply keeps_defer_close
    | match goal with
      | |- keeps _ _ _ _ (match ?x with _ => _ end) => destruct x
      end ].

Hypothesis Q_Ping : forall x, Q (bncs.Ping x).

Lemma keeps_b_Send (pkt : bncs.Packet) : Q pkt -> keeps c0 n conn Q (b_Send pkt).
Proof.
  intros HQ w Hi. unfold b_Send.
  destruct (Client.conn (World.client w)); [|exact Hi].
  apply keeps_Send; auto.
Qed.

Lemma keeps_onPing (pkt : bncs.Packet) : Q pkt -> keeps c0 n conn Q (onPing pkt).
Proof.
  intros HQ w Hi. unfold onPing.
  pose proof (keeps_b_Send pkt HQ w Hi) as H.
  destruct (b_Send pkt w) as [[[]|e] w1]; cbn in H; [exact H|].
  apply keeps_emit, H.
Qed.

Lemma keeps_onChatEvent (pkt : bncs.ChatEvent.t) :
  keeps c0 n conn Q (onChatEvent pkt).
Proof. unfold onChatEvent. repeat keeps_step. Qed.

Lemma keeps_Fire (pkt : bncs.Packet) : keeps c0 n conn Q (Fire pkt).
Proof.
  unfold Fire. apply keeps_bind; [apply keeps_emit|]. intros _.
  destruct pkt; try apply keeps_ret.
  - apply keeps_onPing, Q_Ping.
  - apply keeps_onChatEvent.
Qed.

Lemma keeps_wait_loop {A} (c : Conn) (switch : bncs.Packet -> Verdict A) :
  (forall pkt, switch pkt = Echo -> Q pkt) ->
  forall fuel r, keeps c0 n conn Q (wait_loop fuel c switch r).
Proof.
  intros Hecho. induction fuel as [|fuel IH]; intros [pkt|e]; cbn [wait_loop];
    try apply keeps_fail.
  - destruct (switch pkt) eqn:E; [apply keeps_ret| |].
    + apply keeps_bind; [apply keeps_Send; auto|]. intros _. apply keeps_fail.
    + apply keeps_bind; [apply keeps_Fire|]. intros _. apply keeps_fail.
  - assert (Hnext : keeps c0 n conn Q (fun w => let '(r, w') := NextPacket c NoTimeout w in
                                    wait_loop fuel c switch r w')).
    { intros w Hi. pose proof (keeps_NextPacket c NoTimeout w Hi) as H.
      destruct (NextPacket c NoTimeout w) as [r w1]. apply IH, H. }
    destruct (switch pkt) eqn:E; [apply keeps_ret| |].
    + apply keeps_bind; [apply keeps_Send; auto|]. intros _. exact Hnext.
    + apply keeps_bind; [apply keeps_Fire|]. intros _. exact Hnext.
Qed.

Lemma keeps_wait {A} (c : Conn) (t : Timeout) (switch : bncs.Packet -> Verdict A) :
  (forall pkt, switch pkt = Echo -> Q pkt) -> keeps c0 n conn Q (wait c t switch).
Proof.
  intros Hecho w Hi. unfold wait.
  pose proof (keeps_NextPacket c t w Hi) as H.
  destruct (NextPacket c t w) as [r w1]. apply keeps_wait_loop; assumption.
Qed.

Hypothesis Q_AuthInfoReq : forall p, Q (bncs.AuthInfoReq p).
Hypothesis Q_AuthCheckReq : forall p, Q (bncs.AuthCheckReq p).

Lemma keeps_sendAuthInfo (c : Conn) : keeps c0 n conn Q (sendAuthInfo c).
Proof.
  unfold sendAuthInfo. apply keeps_bind; [apply keeps_get_config|]. intros b.
  apply keeps_bind; [apply keeps_Send; auto|]. intros _.
  apply keeps_wait. intros pkt. destruct pkt; try discriminate. auto.
Qed.

Lemma keeps_stat (path : string) : keeps c0 n conn Q (stat path).
Proof. unfold stat. repeat keeps_step. Qed.

Lemma keeps_key_infos (keys : list string) (ct st : Z) :
  keeps c0 n conn Q (key_infos keys ct st).
Proof. induction keys as [|k keys IH]; cbn [key_infos]; repeat keeps_step. exact IH. Qed.

Lemma keeps_sendAuthCheck (c : Conn) (ct : Z) (ai : bncs.AuthInfoResp.t) :
  keeps c0 n conn Q (sendAuthCheck c ct ai).
Proof.
  unfold sendAuthCheck.
  repeat first
    [ apply keeps_stat | apply keeps_key_infos
    | apply keeps_Send; solve [auto]
    | apply keeps_wait; intros pkt; destruct pkt; discriminate
    | keeps_step ].
Qed.

Lemma keeps_write_greeting (c : Conn) : keeps c0 n conn Q (write_greeting c).
Proof.
  intros w Hi. apply inv_update_socket; [exact Hi|].
  intros s _ Hs. cbn. apply Forall_app. split; [exact Hs|]. repeat constructor.
Qed.

Lemma keeps_remote_ip (c : Conn) : keeps c0 n conn Q (remote_ip c).
Proof. intros w Hi. exact Hi. Qed.

Lemma keeps_DialWithConn (c : Conn) : keeps c0 n conn Q (DialWithConn c).
Proof.
  unfold DialWithConn.
  repeat first
    [ apply keeps_write_greeting | apply keeps_remote_ip
    | apply keeps_sendAuthInfo | apply keeps_sendAuthCheck
    | keeps_step ].
Qed.

End Invariant.

(** ** The steps that send no restricted packet *)

Section Frame.

Context {S : Type} {srp_ops : SRP S} {ext : Externals S}.

Variable c0 : Config.t.
Variable n : nat.
Variable conn : Conn.

Ltac kept_step :=
  first
    [ apply keeps_Send; solve [intros; exact I]
    | apply keeps_wait; solve [intros; exact I]
    | apply keeps_ret | apply keeps_fail | apply keeps_lift
    | apply keeps_get_config | apply keeps_get_client | apply keeps_time_Now
    | apply keeps_emit | apply keeps_NextPacket | apply keeps_close_fail
    | apply keeps_modify_client; intros []; reflexivity
    | apply keeps_bind; [|intros ?]
    | apply keeps_or_close
    | apply keeps_defer_close
    | match goal with
      | |- keeps _ _ _ _ (match ?x with _ => _ end) => destruct x
      end ].

Lemma kept_newSRP (password : string) :
  keeps c0 n conn any_packet (newSRP password).
Proof. unfold newSRP. repeat kept_step. Qed.

Lemma kept_sendLogon (c : Conn) (srp : S) :
  keeps c0 n conn any_packet (sendLogon c srp).
Proof. unfold sendLogon. repeat kept_step. Qed.

Lemma kept_sendLogonProof (c : Conn) (srp : S) (logon : bncs.AuthAccountLogonResp.t) :
  keeps c0 n conn any_packet (sendLogonProof c srp logon).
Proof. unfold sendLogonProof. repeat kept_step. Qed.

Lemma kept_sendCreateAccount (c : Conn) (srp : S) :
  keeps c0 n conn any_packet (sendCreateAccount c srp).
Proof. unfold sendCreateAccount. repeat kept_step. Qed.

Lemma kept_sendChangePass (c : Conn) (srp : S) :
  keeps c0 n conn any_packet (sendChangePass c srp).
Proof. unfold sendChangePass. repeat kept_step. Qed.

Lemma kept_sendChangePassProof (c : Conn) (old new : S)
    (resp : bncs.AuthAccountLogonResp.t) :
  keeps c0 n conn any_packet (sendChangePassProof c old new resp).
Proof. unfold sendChangePassProof. repeat kept_step. Qed.

Lemma kept_sendEnterChat (c : Conn) :
  keeps c0 n conn any_packet (sendEnterChat c).
Proof. unfold sendEnterChat. repeat kept_step. Qed.

Lemma kept_DialWithConn (c : Conn) :
  keeps c0 n conn any_packet (DialWithConn c).
Proof. apply keeps_DialWithConn; intros; exact I. Qed.

End Frame.

Section Handshake_facts.

Context {S : Type} {srp_ops : SRP S} {ext : Externals S}.

Lemma kept_cfg {A} (m : M A) :
  (forall c0 n, keeps c0 n 0%nat any_packet m) ->
  forall w, cfg (snd (m w)) = cfg w /\
            length (World.sockets (snd (m w))) = length (World.sockets w).
Proof.
  intros Hm w.
  destruct (Hm (cfg w) (length (World.sockets w)) w) as (H1 & H2 & _).
  - split; [reflexivity|]. split; [reflexivity|].
    intros s _. apply Forall_forall. intros [] _; exact I.
  - split; assumption.
Qed.

Lemma newSRP_world (password : string) (w : World.t) : snd (newSRP password w) = w.
Proof.
  unfold newSRP, bind, get_config, ret, lift. destruct (Config.SHA1Auth _); reflexivity.
Qed.

Lemma Close_cfg (c : Conn) (w : World.t) : cfg (Close c w) = cfg w.
Proof. unfold Close, update_socket. destruct (_ !! _); reflexivity. Qed.

Lemma Close_length (c : Conn) (w : World.t) :
  length (World.sockets (Close c w)) = length (World.sockets w).
Proof.
  unfold Close, update_socket. destruct (_ !! _); [|reflexivity].
  cbn. apply length_insert.
Qed.

Lemma Close_is_closed (c : Conn) (w : World.t) :
  (c < length (World.sockets w))%nat -> is_closed c (Close c w).
Proof.
  intros Hc. unfold is_closed, Close, update_socket.
  destruct (lookup_lt_is_Some_2 _ _ Hc) as [s Hs]. rewrite Hs. cbn.
  exists (Socket.close s). split; [|reflexivity].
  apply list_lookup_insert_eq. exact Hc.
Qed.

(** *** [connect] *)

Lemma connect_cfg (w : World.t) : dialed (cfg w) (cfg (snd (connect w))).
Proof.
  unfold connect, bind, get_config, open_socket, lift, modify_client, ret, dialed.
  fold (cfg w).
  destruct (contains_colon (Config.ServerAddr (cfg w))) eqn:E; cbn.
  - repeat case_match; cbn; auto.
  - destruct (cfg w) eqn:Ec. cbn in *.
    repeat case_match; cbn; unfold cfg; cbn; auto.
Qed.

Lemma connect_Ok (w w1 : World.t) (c : Conn) :
  connect w = (Ok c, w1) ->
  c = length (World.sockets w)
  /\ exists s, World.sockets w1 = World.sockets w ++ [s]
               /\ Socket.log s = [] /\ Socket.closed s = false.
Proof.
  unfold connect, bind, get_config, open_socket, bind, lift, modify_client, ret.
  intros H. repeat (case_match; try discriminate); simplify_eq; cbn;
    (split; [reflexivity|]); eexists; (split; [reflexivity|]); cbn; auto.
Qed.

End Handshake_facts.

Section Handshake_facts2.

Context {S : Type} {srp_ops : SRP S} {ext : Externals S}.

Lemma step_frame {A} (m : M A) (w w1 : World.t) (r : result A) :
  (forall c0 n, keeps c0 n 0%nat any_packet m) ->
  m w = (r, w1) ->
  cfg w1 = cfg w /\ length (World.sockets w1) = length (World.sockets w).
Proof. intros Hm E. pose proof (kept_cfg m Hm w) as H. rewrite E in H. exact H. Qed.

Lemma newSRP_eq (password : string) (w : World.t) (srp : S) :
  fst (newSRP password w) = Ok srp -> newSRP password w = (Ok srp, w).
Proof.
  intros H. pose proof (newSRP_world password w) as Hw.
  destruct (newSRP password w) as [r w']. cbn in *. congruence.
Qed.

Lemma newSRP_Err (password : string) (w : World.t) (e : error) :
  fst (newSRP password w) = Err e -> newSRP password w = (Err e, w).
Proof.
  intros H. pose proof (newSRP_world password w) as Hw.
  destruct (newSRP password w) as [r w']. cbn in *. congruence.
Qed.

Lemma DialWithConn_returns (c c' : Conn) (w w' : World.t) :
  DialWithConn c w = (Ok c', w') -> c' = c.
Proof.
  unfold DialWithConn. intros H.
  apply bind_inv_Ok in H as (_ & w1 & _ & H).
  apply bind_inv_Ok in H as (ai & w2 & _ & H).
  apply bind_inv_Ok in H as (b & w3 & _ & H).
  apply bind_inv_Ok in H as (ip & w4 & _ & H).
  destruct (_ && _); [discriminate H|].
  apply bind_inv_Ok in H as (now & w5 & _ & H).
  apply bind_inv_Ok in H as (ac & w6 & _ & H).
  destruct (bncs.AuthCheckResp.Result ac); [|discriminate H].
  injection H as -> _. reflexivity.
Qed.

Lemma Dial_cfg (w : World.t) : dialed (cfg w) (cfg (snd (Dial w))).
Proof.
  unfold Dial, bind. pose proof (connect_cfg w) as H.
  destruct (connect w) as [[c|e] w1]; cbn in H; [|exact H].
  destruct (kept_cfg (DialWithConn c) (fun c0 n => kept_DialWithConn c0 n 0%nat c) w1)
    as [-> _]. exact H.
Qed.

Lemma Dial_Ok (w w1 : World.t) (c : Conn) :
  Dial w = (Ok c, w1) -> (c < length (World.sockets w1))%nat.
Proof.
  unfold Dial. intros H. apply bind_inv_Ok in H as (c' & w2 & Hc & H).
  apply DialWithConn_returns in H as Hr. subst c'.
  apply connect_Ok in Hc as (-> & s & Hs & _).
  eapply step_frame in H as [_ ->]; [|intros; apply kept_DialWithConn].
  rewrite Hs, length_app. cbn. lia.
Qed.

End Handshake_facts2.

Section Handshake_theorems.

Context {S : Type} {srp_ops : SRP S} {ext : Externals S}.

(** C1: when the run of [Logon] gets a logon-proof response that carries
    the success code and [VerifyPassword] rejects its server proof,
    [Logon] closes the connection and returns [ErrPasswordVerification]:
    the success code alone does not make the call succeed. *)
Theorem Logon_proof_mismatch (w w1 w2 w3 : World.t) (srp srp' : S) (conn : Conn)
    (logon : bncs.AuthAccountLogonResp.t) (proof : bncs.AuthAccountLogonProofResp.t) :
  fst (newSRP (Config.Password (cfg w)) w) = Ok srp ->
  Dial w = (Ok conn, w1) ->
  sendLogon conn srp w1 = (Ok logon, w2) ->
  bncs.AuthAccountLogonResp.Result logon = bncs.LogonSuccess ->
  sendLogonProof conn srp logon w2 = (Ok (proof, srp'), w3) ->
  bncs.AuthAccountLogonProofResp.Result proof = bncs.LogonProofSuccess ->
  VerifyPassword srp' (bncs.AuthAccountLogonProofResp.ServerPasswordProof proof) = false ->
  Logon w = (Err ErrPasswordVerification, Close conn w3)
  /\ is_closed conn (Close conn w3).
Proof.
  intros Hsrp Hdial Hlogon Hres Hproof Hpres Hverify. split.
  - unfold Logon. apply newSRP_eq in Hsrp.
    rewrite (bind_Ok _ _ w w (cfg w)) by reflexivity.
    rewrite (bind_Ok _ _ _ _ _ Hsrp), (bind_Ok _ _ _ _ _ Hdial).
    rewrite (bind_Ok _ _ _ _ _ (or_close_Ok _ _ _ _ _ Hlogon)), Hres.
    rewrite (bind_Ok _ _ _ _ _ (or_close_Ok _ _ _ _ _ Hproof)), Hpres.
    rewrite (bind_Ok _ _ w3 w3 tt) by reflexivity.
    rewrite Hverify. reflexivity.
  - apply Close_is_closed. apply Dial_Ok in Hdial.
    eapply step_frame in Hlogon as [_ Hl2]; [|intros; apply kept_sendLogon].
    eapply step_frame in Hproof as [_ Hl3]; [|intros; apply kept_sendLogonProof].
    lia.
Qed.

(** C6: when the run of [Logon] gets, in [DialWithConn], an answer to the
    version and key check whose result is not [AuthSuccess], [Logon]
    closes the connection and returns the error that [AuthResultToError]
    makes of that result, and no logon request has been sent on the
    connection. *)
Theorem Logon_auth_check_failure (w w1 w2 w3 : World.t) (srp : S) (conn : Conn)
    (authInfo : bncs.AuthInfoResp.t) (authCheck : bncs.AuthCheckResp.t) :
  fst (newSRP (Config.Password (cfg w)) w) = Ok srp ->
  connect w = (Ok conn, w1) ->
  sendAuthInfo conn (snd (write_greeting conn w1)) = (Ok authInfo, w2) ->
  Config.VerifySignature (cfg w2)
  && negb (VerifyServerSignature (RemoteAddr_IP conn w2)
             (bncs.AuthInfoResp.ServerSignature authInfo)) = false ->
  sendAuthCheck conn (Unix (World.wall w2 (World.ticks w2)) mod 2 ^ 32) authInfo
    (World.tick w2) = (Ok authCheck, w3) ->
  bncs.AuthCheckResp.Result authCheck <> bncs.AuthSuccess ->
  Logon w = (Err (AuthResultToError (bncs.AuthCheckResp.Result authCheck)), Close conn w3)
  /\ is_closed conn (Close conn w3)
  /\ no_logon_sent conn (Close conn w3).
Proof.
  intros Hsrp Hconn Hinfo Hsig Hcheck Hres.
  assert (Hq : forall p, not_logon (bncs.Ping p)) by (intros; exact I).
  assert (Hq1 : forall p, not_logon (bncs.AuthInfoReq p)) by (intros; exact I).
  assert (Hq2 : forall p, not_logon (bncs.AuthCheckReq p)) by (intros; exact I).
  pose proof (connect_Ok _ _ _ Hconn) as (Hc & s & Hs & Hlog & _).
  assert (Hi1 : inv (cfg w1) (length (World.sockets w1)) conn not_logon w1).
  { split; [reflexivity|]. split; [reflexivity|]. intros s' Hs'.
    rewrite Hs, Hc in Hs'. rewrite lookup_app_r, Nat.sub_diag in Hs' by lia.
    injection Hs' as <-. rewrite Hlog. constructor. }
  apply (keeps_write_greeting _ _ _ not_logon conn) in Hi1.
  apply (keeps_sendAuthInfo _ _ _ not_logon Hq Hq1 conn) in Hi1. rewrite Hinfo in Hi1.
  cbn [snd] in Hi1.
  assert (Hi2 : inv (cfg w1) (length (World.sockets w1)) conn not_logon (World.tick w2))
    by exact Hi1.
  apply (keeps_sendAuthCheck _ _ _ not_logon Hq Hq2 conn
           (Unix (World.wall w2 (World.ticks w2)) mod 2 ^ 32) authInfo) in Hi2.
  rewrite Hcheck in Hi2. cbn [snd] in Hi2.
  apply (inv_Close _ _ _ not_logon _ conn) in Hi2.
  destruct Hi2 as (_ & Hlen & Hsent).
  split; [|split].
  - unfold Logon, Dial. apply newSRP_eq in Hsrp.
    rewrite (bind_Ok _ _ w w (cfg w)) by reflexivity.
    rewrite (bind_Ok _ _ _ _ _ Hsrp).
    assert (Hd : DialWithConn conn w1
                 = (Err (AuthResultToError (bncs.AuthCheckResp.Result authCheck)),
                    Close conn w3)).
    { unfold DialWithConn.
      rewrite (bind_Ok _ _ w1 (snd (write_greeting conn w1)) tt) by reflexivity.
      rewrite (bind_Ok _ _ _ _ _ (or_close_Ok _ _ _ _ _ Hinfo)).
      rewrite (bind_Ok _ _ w2 w2 (cfg w2)) by reflexivity.
      rewrite (bind_Ok _ _ w2 w2 (RemoteAddr_IP conn w2)) by reflexivity.
      rewrite Hsig.
      rewrite (bind_Ok _ _ w2 (World.tick w2) (World.wall w2 (World.ticks w2)))
        by reflexivity.
      rewrite (bind_Ok _ _ _ _ _ (or_close_Ok _ _ _ _ _ Hcheck)).
      destruct (bncs.AuthCheckResp.Result authCheck); [done|reflexivity]. }
    rewrite (bind_Err _ _ w (Close conn w3)
               (AuthResultToError (bncs.AuthCheckResp.Result authCheck))); [reflexivity|].
    rewrite (bind_Ok _ _ _ _ _ Hconn). exact Hd.
  - apply Close_is_closed.
    rewrite Close_length in Hlen. rewrite Hlen, Hs, Hc, length_app. cbn. lia.
  - exact Hsent.
Qed.

End Handshake_theorems.

Ltac kept_tac :=
  repeat first
    [ apply kept_sendLogon | apply kept_sendLogonProof | apply kept_sendCreateAccount
    | apply kept_sendChangePass | apply kept_sendChangePassProof
    | apply kept_sendEnterChat | apply kept_DialWithConn | apply kept_newSRP
    | apply keeps_Send; solve [intros; exact I]
    | apply keeps_ret | apply keeps_fail | apply keeps_lift
    | apply keeps_get_config | apply keeps_get_client | apply keeps_time_Now
    | apply keeps_close_fail
    | apply keeps_modify_client; intros []; reflexivity
    | apply keeps_bind; [|intros ?]
    | apply keeps_or_close
    | apply keeps_defer_close
    | match goal with
      | |- keeps _ _ _ _ (match ?x with _ => _ end) => destruct x
      end ].

Section Config_facts.

Context {S : Type} {srp_ops : SRP S} {ext : Externals S}.

(** [ChangePassword] after [Dial]: the password is stored exactly when the
    body returns no error. *)
Lemma ChangePassword_body_cfg (conn : Conn) (oldSRP newSRP_ : S) (newPassword : string)
    (w : World.t) :
  let body :=
    (let* resp := sendChangePass conn oldSRP in
     match bncs.AuthAccountLogonResp.Result resp with
     | bncs.LogonSuccess =>
       let* (proof, oldSRP) := sendChangePassProof conn oldSRP newSRP_ resp in
       match bncs.AuthAccountLogonProofResp.Result proof with
       | bncs.LogonProofSuccess =>
         if negb (VerifyPassword oldSRP
                    (bncs.AuthAccountLogonProofResp.ServerPasswordProof proof))
         then fail ErrPasswordVerification
         else modify_client
                (fun b => Client.set_config
                            (Config.set_Password newPassword (Client.config b)) b)
       | r => fail (LogonProofResultToError r)
       end
     | r => fail (LogonResultToError r)
     end) in
  forall r w', body w = (r, w') ->
  match r with
  | Ok _ => cfg w' = Config.set_Password newPassword (cfg w)
  | Err _ => cfg w' = cfg w
  end.
Proof.
  cbv zeta. intros r w' Eb. unfold bind in Eb.
  destruct (sendChangePass conn oldSRP w) as [[resp|e] w1] eqn:E1;
    (eapply step_frame in E1 as [E1 _]; [|intros; apply kept_sendChangePass]);
    [|injection Eb as <- <-; exact E1].
  destruct (bncs.AuthAccountLogonResp.Result resp);
    [|injection Eb as <- <-; exact E1].
  destruct (sendChangePassProof conn oldSRP newSRP_ resp w1) as [[[proof srp']|e] w2] eqn:E2;
    (eapply step_frame in E2 as [E2 _]; [|intros; apply kept_sendChangePassProof]);
    [|injection Eb as <- <-; congruence].
  destruct (bncs.AuthAccountLogonProofResp.Result proof);
    try (injection Eb as <- <-; congruence).
  destruct (negb _); injection Eb as <- <-; [congruence|].
  unfold cfg in *. cbn. congruence.
Qed.

Lemma ChangePassword_cfg (newPassword : string) (w w' : World.t) (r : result unit) :
  ChangePassword newPassword w = (r, w') ->
  exists c1, dialed (cfg w) c1 /\
  match r with
  | Ok _ => cfg w' = Config.set_Password newPassword c1
  | Err _ => cfg w' = c1
  end.
Proof.
  unfold ChangePassword. rewrite (bind_Ok _ _ w w (cfg w)) by reflexivity.
  unfold bind at 1. pose proof (newSRP_world (Config.Password (cfg w)) w) as Hw.
  destruct (newSRP _ w) as [[srp|e] w0]; cbn in Hw; subst w0;
    [|intros [= <- <-]; exists (cfg w); split; [left|]; reflexivity].
  unfold bind at 1. pose proof (newSRP_world newPassword w) as Hw.
  destruct (newSRP newPassword w) as [[srp2|e] w0]; cbn in Hw; subst w0;
    [|intros [= <- <-]; exists (cfg w); split; [left|]; reflexivity].
  unfold bind at 1. pose proof (Dial_cfg w) as Hd.
  destruct (Dial w) as [[conn|e] w1]; cbn in Hd;
    [|intros [= <- <-]; exists (cfg w1); split; [exact Hd|reflexivity]].
  intros H. exists (cfg w1). split; [exact Hd|].
  pose proof (ChangePassword_body_cfg conn srp srp2 newPassword w1) as Hb.
  cbv zeta in Hb. unfold defer_close in H.
  match type of Hb with
  | forall r w', ?m w1 = _ -> _ =>
    destruct (m w1) as [r2 w2]; specialize (Hb r2 w2 eq_refl)
  end.
  injection H as <- <-. rewrite Close_cfg. exact Hb.
Qed.

End Config_facts.

Section Config_theorems.

Context {S : Type} {srp_ops : SRP S} {ext : Externals S}.

Lemma dialed_Password (c c' : Config.t) :
  dialed c c' -> Config.Password c' = Config.Password c.
Proof. intros [->|[_ ->]]; reflexivity. Qed.

(** C9: [ChangePassword] stores the new password exactly when it returns
    no error, which takes every step to succeed: both contexts made, the
    dial, a [LogonSuccess] and a [LogonProofSuccess] from the server, and
    a server proof that [VerifyPassword] accepts.  On every error return
    the stored password is the one from before. *)
Theorem ChangePassword_stores_on_success_only (newPassword : string) (w : World.t) :
  match fst (ChangePassword newPassword w) with
  | Ok _ =>
    Config.Password (cfg (snd (ChangePassword newPassword w))) = newPassword
    /\ exists oldSRP newSRP_ conn w1 resp w2 proof oldSRP' w3,
         fst (newSRP (Config.Password (cfg w)) w) = Ok oldSRP
         /\ fst (newSRP newPassword w) = Ok newSRP_
         /\ Dial w = (Ok conn, w1)
         /\ sendChangePass conn oldSRP w1 = (Ok resp, w2)
         /\ bncs.AuthAccountLogonResp.Result resp = bncs.LogonSuccess
         /\ sendChangePassProof conn oldSRP newSRP_ resp w2 = (Ok (proof, oldSRP'), w3)
         /\ bncs.AuthAccountLogonProofResp.Result proof = bncs.LogonProofSuccess
         /\ VerifyPassword oldSRP'
              (bncs.AuthAccountLogonProofResp.ServerPasswordProof proof) = true
  | Err _ =>
    Config.Password (cfg (snd (ChangePassword newPassword w))) = Config.Password (cfg w)
  end.
Proof.
  destruct (ChangePassword newPassword w) as [r w'] eqn:E.
  destruct (ChangePassword_cfg _ _ _ _ E) as (c1 & Hd & Hc).
  apply dialed_Password in Hd. destruct r as [[]|e]; cbn [fst snd].
  - split; [rewrite Hc; reflexivity|].
    unfold ChangePassword in E.
    apply bind_inv_Ok in E as (b & w0 & Hb & E). injection Hb as <- <-.
    apply bind_inv_Ok in E as (oldSRP & w0 & H1 & E).
    apply (f_equal snd) in H1 as Hw. rewrite newSRP_world in Hw. cbn in Hw. subst w0.
    apply bind_inv_Ok in E as (newSRP_ & w0 & H2 & E).
    apply (f_equal snd) in H2 as Hw. rewrite newSRP_world in Hw. cbn in Hw. subst w0.
    apply bind_inv_Ok in E as (conn & w1 & H3 & E).
    unfold defer_close in E.
    match type of E with
    | (let '(_, _) := ?m w1 in _) = _ => destruct (m w1) as [r3 w3] eqn:E3
    end.
    injection E as -> _.
    apply bind_inv_Ok in E3 as (resp & w2 & H4 & E3).
    destruct (bncs.AuthAccountLogonResp.Result resp) eqn:Hr; [|discriminate E3].
    apply bind_inv_Ok in E3 as ([proof oldSRP'] & w4 & H5 & E3).
    destruct (bncs.AuthAccountLogonProofResp.Result proof) eqn:Hp; try discriminate E3.
    destruct (VerifyPassword oldSRP' _) eqn:Hv; [|discriminate E3].
    exists oldSRP, newSRP_, conn, w1, resp, w2, proof, oldSRP', w4.
    unfold cfg. rewrite H1, H2. cbn. auto 10.
  - congruence.
Qed.

End Config_theorems.

(** [Dial] changes [ServerAddr] when it holds no port, and a successful
    [ChangePassword] changes [Password]. *)
Lemma Dial_and_ChangePassword_write_Config :
  cfg (snd (Dial (ext := Mock.externals Mock.Peer.bad_version) w_no_port)) <> cfg w_no_port
  /\ cfg (snd (ChangePassword (ext := Mock.externals Mock.Peer.change_ok) "swordfish"
                 w_start))
     <> cfg w_start.
Proof.
  split; intros H.
  - apply (f_equal Config.ServerAddr) in H. vm_compute in H. discriminate H.
  - apply (f_equal Config.Password) in H. vm_compute in H. discriminate H.
Qed.

(** A peer that accepts the change: the new password is stored. *)
Lemma ChangePassword_stores_on_success_only_witness :
  Config.Password
    (cfg (snd (ChangePassword (ext := Mock.externals Mock.Peer.change_ok) "swordfish"
                 w_start))) = "swordfish"%string.
Proof.
  exact (proj1 (ChangePassword_stores_on_success_only
                  (ext := Mock.externals Mock.Peer.change_ok) "swordfish"
                  w_start)).
Defined.

Section AuthInfo_facts.

Context {S : Type} {srp_ops : SRP S} {ext : Externals S}.

Lemma on_socket_eq {A} (c : Conn) (f : Socket.t -> result A * Socket.t)
    (w : World.t) (s : Socket.t) :
  World.sockets w !! c = Some s -> Socket.closed s = false ->
  on_socket c f w
  = (fst (f s), World.set_sockets (<[c := snd (f s)]> (World.sockets w)) w).
Proof.
  intros Hs Hc. unfold on_socket. rewrite Hs, Hc. destruct (f s); reflexivity.
Qed.

Lemma on_socket_at {A} (c : Conn) (f : Socket.t -> result A * Socket.t)
    (L : list Socket.t) (wc : World.t) (s : Socket.t) :
  (c < length L)%nat -> Socket.closed s = false ->
  on_socket c f (World.set_sockets (<[c := s]> L) wc)
  = (fst (f s), World.set_sockets (<[c := snd (f s)]> L) wc).
Proof.
  intros Hc Hs. rewrite (on_socket_eq c f _ s); cbn;
    [|apply list_lookup_insert_eq; exact Hc|exact Hs].
  rewrite list_insert_insert_eq. reflexivity.
Qed.

Lemma onChatEvent_sockets (p : bncs.ChatEvent.t) (X : list Socket.t) (w : World.t) :
  onChatEvent p (World.set_sockets X w)
  = (Ok tt, World.set_sockets X (snd (onChatEvent p w))).
Proof.
  unfold onChatEvent.
  destruct (bncs.ChatEvent.Type_ p); cbn;
    repeat (unfold bind, get_client, modify_client, time_Now, emit, ret; cbn);
    repeat case_match; reflexivity.
Qed.

Lemma Fire_sockets (pkt : bncs.Packet) (X : list Socket.t) (w : World.t) :
  AuthInfo_switch pkt = Default ->
  Fire pkt (World.set_sockets X w) = (Ok tt, World.set_sockets X (snd (Fire pkt w))).
Proof.
  intros Hd. unfold Fire, bind, emit, modify_client.
  destruct pkt; try discriminate Hd; try reflexivity.
  apply (onChatEvent_sockets p X (World.set_client _ w)).
Qed.

Lemma wait_loop_Err {A} (fuel : nat) (c : Conn) (switch : bncs.Packet -> Verdict A)
    (e : error) (w : World.t) :
  wait_loop fuel c switch (Err e) w = (Err e, w).
Proof. destruct fuel; reflexivity. Qed.

Lemma Socket_send_inbox (pkt : bncs.Packet) (s : Socket.t) :
  Socket.inbox (snd (Socket.send pkt s)) = Socket.inbox s.
Proof. unfold Socket.send. cbn. repeat case_match; reflexivity. Qed.

Lemma AuthInfo_loop (conn : Conn) (L : list Socket.t) :
  (conn < length L)%nat ->
  forall inbox fuel timeout wc s,
    Socket.closed s = false -> Socket.inbox s = inbox -> (length inbox <= fuel)%nat ->
    (let '(r, w1) := NextPacket conn timeout (World.set_sockets (<[conn := s]> L) wc) in
     wait_loop fuel conn AuthInfo_switch r w1)
    = (let '(r, s', ds) := AuthInfo_exchange inbox timeout s in
       (r, World.set_sockets (<[conn := s']> L) (fires ds wc))).
Proof.
  intros Hconn. induction inbox as [|[pkt|e] rest IH];
    intros fuel timeout wc s Hc Hi Hf;
    unfold NextPacket; rewrite on_socket_at by assumption;
    unfold Socket.next; cbn [Socket.inbox Socket.logged]; rewrite Hi;
    cbn [fst snd AuthInfo_exchange].
  - apply wait_loop_Err.
  - destruct fuel as [|fuel]; [cbn in Hf; lia|]. cbn in Hf.
    set (s1 := Socket.set_inbox rest (Socket.logged (NextPacket_ timeout) s)).
    assert (Hc1 : Socket.closed s1 = false) by exact Hc.
    assert (Hi1 : Socket.inbox s1 = rest) by reflexivity.
    cbn [wait_loop].
    destruct (AuthInfo_switch pkt) eqn:Esw.
    + destruct pkt; try discriminate Esw. injection Esw as <-. reflexivity.
    + destruct pkt; try discriminate Esw.
      unfold Send, bind. rewrite on_socket_at by assumption.
      pose proof (Socket_send_closed (bncs.Ping Payload) s1) as Hc2.
      pose proof (Socket_send_inbox (bncs.Ping Payload) s1) as Hi2.
      destruct (Socket.send (bncs.Ping Payload) s1) as [[[]|e] s2]; cbn [fst snd] in *;
        [|reflexivity].
      apply IH; [congruence|congruence|lia].
    + rewrite (bind_Ok _ _ _ _ _ (Fire_sockets pkt _ wc Esw)).
      rewrite IH by (try assumption; lia).
      destruct pkt; try discriminate Esw;
        cbn [AuthInfo_exchange]; fold s1;
        destruct (AuthInfo_exchange rest NoTimeout s1) as [[r s'] ds]; reflexivity.
  - apply wait_loop_Err.
Qed.

(** C3, as the code has it: on an open connection [sendAuthInfo] sends
    the request and returns the error of that send if it fails; otherwise
    it waits, first with a timeout of ten seconds and then without one,
    echoes every ping, fires every other packet that is no
    [AuthInfoResp], and returns the first [AuthInfoResp], the first read
    error, or the error of the first echo that fails. *)
Theorem sendAuthInfo_exchange (conn : Conn) (w : World.t) (s : Socket.t) :
  World.sockets w !! conn = Some s -> Socket.closed s = false ->
  sendAuthInfo conn w =
  match Socket.send (bncs.AuthInfoReq (Config.Platform (cfg w))) s with
  | (Err e, s1) => (Err e, World.set_sockets (<[conn := s1]> (World.sockets w)) w)
  | (Ok _, s1) =>
    let '(r, s2, ds) := AuthInfo_exchange (Socket.inbox s1) (Duration 10) s1 in
    (r, World.set_sockets (<[conn := s2]> (World.sockets w)) (fires ds w))
  end.
Proof.
  intros Hs Hc. unfold sendAuthInfo.
  rewrite (bind_Ok _ _ w w (cfg w)) by reflexivity.
  unfold bind, Send. rewrite (on_socket_eq _ _ w s Hs Hc).
  pose proof (Socket_send_closed (bncs.AuthInfoReq (Config.Platform (cfg w))) s) as Hc1.
  destruct (Socket.send _ s) as [[[]|e] s1]; cbn [fst snd] in *; [|reflexivity].
  assert (Hlt : (conn < length (World.sockets w))%nat) by (eapply lookup_lt_Some; eauto).
  unfold wait.
  assert (Hlen : inbox_length conn
                   (World.set_sockets (<[conn := s1]> (World.sockets w)) w)
                 = length (Socket.inbox s1)).
  { unfold inbox_length. cbn. rewrite list_lookup_insert_eq by exact Hlt. reflexivity. }
  rewrite Hlen.
  apply (AuthInfo_loop conn (World.sockets w) Hlt (Socket.inbox s1)); auto; congruence.
Qed.

End AuthInfo_facts.

(** The echo of a ping cannot be written: the step returns the error of
    the send, though an [AuthInfoResp] was next in the inbox. *)
Lemma sendAuthInfo_returns_send_error :
  World.sockets w_broken_pipe !! 0%nat
  = Some {| Socket.RemoteIP := [x0a; x00; x00; x01];
            Socket.inbox := fst Mock.Peer.broken_pipe;
            Socket.outcomes := snd Mock.Peer.broken_pipe;
            Socket.log := []; Socket.closed := false |}
  /\ fst (sendAuthInfo (ext := Mock.externals Mock.Peer.broken_pipe) 0%nat w_broken_pipe)
     <> first_AuthInfoResp_or_read_error (fst Mock.Peer.broken_pipe).
Proof. split; [reflexivity|]. vm_compute. discriminate. Qed.

(** The same run, step by step. *)
Lemma sendAuthInfo_exchange_witness :
  sendAuthInfo (ext := Mock.externals Mock.Peer.broken_pipe) 0%nat w_broken_pipe
  = (Err ErrTimeout,
     World.set_sockets
       [{| Socket.RemoteIP := [x0a; x00; x00; x01];
           Socket.inbox := [Ok (bncs.AuthInfoResp Mock.Peer.authInfo)];
           Socket.outcomes := [];
           Socket.log := [Send_ (bncs.AuthInfoReq Mock.platform);
                          NextPacket_ (Duration 10);
                          Send_ (bncs.Ping 7)];
           Socket.closed := false |}] w_broken_pipe).
Proof.
  exact (sendAuthInfo_exchange (ext := Mock.externals Mock.Peer.broken_pipe)
           0%nat w_broken_pipe _ eq_refl eq_refl).
Defined.

(** ** The fuel of the wait is never used up *)

Section Fuel.

Context {S : Type} {srp_ops : SRP S} {ext : Externals S}.

Variable conn : Conn.

Lemma inbox_length_on_socket {A} (c : Conn) (f : Socket.t -> result A * Socket.t)
    (w : World.t) :
  (forall s, Socket.inbox (snd (f s)) = Socket.inbox s) ->
  inbox_length conn (snd (on_socket c f w)) = inbox_length conn w.
Proof.
  intros Hf. unfold on_socket.
  destruct (World.sockets w !! c) as [s|] eqn:Hs; [|reflexivity].
  destruct (Socket.closed s); [reflexivity|].
  specialize (Hf s). destruct (f s) as [r s']. cbn in *.
  unfold inbox_length. cbn. destruct (decide (c = conn)) as [->|Hne].
  - rewrite list_lookup_insert_eq by (eapply lookup_lt_Some; eauto).
    rewrite Hs, Hf. reflexivity.
  - rewrite list_lookup_insert_ne by done. reflexivity.
Qed.

Lemma inbox_length_Send (c : Conn) (pkt : bncs.Packet) (w : World.t) :
  inbox_length conn (snd (Send c pkt w)) = inbox_length conn w.
Proof. apply inbox_length_on_socket. intros s. apply Socket_send_inbox. Qed.

Lemma inbox_length_client (f : Client.t -> Client.t) (w : World.t) :
  inbox_length conn (World.set_client (f (World.client w)) w) = inbox_length conn w.
Proof. reflexivity. Qed.

Lemma onChatEvent_keeps_sockets (p : bncs.ChatEvent.t) (w : World.t) :
  World.sockets (snd (onChatEvent p w)) = World.sockets w.
Proof.
  pose proof (onChatEvent_sockets p (World.sockets w) w) as H.
  replace (World.set_sockets (World.sockets w) w) with w in H by (destruct w; reflexivity).
  rewrite H. reflexivity.
Qed.

Lemma inbox_length_Fire (pkt : bncs.Packet) (w : World.t) :
  inbox_length conn (snd (Fire pkt w)) = inbox_length conn w.
Proof.
  unfold Fire, bind, emit, modify_client.
  destruct pkt; try reflexivity.
  - unfold onPing, b_Send. cbn [World.client World.set_client Client.conn Client.emit].
    destruct (Client.conn (World.client w)) as [c|]; [|reflexivity].
    match goal with
    | |- context [Send c ?p ?w0] =>
      pose proof (inbox_length_Send c p w0) as H; destruct (Send c p w0) as [[[]|e] w1]
    end; cbn in *; exact H.
  - unfold inbox_length. rewrite onChatEvent_keeps_sockets. reflexivity.
Qed.

Lemma NextPacket_Ok_length (t : Timeout) (w w' : World.t) (pkt : bncs.Packet) :
  NextPacket conn t w = (Ok pkt, w') ->
  Datatypes.S (inbox_length conn w') = inbox_length conn w.
Proof.
  unfold NextPacket, on_socket, inbox_length.
  destruct (World.sockets w !! conn) as [s|] eqn:Hs; [|discriminate].
  destruct (Socket.closed s); [discriminate|].
  unfold Socket.next. cbn.
  destruct (Socket.inbox s) as [|r rest]; [discriminate|].
  intros [= -> <-]. cbn.
  rewrite list_lookup_insert_eq by (eapply lookup_lt_Some; eauto). reflexivity.
Qed.

Lemma wait_loop_fuel {A} (switch : bncs.Packet -> Verdict A) :
  forall fuel1 fuel2 r w,
    (inbox_length conn w < fuel1)%nat -> (inbox_length conn w < fuel2)%nat ->
    wait_loop fuel1 conn switch r w = wait_loop fuel2 conn switch r w.
Proof.
  induction fuel1 as [|fuel1 IH]; intros fuel2 r w H1 H2; [lia|].
  destruct fuel2 as [|fuel2]; [lia|].
  destruct r as [pkt|e]; [|reflexivity]. cbn [wait_loop].
  assert (Hnext : forall w1, inbox_length conn w1 = inbox_length conn w ->
            (let '(r, w') := NextPacket conn NoTimeout w1 in
             wait_loop fuel1 conn switch r w')
            = (let '(r, w') := NextPacket conn NoTimeout w1 in
               wait_loop fuel2 conn switch r w')).
  { intros w1 Hw1.
    destruct (NextPacket conn NoTimeout w1) as [[p|e] w2] eqn:E.
    - apply NextPacket_Ok_length in E. apply IH; lia.
    - rewrite !wait_loop_Err. reflexivity. }
  destruct (switch pkt); [reflexivity| |].
  - unfold bind. pose proof (inbox_length_Send conn pkt w) as Hs.
    destruct (Send conn pkt w) as [[[]|e] w1]; [apply Hnext, Hs|reflexivity].
  - unfold bind. pose proof (inbox_length_Fire pkt w) as Hs.
    destruct (Fire pkt w) as [[[]|e] w1]; [apply Hnext, Hs|reflexivity].
Qed.

(** Any fuel that covers the inbox gives the result of [wait]. *)
Lemma wait_fuel {A} (t : Timeout) (switch : bncs.Packet -> Verdict A)
    (fuel : nat) (w : World.t) :
  (inbox_length conn w <= fuel)%nat ->
  (let '(r, w') := NextPacket conn t w in wait_loop fuel conn switch r w')
  = wait conn t switch w.
Proof.
  intros Hf. unfold wait.
  destruct (NextPacket conn t w) as [[p|e] w1] eqn:E.
  - apply NextPacket_Ok_length in E. apply wait_loop_fuel; lia.
  - rewrite !wait_loop_Err. reflexivity.
Qed.

End Fuel.

(** A peer that reports success with a proof that does not verify. *)
Lemma Logon_proof_mismatch_witness :
  let ext := Mock.externals Mock.Peer.liar in
  let srp := {| Mock.secret := bytes "hunter2"; Mock.session := [] |} in
  let w1 := snd (Dial w_start) in
  let w2 := snd (sendLogon 0%nat srp w1) in
  let w3 := snd (sendLogonProof 0%nat srp Mock.Peer.logon w2) in
  Logon w_start = (Err ErrPasswordVerification, Close 0%nat w3)
  /\ is_closed 0%nat (Close 0%nat w3).
Proof.
  intros ext srp w1 w2 w3.
  apply (Logon_proof_mismatch (ext := ext) w_start w1 w2 w3 srp
           {| Mock.secret := bytes "hunter2"; Mock.session := x01 :: bytes "hunter2" |}
           0%nat Mock.Peer.logon (Mock.Peer.logonProof [x00]));
    vm_compute; reflexivity.
Defined.

(** A peer that refuses the version. *)
Lemma Logon_auth_check_failure_witness :
  let ext := Mock.externals Mock.Peer.bad_version in
  let w1 := snd (connect w_start) in
  let w2 := snd (sendAuthInfo 0%nat (snd (write_greeting 0%nat w1))) in
  let w3 := snd (sendAuthCheck 0%nat (Unix (World.wall w2 (World.ticks w2)) mod 2 ^ 32)
                   Mock.Peer.authInfo (World.tick w2)) in
  Logon w_start = (Err (Errno 0x165), Close 0%nat w3)
  /\ is_closed 0%nat (Close 0%nat w3)
  /\ no_logon_sent 0%nat (Close 0%nat w3).
Proof.
  intros ext w1 w2 w3.
  apply (Logon_auth_check_failure (ext := ext) w_start w1 w2 w3
           {| Mock.secret := bytes "hunter2"; Mock.session := [] |}
           0%nat Mock.Peer.authInfo
           (Mock.Peer.authCheck (bncs.AuthResultCode 0x101)));
    try (vm_compute; reflexivity).
  vm_compute. discriminate.
Defined.

(** ** The membership under a run of chat events *)

Section Membership_facts.

Context {S : Type} {srp_ops : SRP S} {ext : Externals S}.

Lemma set_chat_same (w : World.t) :
  World.set_client
    (Client.set_chat (Client.channel (World.client w))
       (Client.users (World.client w)) (World.client w)) w = w.
Proof. destruct w as [[] ? ? ?]. reflexivity. Qed.

(** X1: a flags update, a leave, a talk or an emote about a name that is
    not in the membership changes nothing at all: no entry is made, no
    notification is fired, and the clock is not read. *)
Theorem unknown_member_ignored (pkt : bncs.ChatEvent.t) (w : World.t) :
  about_member (bncs.ChatEvent.Type_ pkt) ->
  users_of w !! strings_ToLower (bncs.ChatEvent.Username pkt) = None ->
  onChatEvent pkt w = (Ok tt, w).
Proof.
  unfold users_of. intros Ht Hk. unfold onChatEvent.
  destruct Ht as [Ht|[Ht|[Ht|Ht]]]; rewrite Ht;
    unfold bind, get_client, modify_client, ret; cbn; rewrite Hk; try reflexivity.
  rewrite delete_id by exact Hk. rewrite set_chat_same. reflexivity.
Qed.

(** The handler, run on a world whose entry for the name of the event is
    known. *)
Ltac chat_run E :=
  unfold onChatEvent;
  repeat (unfold bind, get_client, modify_client, time_Now, emit, ret;
          cbn; rewrite ?E).

Ltac at_key k pkt :=
  destruct (decide (k = strings_ToLower (bncs.ChatEvent.Username pkt)))
    as [->|?];
  [ rewrite ?lookup_insert_eq, ?lookup_delete_eq
  | rewrite ?lookup_insert_ne, ?lookup_delete_ne by done ].

Lemma onChatEvent_keyed (pkt : bncs.ChatEvent.t) (w : World.t) :
  users_keyed w -> users_keyed (snd (onChatEvent pkt w)).
Proof.
  unfold users_keyed, users_of. intros Hw k u. unfold onChatEvent.
  destruct (bncs.ChatEvent.Type_ pkt) eqn:Ht;
    destruct (Client.users (World.client w)
                !! strings_ToLower (bncs.ChatEvent.Username pkt)) as [old|] eqn:Eo;
    chat_run Eo;
    try apply Hw; try (rewrite lookup_empty; discriminate);
    at_key k pkt; try apply Hw; try discriminate;
    intros [= E1]; subst u; cbn; first [reflexivity | exact (Hw _ _ Eo)].
Qed.

Lemma onPing_users (pkt : bncs.Packet) (w : World.t) :
  users_of (snd (onPing pkt w)) = users_of w.
Proof.
  unfold onPing, b_Send, Send, on_socket, emit, modify_client, users_of.
  repeat case_match; simplify_eq; reflexivity.
Qed.

Lemma Fire_keyed (pkt : bncs.Packet) (w : World.t) :
  users_keyed w -> users_keyed (snd (Fire pkt w)).
Proof.
  intros Hw. unfold Fire, bind, emit, modify_client.
  set (w1 := World.set_client _ w).
  assert (H1 : users_keyed w1) by exact Hw.
  destruct pkt; try exact H1.
  - unfold users_keyed. rewrite onPing_users. exact H1.
  - apply onChatEvent_keyed, H1.
Qed.

(** X2: whatever packets are fired, every entry of the membership stays
    under the lower-cased name it carries. *)
Theorem membership_keyed (ds : list bncs.Packet) (w : World.t) :
  users_keyed w -> users_keyed (fires ds w).
Proof.
  revert w. induction ds as [|pkt ds IH]; intros w Hw; [exact Hw|].
  apply IH, Fire_keyed, Hw.
Qed.

(** X3: after a "user shown" or "user joined" event, [User] finds the
    user under any spelling of the name that lower-cases to the same
    text, [Users] holds the entry under the lower-cased name, and the
    entry carries the name, flags, ping and stat string of the event. *)
Theorem shown_user_is_found (pkt : bncs.ChatEvent.t) (w : World.t) (name : string) :
  shows_user pkt ->
  strings_ToLower name = strings_ToLower (bncs.ChatEvent.Username pkt) ->
  exists u, b_User name (World.client (snd (onChatEvent pkt w))) = Some u
            /\ b_Users (World.client (snd (onChatEvent pkt w)))
                 !! strings_ToLower (bncs.ChatEvent.Username pkt) = Some u
            /\ User.Name u = bncs.ChatEvent.Username pkt
            /\ User.Flags u = bncs.ChatEvent.UserFlags pkt
            /\ User.Ping u = bncs.ChatEvent.Ping pkt
            /\ User.StatString u = bncs.ChatEvent.Text pkt.
Proof.
  intros Ht Hn. unfold b_User, b_Users. rewrite Hn. unfold onChatEvent.
  destruct Ht as [Ht|Ht]; rewrite Ht;
    unfold bind, get_client, modify_client, time_Now, emit, ret; cbn;
    destruct (Client.users (World.client w) !! _); cbn;
    rewrite lookup_insert_eq; eexists; (split; [reflexivity|]);
    (split; [reflexivity|]); cbn; auto.
Qed.

(** X4: while a name stays in the membership its [Joined] time never
    changes, whatever the event, and its [LastSeen] time changes only
    when that user talks or emotes, to the time of the event. *)
Theorem Joined_is_kept (pkt : bncs.ChatEvent.t) (w : World.t) (k : string)
    (u u' : User.t) :
  users_of w !! k = Some u ->
  users_of (snd (onChatEvent pkt w)) !! k = Some u' ->
  User.Joined u' = User.Joined u
  /\ (User.LastSeen u' = User.LastSeen u
      \/ ((bncs.ChatEvent.Type_ pkt = bncs.ChatTalk
           \/ bncs.ChatEvent.Type_ pkt = bncs.ChatEmote)
          /\ k = strings_ToLower (bncs.ChatEvent.Username pkt)
          /\ User.LastSeen u' = World.wall w (World.ticks w))).
Proof.
  unfold users_of. intros Hu. unfold onChatEvent.
  destruct (bncs.ChatEvent.Type_ pkt) eqn:Ht;
    destruct (Client.users (World.client w)
                !! strings_ToLower (bncs.ChatEvent.Username pkt)) as [old|] eqn:Eo;
    chat_run Eo;
    try (rewrite Hu; intros [= <-]; solve [auto]);
    try (rewrite lookup_empty; discriminate);
    at_key k pkt; try discriminate;
    try (rewrite Hu; intros [= <-]; solve [auto]);
    intros [= E1]; subst u'; cbn; rewrite Hu in Eo; simplify_eq; auto 10.
Qed.

(** X5: a "user shown" or "user joined" event followed by a leave of the
    same name: the name is gone from the membership, every other entry
    is as it was before the two events, [Channel] reads as before, and
    [UserLeft] carries the very entry the first event stored. *)
Theorem join_then_leave (pkt : bncs.ChatEvent.t) (w : World.t) :
  shows_user pkt ->
  let key := strings_ToLower (bncs.ChatEvent.Username pkt) in
  let w1 := snd (onChatEvent pkt w) in
  let w2 := snd (onChatEvent (leave_of pkt) w1) in
  users_of w2 = delete key (users_of w)
  /\ b_Channel (World.client w2) = b_Channel (World.client w)
  /\ exists u, users_of w1 !! key = Some u
               /\ fired_of w2 = fired_of w1 ++ [UserLeft u].
Proof.
  intros Ht. unfold users_of, b_Channel, fired_of, onChatEvent, leave_of.
  destruct Ht as [Ht|Ht]; rewrite Ht;
    unfold bind, get_client, modify_client, time_Now, emit, ret; cbn;
    destruct (Client.users (World.client w) !! _); cbn;
    rewrite lookup_insert_eq; cbn; rewrite delete_insert_eq;
    (split; [reflexivity|]); (split; [reflexivity|]);
    eexists; split; reflexivity.
Qed.

End Membership_facts.

(** ** The chat filter on well-formed text *)

Lemma scalar_bound (rs : list Z) :
  Forall scalar rs -> Forall (fun r => 0 <= r < 2 ^ 21) rs.
Proof.
  intros H. eapply Forall_impl; [exact H|].
  unfold scalar, utf8.MaxRune. intros r [Hr _]. lia.
Qed.

Lemma scalar_filter (P : Z -> bool) (rs : list Z) :
  Forall scalar rs -> Forall scalar (filter (fun r => P r = true) rs).
Proof.
  intros H. apply Forall_forall. intros r Hr%list_elem_of_filter.
  rewrite Forall_forall in H. apply H, Hr.
Qed.

(** Decoding the text of scalar values gives the values back. *)
Lemma runes_utf8_text (rs : list Z) :
  Forall scalar rs -> utf8.runes (concat (map utf8.EncodeRune rs)) = rs.
Proof.
  induction 1 as [|r rs Hr Hrs IH]; [reflexivity|].
  cbn [map concat].
  assert (Hb : 0 <= r < 2 ^ 21)
    by (destruct Hr as [Hr _]; unfold utf8.MaxRune in Hr; lia).
  pose proof (utf8_facts.EncodeRune_nonempty r Hb) as Hne.
  pose proof (utf8_facts.DecodeRune_EncodeRune r Hb
                (concat (map utf8.EncodeRune rs))) as Hd.
  rewrite utf8_facts.norm_good in Hd by apply Hr.
  destruct (utf8.EncodeRune r) as [|c e] eqn:Ee; [simpl in Hne; lia|].
  cbn [app] in *. rewrite utf8_facts.runes_cons, Hd. cbn [fst snd].
  f_equal. rewrite <- IH at 2. f_equal.
  change (c :: e ++ ?x) with ((c :: e) ++ x).
  rewrite skipn_app, skipn_all, Nat.sub_diag. reflexivity.
Qed.

Section FilterChat_text.

Variable emojiToText_Replace : string -> string.
Variable IsPrint : Z -> bool.

Lemma Map_utf8_text (rs : list Z) :
  Forall scalar rs ->
  strings_Map (fun r => if negb (IsPrint r) then -1 else r) (utf8_text rs)
  = utf8_text (filter (fun r => IsPrint r = true) rs).
Proof.
  intros Hrs. unfold strings_Map, utf8_text.
  rewrite bytes_of_bytes, (runes_utf8_text rs Hrs).
  rewrite (Map_filter IsPrint rs (scalar_bound rs Hrs)). reflexivity.
Qed.

(** X6: on the UTF-8 text of scalar values that the emoji replacer
    leaves alone, [FilterChat] writes the printable ones, in order, each
    encoded as it was, and cuts the result after 254 bytes. *)
Theorem FilterChat_drops_unprintable (rs : list Z) :
  Forall scalar rs ->
  emojiToText_Replace (utf8_text rs) = utf8_text rs ->
  FilterChat emojiToText_Replace IsPrint (utf8_text rs)
  = cut254 (utf8_text (filter (fun r => IsPrint r = true) rs)).
Proof.
  intros Hrs He. unfold FilterChat. cbv zeta.
  rewrite He, (Map_utf8_text rs Hrs). reflexivity.
Qed.

(** X7: a text of printable scalar values that is at most 254 bytes long
    and that the emoji replacer leaves alone passes [FilterChat]
    unchanged. *)
Theorem FilterChat_keeps_clean_text (rs : list Z) :
  Forall scalar rs ->
  Forall (fun r => IsPrint r = true) rs ->
  (len (utf8_text rs) <= 254)%nat ->
  emojiToText_Replace (utf8_text rs) = utf8_text rs ->
  FilterChat emojiToText_Replace IsPrint (utf8_text rs) = utf8_text rs.
Proof.
  intros Hrs Hp Hl He. unfold FilterChat. cbv zeta.
  rewrite He, (Map_utf8_text rs Hrs).
  assert (Hf : filter (fun r => IsPrint r = true) rs = rs).
  { clear -Hp. induction Hp as [|r rs Hr _ IH]; [reflexivity|].
    rewrite filter_cons, IH. destruct (decide (IsPrint r = true)); [reflexivity|done]. }
  rewrite Hf. destruct (Nat.ltb_spec 254 (len (utf8_text rs))); [lia|reflexivity].
Qed.

(** What [FilterChat] returns is printable and at most 254 bytes long,
    [unicode.IsPrint] holding of U+FFFD. *)
Lemma FilterChat_sound (s : string) :
  IsPrint utf8.RuneError = true ->
  printable IsPrint (FilterChat emojiToText_Replace IsPrint s)
  /\ (len (FilterChat emojiToText_Replace IsPrint s) <= 254)%nat.
Proof.
  intros HE. unfold FilterChat, strings_Map, slice_to. cbv beta zeta.
  pose proof (utf8_facts.runes_bound (bytes (emojiToText_Replace s))) as Hb.
  rewrite (Map_filter _ _ Hb).
  set (rs := filter _ _).
  assert (Hrb : Forall (fun r => 0 <= r < 2 ^ 21) rs).
  { apply Forall_forall. intros r Hr%list_elem_of_filter.
    rewrite Forall_forall in Hb. apply Hb, Hr. }
  assert (Hrp : Forall (fun r => IsPrint r = true) rs).
  { apply Forall_forall. intros r Hr%list_elem_of_filter. apply Hr. }
  rewrite len_of_bytes, bytes_of_bytes.
  destruct (Nat.ltb_spec 254 (length (concat (map utf8.EncodeRune rs)))) as [Hlt|Hle];
    unfold printable; rewrite len_of_bytes, bytes_of_bytes; split.
  - apply printable_cut; assumption.
  - rewrite length_firstn. lia.
  - rewrite <- (firstn_all (concat (map utf8.EncodeRune rs))).
    apply printable_cut; assumption.
  - exact Hle.
Qed.

End FilterChat_text.

Section Say_facts.

Context {S : Type} {srp_ops : SRP S} {ext : Externals S}.

(** X8: on an open connection [Say] writes at most one packet, and that
    packet is a chat command whose text is not empty, is at most 254
    bytes long and holds printable runes only ([unicode.IsPrint] holding
    of U+FFFD). *)
Theorem Say_sends_filtered (s : string) (w : World.t) (c : Conn) (sc : Socket.t) :
  unicode_IsPrint utf8.RuneError = true ->
  Client.conn (World.client w) = Some c ->
  World.sockets w !! c = Some sc -> Socket.closed sc = false ->
  exists sc', World.sockets (snd (Say s w)) !! c = Some sc'
    /\ (Socket.log sc' = Socket.log sc
        \/ exists t, Socket.log sc' = Socket.log sc ++ [Send_ (bncs.ChatCommand t)]
                     /\ (0 < len t <= 254)%nat
                     /\ printable unicode_IsPrint t).
Proof.
  intros HE Hc Hs Ho. unfold Say.
  pose proof (FilterChat_sound emojiToText_Replace unicode_IsPrint s HE) as [Hp Hl].
  set (t := FilterChat emojiToText_Replace unicode_IsPrint s) in *.
  destruct (Nat.eqb_spec (len t) 0) as [H0|H0].
  - exists sc. split; [exact Hs|left; reflexivity].
  - unfold bind, b_SendRL, b_Send. rewrite Hc. unfold Send.
    rewrite (on_socket_eq c _ w sc Hs Ho).
    exists (snd (Socket.send (bncs.ChatCommand t) sc)). split.
    + destruct (fst (Socket.send (bncs.ChatCommand t) sc)) as [[]|e]; cbn;
        apply list_lookup_insert_eq; eapply lookup_lt_Some; eauto.
    + right. exists t. rewrite Socket_send_log. split; [reflexivity|].
      split; [lia|exact Hp].
Qed.

End Say_facts.

(** ** The life of a dialed connection *)

Section Lifecycle.

Context {S : Type} {srp_ops : SRP S} {ext : Externals S}.

Lemma quiet_ret {A} (a : A) : quiet (ret a).
Proof. intros w. split; reflexivity. Qed.

Lemma quiet_fail {A} (e : error) : quiet (@fail A e).
Proof. intros w. split; reflexivity. Qed.

Lemma quiet_lift {A} (r : result A) : quiet (lift r).
Proof. intros w. split; reflexivity. Qed.

Lemma quiet_get_config : quiet get_config.
Proof. intros w. split; reflexivity. Qed.

Lemma quiet_get_client : quiet get_client.
Proof. intros w. split; reflexivity. Qed.

Lemma quiet_time_Now : quiet time_Now.
Proof. intros w. split; reflexivity. Qed.

Lemma quiet_bind {A B} (m : M A) (k : A -> M B) :
  quiet m -> (forall a, quiet (k a)) -> quiet (bind m k).
Proof.
  intros Hm Hk w. unfold bind. specialize (Hm w).
  destruct (m w) as [[a|e] w1]; cbn in Hm; [|exact Hm].
  destruct (Hk a w1) as [H1 H2]. destruct Hm as [H3 H4].
  split; congruence.
Qed.

Lemma quiet_modify_client (f : Client.t -> Client.t) :
  (forall b, Client.conn (f b) = Client.conn b) -> quiet (modify_client f).
Proof. intros Hf w. split; [reflexivity|]. unfold attached. cbn. apply Hf. Qed.

Lemma quiet_emit (e : Event) : quiet (emit e).
Proof. apply quiet_modify_client. reflexivity. Qed.

Lemma flags_insert (L : list Socket.t) (c : Conn) (s s' : Socket.t) :
  L !! c = Some s -> Socket.closed s' = Socket.closed s ->
  map Socket.closed (<[c := s']> L) = map Socket.closed L.
Proof.
  intros Hs Hc. rewrite list_fmap_insert, Hc.
  apply list_insert_id. rewrite list_lookup_fmap, Hs. reflexivity.
Qed.

Lemma quiet_on_socket {A} (c : Conn) (f : Socket.t -> result A * Socket.t) :
  (forall s, Socket.closed (snd (f s)) = Socket.closed s) ->
  quiet (on_socket c f).
Proof.
  intros Hf w. unfold on_socket.
  destruct (World.sockets w !! c) as [s|] eqn:E; [|split; reflexivity].
  destruct (Socket.closed s) eqn:Ec; [split; reflexivity|].
  specialize (Hf s). destruct (f s) as [r s']. cbn in *.
  split; [|reflexivity]. unfold flags. cbn.
  apply (flags_insert _ _ s); congruence.
Qed.

Lemma quiet_Send (c : Conn) (pkt : bncs.Packet) : quiet (Send c pkt).
Proof. apply quiet_on_socket. intros s. apply Socket_send_closed. Qed.

Lemma quiet_NextPacket (c : Conn) (t : Timeout) : quiet (NextPacket c t).
Proof. apply quiet_on_socket. intros s. apply Socket_next_closed. Qed.

Lemma quiet_b_Send (pkt : bncs.Packet) : quiet (b_Send pkt).
Proof.
  intros w. unfold b_Send.
  destruct (Client.conn (World.client w)); [apply quiet_Send|split; reflexivity].
Qed.

Lemma quiet_onPing (pkt : bncs.Packet) : quiet (onPing pkt).
Proof.
  intros w. unfold onPing. pose proof (quiet_b_Send pkt w) as H.
  destruct (b_Send pkt w) as [[[]|e] w1]; cbn in H; [exact H|].
  destruct (quiet_emit (AsyncError "onPing[Send]" e) w1) as [H1 H2].
  destruct H as [H3 H4]. split; congruence.
Qed.

Ltac quiet_step :=
  first
    [ apply quiet_ret | apply quiet_fail | apply quiet_lift
    | apply quiet_get_config | apply quiet_get_client | apply quiet_time_Now
    | apply quiet_emit | apply quiet_NextPacket | apply quiet_Send
    | apply quiet_modify_client; intros []; reflexivity
    | apply quiet_bind; [|intros ?]
    | match goal with
      | |- quiet (match ?x with _ => _ end) => destruct x
      | |- quiet (if ?x then _ else _) => destruct x
      | |- quiet (let '(_, _) := ?x in _) => destruct x
      end ].

Lemma quiet_onChatEvent (pkt : bncs.ChatEvent.t) : quiet (onChatEvent pkt).
Proof. unfold onChatEvent. repeat quiet_step. Qed.

Lemma quiet_Fire (pkt : bncs.Packet) : quiet (Fire pkt).
Proof.
  unfold Fire. apply quiet_bind; [apply quiet_emit|]. intros _.
  destruct pkt; try apply quiet_ret.
  - apply quiet_onPing.
  - apply quiet_onChatEvent.
Qed.

Lemma quiet_wait_loop {A} (c : Conn) (switch : bncs.Packet -> Verdict A) :
  forall fuel r, quiet (wait_loop fuel c switch r).
Proof.
  induction fuel as [|fuel IH]; intros [pkt|e]; cbn [wait_loop];
    try apply quiet_fail.
  - destruct (switch pkt); [apply quiet_ret| |].
    + apply quiet_bind; [apply quiet_Send|]. intros _. apply quiet_fail.
    + apply quiet_bind; [apply quiet_Fire|]. intros _. apply quiet_fail.
  - assert (Hnext : quiet (fun w => let '(r, w') := NextPacket c NoTimeout w in
                                    wait_loop fuel c switch r w')).
    { intros w. pose proof (quiet_NextPacket c NoTimeout w) as H.
      destruct (NextPacket c NoTimeout w) as [r w1]. cbn in H.
      destruct (IH r w1) as [H1 H2]. destruct H as [H3 H4]. split; congruence. }
    destruct (switch pkt); [apply quiet_ret| |].
    + apply quiet_bind; [apply quiet_Send|]. intros _. exact Hnext.
    + apply quiet_bind; [apply quiet_Fire|]. intros _. exact Hnext.
Qed.

Lemma quiet_wait {A} (c : Conn) (t : Timeout) (switch : bncs.Packet -> Verdict A) :
  quiet (wait c t switch).
Proof.
  intros w. unfold wait. pose proof (quiet_NextPacket c t w) as H.
  destruct (NextPacket c t w) as [r w1]. cbn in H.
  destruct (quiet_wait_loop c switch (inbox_length c w) r w1) as [H1 H2].
  destruct H as [H3 H4]. split; congruence.
Qed.

Lemma quiet_stat (path : string) : quiet (stat path).
Proof. unfold stat. repeat quiet_step. Qed.

Lemma quiet_key_infos (keys : list string) (ct st : Z) :
  quiet (key_infos keys ct st).
Proof. induction keys as [|k keys IH]; cbn [key_infos]; repeat quiet_step. exact IH. Qed.

Ltac quiet_tac :=
  repeat first
    [ apply quiet_wait | apply quiet_stat | apply quiet_key_infos | quiet_step ].

Lemma quiet_sendAuthInfo (c : Conn) : quiet (sendAuthInfo c).
Proof. unfold sendAuthInfo. quiet_tac. Qed.

Lemma quiet_sendAuthCheck (c : Conn) (ct : Z) (ai : bncs.AuthInfoResp.t) :
  quiet (sendAuthCheck c ct ai).
Proof. unfold sendAuthCheck. quiet_tac. Qed.

Lemma quiet_sendLogon (c : Conn) (srp : S) : quiet (sendLogon c srp).
Proof. unfold sendLogon. quiet_tac. Qed.

Lemma quiet_sendLogonProof (c : Conn) (srp : S) (logon : bncs.AuthAccountLogonResp.t) :
  quiet (sendLogonProof c srp logon).
Proof. unfold sendLogonProof. quiet_tac. Qed.

Lemma quiet_sendCreateAccount (c : Conn) (srp : S) : quiet (sendCreateAccount c srp).
Proof. unfold sendCreateAccount. quiet_tac. Qed.

Lemma quiet_sendChangePass (c : Conn) (srp : S) : quiet (sendChangePass c srp).
Proof. unfold sendChangePass. quiet_tac. Qed.

Lemma quiet_sendChangePassProof (c : Conn) (old new : S)
    (resp : bncs.AuthAccountLogonResp.t) :
  quiet (sendChangePassProof c old new resp).
Proof. unfold sendChangePassProof. quiet_tac. Qed.

Lemma quiet_sendEnterChat (c : Conn) : quiet (sendEnterChat c).
Proof. unfold sendEnterChat. quiet_tac. Qed.

Lemma quiet_write_greeting (c : Conn) : quiet (write_greeting c).
Proof.
  intros w. unfold write_greeting, update_socket. cbn.
  destruct (World.sockets w !! c) as [s|] eqn:E; [|split; reflexivity].
  split; [|reflexivity]. unfold flags. cbn. apply (flags_insert _ _ s); auto.
Qed.


Lemma flags_length (w w' : World.t) :
  flags w' = flags w -> length (World.sockets w') = length (World.sockets w).
Proof.
  unfold flags. intros H. apply (f_equal length) in H.
  rewrite !length_map in H. exact H.
Qed.

Lemma is_open_flags (c : Conn) (w : World.t) :
  is_open c w <-> flags w !! c = Some false.
Proof.
  unfold is_open, flags. rewrite list_lookup_fmap. split.
  - intros (s & -> & <-). reflexivity.
  - destruct (World.sockets w !! c) as [s|]; [|discriminate].
    intros [= H]. eauto.
Qed.

Lemma run_quiet {A} (m : M A) (w w1 : World.t) (r : result A) :
  quiet m -> m w = (r, w1) -> flags w1 = flags w /\ attached w1 = attached w.
Proof. intros Hm E. specialize (Hm w). rewrite E in Hm. exact Hm. Qed.

Lemma Close_attached (c : Conn) (w : World.t) : attached (Close c w) = attached w.
Proof. unfold Close, update_socket. destruct (_ !! _); reflexivity. Qed.

(** *** Calls that close the connection when they fail *)

Lemma closing_quiet {A} (c : Conn) (m : M A) :
  quiet m -> (forall w, exists a, fst (m w) = Ok a) -> closing c false m.
Proof.
  intros Hq Hok w r w' Hc E. destruct (run_quiet m w w' r Hq E) as [H1 H2].
  split; [apply flags_length, H1|].
  destruct (Hok w) as [a Ha]. rewrite E in Ha. cbn in Ha. subst r. auto.
Qed.

Lemma closing_or_close {A} (c : Conn) (m : M A) :
  quiet m -> closing c false (or_close c m).
Proof.
  intros Hq w r w' Hc. unfold or_close.
  destruct (m w) as [[a|e] w1] eqn:E; intros [= <- <-];
    destruct (run_quiet m w w1 _ Hq E) as [H1 H2];
    pose proof (flags_length _ _ H1) as Hl.
  - auto.
  - rewrite Close_length, Close_attached. split; [exact Hl|].
    split; [apply Close_is_closed; lia|exact H2].
Qed.

Lemma closing_close_fail {A} (c : Conn) (final : bool) (e : error) :
  closing c final (@close_fail A c e).
Proof.
  intros w r w' Hc. unfold close_fail. intros [= <- <-].
  rewrite Close_length, Close_attached. split; [reflexivity|].
  split; [apply Close_is_closed; lia|reflexivity].
Qed.

Lemma closing_bind {A B} (c : Conn) (final : bool) (m : M A) (k : A -> M B) :
  closing c false m -> (forall a, closing c final (k a)) ->
  closing c final (bind m k).
Proof.
  intros Hm Hk w r w' Hc. unfold bind.
  destruct (m w) as [[a|e] w1] eqn:E; intros E2.
  - destruct (Hm w _ w1 Hc E) as (Hl & Hf & Ha).
    destruct (Hk a w1 r w') as (Hl' & H'); [lia|exact E2|].
    split; [lia|]. destruct r; rewrite <- ?Hf, <- ?Ha; exact H'.
  - injection E2 as <- <-. exact (Hm w _ w1 Hc E).
Qed.

Lemma closing_attach (c : Conn) (f : Client.t -> Client.t) :
  (forall b, Client.conn (f b) = Some c) -> closing c true (modify_client f).
Proof.
  intros Hf w r w' Hc. unfold modify_client. intros [= <- <-].
  split; [reflexivity|]. split; [reflexivity|]. unfold attached. cbn. apply Hf.
Qed.

Lemma ok_get_config (w : World.t) : exists a, fst (get_config w) = Ok a.
Proof. eexists. reflexivity. Qed.

Lemma ok_time_Now (w : World.t) : exists a, fst (time_Now w) = Ok a.
Proof. eexists. reflexivity. Qed.

Lemma ok_write_greeting (c : Conn) (w : World.t) :
  exists a, fst (write_greeting c w) = Ok a.
Proof. eexists. reflexivity. Qed.

Lemma quiet_remote_ip (c : Conn) : quiet (remote_ip c).
Proof. intros w. split; reflexivity. Qed.

Lemma ok_remote_ip (c : Conn) (w : World.t) : exists a, fst (remote_ip c w) = Ok a.
Proof. eexists. reflexivity. Qed.

Lemma closing_ret {A} (c : Conn) (a : A) : closing c false (ret a).
Proof. apply closing_quiet; [apply quiet_ret|]. intros w. eexists. reflexivity. Qed.

Ltac closing_tac :=
  repeat first
    [ apply closing_close_fail
    | apply closing_ret
    | apply closing_or_close;
      first [ apply quiet_sendAuthInfo | apply quiet_sendAuthCheck
            | apply quiet_sendLogon | apply quiet_sendLogonProof
            | apply quiet_sendEnterChat | apply quiet_Send ]
    | apply closing_quiet; [apply quiet_get_config|apply ok_get_config]
    | apply closing_quiet; [apply quiet_time_Now|apply ok_time_Now]
    | apply closing_quiet; [apply quiet_write_greeting|apply ok_write_greeting]
    | apply closing_quiet; [apply quiet_remote_ip|apply ok_remote_ip]
    | apply closing_attach; intros []; reflexivity
    | apply closing_bind; [|intros ?]
    | match goal with
      | |- closing _ _ (match ?x with _ => _ end) => destruct x
      | |- closing _ _ (if ?x then _ else _) => destruct x
      end ].

Lemma closing_DialWithConn (c : Conn) : closing c false (DialWithConn c).
Proof. unfold DialWithConn. closing_tac. Qed.

Lemma connect_Err (w w1 : World.t) (e : error) :
  connect w = (Err e, w1) ->
  World.sockets w1 = World.sockets w /\ attached w1 = attached w.
Proof.
  unfold connect, bind, get_config, open_socket, bind, lift, modify_client, ret.
  intros H. repeat (case_match; try discriminate); simplify_eq; cbn; auto.
Qed.

Lemma connect_attached (w w1 : World.t) (c : Conn) :
  connect w = (Ok c, w1) -> attached w1 = attached w.
Proof.
  unfold connect, bind, get_config, open_socket, bind, lift, modify_client, ret.
  intros H. repeat (case_match; try discriminate); simplify_eq; cbn; auto.
Qed.

(** What [Dial] leaves: on success the handle of a new socket, open; on
    failure no socket open that was not there before. *)
Lemma Dial_run (w w' : World.t) (r : result Conn) :
  Dial w = (r, w') ->
  attached w' = attached w
  /\ match r with
     | Ok conn => conn = length (World.sockets w)
                  /\ length (World.sockets w') = Datatypes.S (length (World.sockets w))
                  /\ is_open conn w'
     | Err _ => nothing_left_open w w'
     end.
Proof.
  unfold Dial, bind.
  destruct (connect w) as [[c|e] w1] eqn:Ec.
  - pose proof (connect_attached _ _ _ Ec) as Ha.
    apply connect_Ok in Ec as (-> & s & Hs & _ & Ho).
    assert (Hl : length (World.sockets w1) = Datatypes.S (length (World.sockets w)))
      by (rewrite Hs, length_app; cbn; lia).
    assert (Hopen : is_open (length (World.sockets w)) w1).
    { exists s. split; [|exact Ho].
      rewrite Hs, lookup_app_r, Nat.sub_diag by lia. reflexivity. }
    intros E.
    destruct (closing_DialWithConn (length (World.sockets w)) w1 r w')
      as (Hl' & H); [lia|exact E|].
    destruct r as [c'|e'].
    + destruct H as [Hf Ha']. apply DialWithConn_returns in E. subst c'.
      split; [congruence|]. split; [reflexivity|]. split; [lia|].
      apply is_open_flags. rewrite Hf. apply is_open_flags, Hopen.
    + destruct H as [Hcl Ha']. split; [congruence|].
      right. split; [lia|exact Hcl].
  - intros [= <- <-]. apply connect_Err in Ec as [Hs Ha].
    split; [exact Ha|]. left. exact Hs.
Qed.

(** X9: [Dial] returns the handle of a new socket, which is open, or it
    returns an error and leaves no socket open that was not there
    before: the store as it was, or one more socket, closed.  Either way
    the client's connection field names the same connection as before;
    what is written on that connection meanwhile is no part of this. *)
Theorem Dial_opens_or_closes (w : World.t) :
  attached (snd (Dial w)) = attached w
  /\ match fst (Dial w) with
     | Ok conn => conn = length (World.sockets w)
                  /\ length (World.sockets (snd (Dial w)))
                     = Datatypes.S (length (World.sockets w))
                  /\ is_open conn (snd (Dial w))
     | Err _ => nothing_left_open w (snd (Dial w))
     end.
Proof. destruct (Dial w) as [r w'] eqn:E. exact (Dial_run w w' r E). Qed.

Lemma Logon_run (w w' : World.t) (r : result unit) :
  Logon w = (r, w') ->
  match r with
  | Ok _ => attached w' = Some (length (World.sockets w))
            /\ length (World.sockets w') = Datatypes.S (length (World.sockets w))
            /\ is_open (length (World.sockets w)) w'
  | Err _ => attached w' = attached w /\ nothing_left_open w w'
  end.
Proof.
  unfold Logon. rewrite (bind_Ok _ _ w w (cfg w)) by reflexivity.
  unfold bind at 1. pose proof (newSRP_world (Config.Password (cfg w)) w) as Hw.
  destruct (newSRP _ w) as [[srp|e] w0]; cbn in Hw; subst w0;
    [|intros [= <- <-]; split; [reflexivity|left; reflexivity]].
  unfold bind at 1.
  destruct (Dial w) as [[conn|e] w1] eqn:Ed;
    destruct (Dial_run _ _ _ Ed) as [Ha H]; [|intros [= <- <-]; auto].
  destruct H as (-> & Hl & Hopen).
  match goal with
  | |- ?m w1 = _ -> _ =>
    assert (Hc : closing (length (World.sockets w)) true m) by closing_tac
  end.
  intros E. destruct (Hc w1 r w') as (Hl' & H); [lia|exact E|].
  destruct r as [[]|e]; destruct H as [H1 H2].
  - split; [exact H2|]. split; [lia|].
    apply is_open_flags. rewrite H1. apply is_open_flags, Hopen.
  - split; [congruence|]. right. split; [lia|exact H1].
Qed.

(** X10: [Logon] either succeeds, and then a new socket is open and
    attached to the client, or it fails, and then the client's connection
    is the one from before and no socket is open that was not there
    before: every error return after the dial closes the connection. *)
Theorem Logon_attaches_or_closes (w : World.t) :
  match fst (Logon w) with
  | Ok _ => attached (snd (Logon w)) = Some (length (World.sockets w))
            /\ length (World.sockets (snd (Logon w)))
               = Datatypes.S (length (World.sockets w))
            /\ is_open (length (World.sockets w)) (snd (Logon w))
  | Err _ => attached (snd (Logon w)) = attached w
             /\ nothing_left_open w (snd (Logon w))
  end.
Proof. destruct (Logon w) as [r w'] eqn:E. exact (Logon_run w w' r E). Qed.

Lemma defer_close_run {A} (c : Conn) (m : M A) (w w' : World.t) (r : result A) :
  quiet m -> (c < length (World.sockets w))%nat ->
  defer_close c m w = (r, w') ->
  attached w' = attached w
  /\ length (World.sockets w') = length (World.sockets w)
  /\ is_closed c w'.
Proof.
  intros Hq Hc. unfold defer_close.
  destruct (m w) as [r1 w1] eqn:E. intros [= <- <-].
  destruct (run_quiet m w w1 r1 Hq E) as [H1 H2].
  pose proof (flags_length _ _ H1) as Hl.
  rewrite Close_attached, Close_length.
  split; [exact H2|]. split; [exact Hl|]. apply Close_is_closed. lia.
Qed.

Lemma CreateAccount_run (w w' : World.t) (r : result unit) :
  CreateAccount w = (r, w') ->
  attached w' = attached w /\ nothing_left_open w w'.
Proof.
  unfold CreateAccount. rewrite (bind_Ok _ _ w w (cfg w)) by reflexivity.
  unfold bind at 1. pose proof (newSRP_world (Config.Password (cfg w)) w) as Hw.
  destruct (newSRP _ w) as [[srp|e] w0]; cbn in Hw; subst w0;
    [|intros [= <- <-]; split; [reflexivity|left; reflexivity]].
  unfold bind at 1.
  destruct (Dial w) as [[conn|e] w1] eqn:Ed;
    destruct (Dial_run _ _ _ Ed) as [Ha H]; [|intros [= <- <-]; auto].
  destruct H as (-> & Hl & Hopen).
  intros E. apply defer_close_run in E as (H1 & H2 & H3); [| |lia].
  - split; [congruence|]. right. split; [lia|exact H3].
  - quiet_tac.
Qed.

Lemma ChangePassword_run (newPassword : string) (w w' : World.t) (r : result unit) :
  ChangePassword newPassword w = (r, w') ->
  attached w' = attached w /\ nothing_left_open w w'.
Proof.
  unfold ChangePassword. rewrite (bind_Ok _ _ w w (cfg w)) by reflexivity.
  unfold bind at 1. pose proof (newSRP_world (Config.Password (cfg w)) w) as Hw.
  destruct (newSRP _ w) as [[srp|e] w0]; cbn in Hw; subst w0;
    [|intros [= <- <-]; split; [reflexivity|left; reflexivity]].
  unfold bind at 1. pose proof (newSRP_world newPassword w) as Hw.
  destruct (newSRP newPassword w) as [[srp2|e] w0]; cbn in Hw; subst w0;
    [|intros [= <- <-]; split; [reflexivity|left; reflexivity]].
  unfold bind at 1.
  destruct (Dial w) as [[conn|e] w1] eqn:Ed;
    destruct (Dial_run _ _ _ Ed) as [Ha H]; [|intros [= <- <-]; auto].
  destruct H as (-> & Hl & Hopen).
  intros E. apply defer_close_run in E as (H1 & H2 & H3); [| |lia].
  - split; [congruence|]. right. split; [lia|exact H3].
  - quiet_tac.
Qed.

(** X11: [CreateAccount] and [ChangePassword] leave no connection behind,
    whether they succeed or fail: at return the client's connection is the
    one from before, and no socket is open that was not there before. *)
Theorem account_calls_close (newPassword : string) (w : World.t) :
  (attached (snd (CreateAccount w)) = attached w
   /\ nothing_left_open w (snd (CreateAccount w)))
  /\ (attached (snd (ChangePassword newPassword w)) = attached w
      /\ nothing_left_open w (snd (ChangePassword newPassword w))).
Proof.
  split.
  - destruct (CreateAccount w) as [r w'] eqn:E. exact (CreateAccount_run w w' r E).
  - destruct (ChangePassword newPassword w) as [r w'] eqn:E.
    exact (ChangePassword_run newPassword w w' r E).
Qed.

End Lifecycle.

(** ** The address, the contexts and the signature *)

Lemma bytes_append (a b : string) : bytes (String.append a b) = bytes a ++ bytes b.
Proof.
  unfold bytes, list_byte_of_string.
  induction a as [|c a IH]; [reflexivity|].
  simpl. f_equal. exact IH.
Qed.

Lemma with_port_colon (addr : string) : contains_colon (with_port addr) = true.
Proof.
  unfold with_port. destruct (contains_colon addr) eqn:E; [exact E|].
  unfold contains_colon. rewrite bytes_append, existsb_app.
  apply orb_true_iff. right. reflexivity.
Qed.

Lemma with_port_twice (addr : string) : with_port (with_port addr) = with_port addr.
Proof. unfold with_port at 1. rewrite with_port_colon. reflexivity. Qed.

Section Address_facts.

Context {S : Type} {srp_ops : SRP S} {ext : Externals S}.

Lemma connect_addr (w : World.t) :
  cfg (snd (connect w))
  = Config.set_ServerAddr (with_port (Config.ServerAddr (cfg w))) (cfg w).
Proof.
  unfold connect, bind, get_config, open_socket, lift, modify_client, ret, with_port.
  fold (cfg w).
  destruct (contains_colon (Config.ServerAddr (cfg w))) eqn:E; cbn.
  - destruct (cfg w) eqn:Ec. cbn in *.
    repeat case_match; cbn; unfold cfg in *; cbn; exact Ec.
  - destruct (cfg w) eqn:Ec. cbn in *.
    repeat case_match; cbn; unfold cfg; cbn; auto.
Qed.

Lemma Dial_addr (w : World.t) :
  cfg (snd (Dial w))
  = Config.set_ServerAddr (with_port (Config.ServerAddr (cfg w))) (cfg w).
Proof.
  unfold Dial, bind. pose proof (connect_addr w) as H.
  destruct (connect w) as [[c|e] w1]; cbn in H; [|exact H].
  destruct (kept_cfg (DialWithConn c) (fun c0 n => kept_DialWithConn c0 n 0%nat c) w1)
    as [-> _]. exact H.
Qed.

Lemma ported_colon (c : Config.t) :
  contains_colon (Config.ServerAddr c) = true -> ported c = c.
Proof.
  intros H. unfold ported, with_port. rewrite H. destruct c; reflexivity.
Qed.

Lemma Logon_addr (w : World.t) :
  cfg (snd (Logon w))
  = if context_made (Config.Password (cfg w)) w then ported (cfg w) else cfg w.
Proof.
  unfold Logon, context_made. rewrite (bind_Ok _ _ w w (cfg w)) by reflexivity.
  unfold bind at 1. pose proof (newSRP_world (Config.Password (cfg w)) w) as Hw.
  destruct (newSRP _ w) as [[srp|e] w0]; cbn in Hw; subst w0; [|reflexivity].
  cbn [fst]. unfold bind at 1. pose proof (Dial_addr w) as Hd.
  destruct (Dial w) as [[conn|e] w1]; cbn in Hd; [|exact Hd].
  match goal with
  | |- cfg (snd (?m w1)) = _ =>
    destruct (kept_cfg m) with (w := w1) as [-> _]; [intros; kept_tac|exact Hd]
  end.
Qed.

Lemma CreateAccount_addr (w : World.t) :
  cfg (snd (CreateAccount w))
  = if context_made (Config.Password (cfg w)) w then ported (cfg w) else cfg w.
Proof.
  unfold CreateAccount, context_made. rewrite (bind_Ok _ _ w w (cfg w)) by reflexivity.
  unfold bind at 1. pose proof (newSRP_world (Config.Password (cfg w)) w) as Hw.
  destruct (newSRP _ w) as [[srp|e] w0]; cbn in Hw; subst w0; [|reflexivity].
  cbn [fst]. unfold bind at 1. pose proof (Dial_addr w) as Hd.
  destruct (Dial w) as [[conn|e] w1]; cbn in Hd; [|exact Hd].
  match goal with
  | |- cfg (snd (?m w1)) = _ =>
    destruct (kept_cfg m) with (w := w1) as [-> _]; [intros; kept_tac|exact Hd]
  end.
Qed.

Lemma ChangePassword_addr (newPassword : string) (w w' : World.t) (r : result unit) :
  ChangePassword newPassword w = (r, w') ->
  cfg w'
  = if context_made (Config.Password (cfg w)) w && context_made newPassword w
    then match r with
         | Ok _ => Config.set_Password newPassword (ported (cfg w))
         | Err _ => ported (cfg w)
         end
    else cfg w.
Proof.
  unfold ChangePassword, context_made.
  rewrite (bind_Ok _ _ w w (cfg w)) by reflexivity.
  unfold bind at 1. pose proof (newSRP_world (Config.Password (cfg w)) w) as Hw.
  destruct (newSRP (Config.Password (cfg w)) w) as [[srp|e] w0]; cbn in Hw; subst w0;
    [|intros [= <- <-]; reflexivity].
  unfold bind at 1. pose proof (newSRP_world newPassword w) as Hw.
  destruct (newSRP newPassword w) as [[srp2|e] w0] eqn:E2; cbn in Hw; subst w0;
    [|intros [= <- <-]; reflexivity].
  cbn [fst andb].
  unfold bind at 1. pose proof (Dial_addr w) as Hd.
  destruct (Dial w) as [[conn|e] w1]; cbn in Hd;
    [|intros [= <- <-]; exact Hd].
  intros H.
  pose proof (ChangePassword_body_cfg conn srp srp2 newPassword w1) as Hb.
  cbv zeta in Hb. unfold defer_close in H.
  match type of Hb with
  | forall r w', ?m w1 = _ -> _ =>
    destruct (m w1) as [r2 w2]; specialize (Hb r2 w2 eq_refl)
  end.
  injection H as <- <-. rewrite Close_cfg.
  destruct r2; rewrite Hb, Hd; reflexivity.
Qed.

(** C8, as the code has it: the four handshake operations leave every
    field of the configuration as it was but two.  [Dial] leaves
    [ServerAddr] with the default port appended when it held no colon
    (and as it was when it held one), also when it fails.  [Logon],
    [CreateAccount] and [ChangePassword] do that once they reach [Dial];
    when a context cannot be made they return before it and the whole
    configuration is as it was.  [Password] is as it was, but for a
    [ChangePassword] that succeeds, after which it is the new password. *)
Theorem handshake_config_frame (newPassword : string) (w : World.t) :
  cfg (snd (Dial w)) = ported (cfg w)
  /\ cfg (snd (Logon w))
     = (if context_made (Config.Password (cfg w)) w then ported (cfg w) else cfg w)
  /\ cfg (snd (CreateAccount w))
     = (if context_made (Config.Password (cfg w)) w then ported (cfg w) else cfg w)
  /\ cfg (snd (ChangePassword newPassword w))
     = (if context_made (Config.Password (cfg w)) w && context_made newPassword w
        then match fst (ChangePassword newPassword w) with
             | Ok _ => Config.set_Password newPassword (ported (cfg w))
             | Err _ => ported (cfg w)
             end
        else cfg w)
  /\ ported (cfg w)
     = (if contains_colon (Config.ServerAddr (cfg w)) then cfg w
        else Config.set_ServerAddr
               (String.append (Config.ServerAddr (cfg w)) ":6112"%string) (cfg w)).
Proof.
  split; [apply Dial_addr|]. split; [apply Logon_addr|].
  split; [apply CreateAccount_addr|]. split.
  - destruct (ChangePassword newPassword w) as [r w'] eqn:E.
    exact (ChangePassword_addr newPassword w w' r E).
  - destruct (contains_colon (Config.ServerAddr (cfg w))) eqn:H.
    + apply ported_colon, H.
    + unfold ported, with_port. rewrite H. reflexivity.
Qed.

(** X12: whatever [Dial] returns, the address it leaves in the
    configuration names a port, the default one when none was given; so a
    second [Dial] leaves the configuration as the first one left it. *)
Theorem Dial_sets_port_once (w : World.t) :
  Config.ServerAddr (cfg (snd (Dial w))) = with_port (Config.ServerAddr (cfg w))
  /\ contains_colon (Config.ServerAddr (cfg (snd (Dial w)))) = true
  /\ cfg (snd (Dial (snd (Dial w)))) = cfg (snd (Dial w)).
Proof.
  rewrite (Dial_addr (snd (Dial w))), !Dial_addr.
  cbn [Config.ServerAddr Config.set_ServerAddr]. rewrite with_port_twice.
  split; [reflexivity|]. split; [apply with_port_colon|reflexivity].
Qed.

(** X13: when the context for the stored password cannot be made,
    [Logon], [CreateAccount] and [ChangePassword] return that error and
    the world is as before, no connection dialed; so does
    [ChangePassword] when it is the context for the new password that
    cannot be made. *)
Theorem no_dial_without_context (newPassword : string) (w : World.t) (e : error) :
  Config.SHA1Auth (cfg w) = false ->
  (NewNLS (Config.Username (cfg w)) (Config.Password (cfg w)) = Err e ->
   Logon w = (Err e, w) /\ CreateAccount w = (Err e, w)
   /\ ChangePassword newPassword w = (Err e, w))
  /\ (forall srp,
        NewNLS (Config.Username (cfg w)) (Config.Password (cfg w)) = Ok srp ->
        NewNLS (Config.Username (cfg w)) newPassword = Err e ->
        ChangePassword newPassword w = (Err e, w)).
Proof.
  intros Hs. split.
  - intros He.
    assert (H : newSRP (Config.Password (cfg w)) w = (Err e, w)).
    { unfold newSRP, bind, get_config, lift. fold (cfg w). rewrite Hs, He. reflexivity. }
    unfold Logon, CreateAccount, ChangePassword.
    rewrite !(bind_Ok _ _ w w (cfg w)) by reflexivity.
    rewrite !(bind_Err _ _ _ _ _ H). auto.
  - intros srp Ho He.
    assert (H1 : newSRP (Config.Password (cfg w)) w = (Ok srp, w)).
    { unfold newSRP, bind, get_config, lift. fold (cfg w). rewrite Hs, Ho. reflexivity. }
    assert (H2 : newSRP newPassword w = (Err e, w)).
    { unfold newSRP, bind, get_config, lift. fold (cfg w). rewrite Hs, He. reflexivity. }
    unfold ChangePassword.
    rewrite (bind_Ok _ _ w w (cfg w)) by reflexivity.
    rewrite (bind_Ok _ _ _ _ _ H1), (bind_Err _ _ _ _ _ H2). reflexivity.
Qed.

(** X14: when the signature is to be verified and the server's does not
    verify, [DialWithConn] closes the connection and returns
    [ErrInvalidServerSig], and no version and key check has been sent on
    it. *)
Theorem DialWithConn_invalid_signature (conn : Conn) (w w2 : World.t)
    (authInfo : bncs.AuthInfoResp.t) :
  (conn < length (World.sockets w))%nat ->
  no_auth_check_sent conn w ->
  sendAuthInfo conn (snd (write_greeting conn w)) = (Ok authInfo, w2) ->
  Config.VerifySignature (cfg w2) = true ->
  VerifyServerSignature (RemoteAddr_IP conn w2)
    (bncs.AuthInfoResp.ServerSignature authInfo) = false ->
  DialWithConn conn w = (Err ErrInvalidServerSig, Close conn w2)
  /\ is_closed conn (Close conn w2)
  /\ no_auth_check_sent conn (Close conn w2).
Proof.
  intros Hc Hn Hinfo Hv Hsig.
  assert (Hq : forall p, not_auth_check (bncs.Ping p)) by (intros; exact I).
  assert (Hq1 : forall p, not_auth_check (bncs.AuthInfoReq p)) by (intros; exact I).
  assert (Hi : inv (cfg w) (length (World.sockets w)) conn not_auth_check w).
  { split; [reflexivity|]. split; [reflexivity|]. exact Hn. }
  apply (keeps_write_greeting _ _ _ not_auth_check conn) in Hi.
  apply (keeps_sendAuthInfo _ _ _ not_auth_check Hq Hq1 conn) in Hi.
  rewrite Hinfo in Hi. cbn [snd] in Hi.
  apply (inv_Close _ _ _ not_auth_check _ conn) in Hi.
  destruct Hi as (_ & Hlen & Hsent).
  split; [|split].
  - unfold DialWithConn.
    rewrite (bind_Ok _ _ w (snd (write_greeting conn w)) tt) by reflexivity.
    rewrite (bind_Ok _ _ _ _ _ (or_close_Ok _ _ _ _ _ Hinfo)).
    rewrite (bind_Ok _ _ w2 w2 (cfg w2)) by reflexivity.
    rewrite (bind_Ok _ _ w2 w2 (RemoteAddr_IP conn w2)) by reflexivity.
    rewrite Hv, Hsig. reflexivity.
  - apply Close_is_closed. rewrite Close_length in Hlen. lia.
  - exact Hsent.
Qed.

End Address_facts.

(** ** The steps, one by one *)

Lemma length_copy_array (n : nat) (src : list byte) : length (copy_array n src) = n.
Proof. unfold copy_array. rewrite length_app, length_firstn, repeat_length. lia. Qed.

Lemma lookup_repeat {A} (a : A) (n i : nat) :
  (i < n)%nat -> repeat a n !! i = Some a.
Proof.
  revert i. induction n as [|n IH]; intros i Hi; [lia|].
  destruct i as [|i]; [reflexivity|]. cbn. apply IH. lia.
Qed.

Lemma lookup_copy_array (n i : nat) (src : list byte) :
  (i < n)%nat -> copy_array n src !! i = Some (nth i src x00).
Proof.
  intros Hi. unfold copy_array.
  destruct (Nat.lt_ge_cases i (length src)) as [Hlt|Hge].
  - rewrite lookup_app_l by (rewrite length_firstn; lia).
    rewrite lookup_take_lt by lia.
    destruct (src !! i) as [b|] eqn:E.
    + f_equal. symmetry. apply nth_lookup_Some with (d := x00). exact E.
    + apply lookup_ge_None in E. lia.
  - rewrite lookup_app_r by (rewrite length_firstn; lia).
    rewrite length_firstn, nth_overflow by lia.
    apply lookup_repeat. lia.
Qed.

Section Step_facts.

Context {S : Type} {srp_ops : SRP S} {ext : Externals S}.

(** *** Waiting on a client that has no connection yet *)

Lemma Fire_detached (pkt : bncs.Packet) (X : list Socket.t) (w : World.t) :
  attached w = None ->
  Fire pkt (World.set_sockets X w) = (Ok tt, World.set_sockets X (snd (Fire pkt w)))
  /\ attached (snd (Fire pkt w)) = None.
Proof.
  unfold attached. intros Ha. unfold Fire, bind, emit, modify_client.
  destruct pkt; try (split; [reflexivity|exact Ha]).
  - unfold onPing, b_Send. cbn. rewrite Ha. cbn. split; [reflexivity|exact Ha].
  - split; [apply (onChatEvent_sockets p X (World.set_client _ w))|].
    destruct (quiet_onChatEvent p (World.set_client
               (Client.emit (Received (bncs.ChatEvent p)) (World.client w)) w))
      as [_ H]. unfold attached in H. rewrite H. exact Ha.
Qed.

Lemma Socket_next_cons (timeout : Timeout) (s : Socket.t)
    (r : result bncs.Packet) (rest : list (result bncs.Packet)) :
  Socket.inbox s = r :: rest ->
  Socket.next timeout s
  = (r, Socket.set_inbox rest (Socket.logged (NextPacket_ timeout) s)).
Proof. intros H. unfold Socket.next. cbn. rewrite H. reflexivity. Qed.

Lemma Socket_next_nil (timeout : Timeout) (s : Socket.t) :
  Socket.inbox s = [] ->
  Socket.next timeout s = (Err io_EOF, Socket.logged (NextPacket_ timeout) s).
Proof. intros H. unfold Socket.next. cbn. rewrite H. reflexivity. Qed.

Lemma wait_loop_first {A} (conn : Conn) (L : list Socket.t)
    (switch : bncs.Packet -> Verdict A) (pick : bncs.Packet -> option A) :
  (forall p, switch p = match pick p with Some a => Return a | None => Default end) ->
  (conn < length L)%nat ->
  forall inbox fuel timeout wc s,
    attached wc = None ->
    Socket.closed s = false -> Socket.inbox s = inbox -> (length inbox <= fuel)%nat ->
    (let '(r, w1) := NextPacket conn timeout (World.set_sockets (<[conn := s]> L) wc) in
     wait_loop fuel conn switch r w1)
    = (let '(r, ds, n) := first_response pick inbox in
       (r, World.set_sockets (<[conn := reads timeout n s]> L) (fires ds wc))).
Proof.
  intros Hsw Hconn. induction inbox as [|[pkt|e] rest IH];
    intros fuel timeout wc s Ha Hc Hi Hf;
    unfold NextPacket; rewrite on_socket_at by assumption;
    cbn [first_response].
  - cbn [reads]. rewrite (Socket_next_nil _ _ Hi). apply wait_loop_Err.
  - destruct fuel as [|fuel]; [cbn in Hf; lia|]. cbn in Hf.
    rewrite (Socket_next_cons _ _ _ _ Hi). cbn [fst snd].
    set (s1 := Socket.set_inbox rest (Socket.logged (NextPacket_ timeout) s)).
    assert (Hc1 : Socket.closed s1 = false) by exact Hc.
    assert (Hi1 : Socket.inbox s1 = rest) by reflexivity.
    cbn [wait_loop]. rewrite Hsw.
    destruct (pick pkt) as [a|].
    + cbn [reads]. rewrite (Socket_next_cons _ _ _ _ Hi). reflexivity.
    + destruct (Fire_detached pkt (<[conn := s1]> L) wc Ha) as [Hfire Ha1].
      rewrite (bind_Ok _ _ _ _ _ Hfire).
      rewrite IH by (try assumption; lia).
      destruct (first_response pick rest) as [[r ds] n].
      cbn [reads]. rewrite (Socket_next_cons _ _ _ _ Hi). reflexivity.
  - cbn [reads]. rewrite (Socket_next_cons _ _ _ _ Hi). apply wait_loop_Err.
Qed.

Lemma wait_first {A} (conn : Conn) (timeout : Timeout)
    (switch : bncs.Packet -> Verdict A) (pick : bncs.Packet -> option A)
    (L : list Socket.t) (wc : World.t) (s : Socket.t) :
  (forall p, switch p = match pick p with Some a => Return a | None => Default end) ->
  (conn < length L)%nat -> attached wc = None -> Socket.closed s = false ->
  wait conn timeout switch (World.set_sockets (<[conn := s]> L) wc)
  = (let '(r, ds, n) := first_response pick (Socket.inbox s) in
     (r, World.set_sockets (<[conn := reads timeout n s]> L) (fires ds wc))).
Proof.
  intros Hsw Hconn Ha Hc. unfold wait.
  assert (Hlen : inbox_length conn (World.set_sockets (<[conn := s]> L) wc)
                 = length (Socket.inbox s)).
  { unfold inbox_length. cbn. rewrite list_lookup_insert_eq by exact Hconn. reflexivity. }
  rewrite Hlen.
  apply (wait_loop_first conn L switch pick Hsw Hconn (Socket.inbox s)); auto.
Qed.

(** X15: on an open connection, the client having none of its own yet,
    [sendLogon] writes the logon request and returns the error of that
    write if it fails; otherwise it reads, first with a timeout of fifteen
    seconds and then with none, fires every packet that is no logon
    response, a ping among them, and returns the first logon response or
    the first read error.  It writes nothing but the request. *)
Theorem sendLogon_first_response (conn : Conn) (srp : S) (w : World.t) (s : Socket.t) :
  World.sockets w !! conn = Some s -> Socket.closed s = false ->
  attached w = None ->
  sendLogon conn srp w =
  match Socket.send
          (bncs.AuthAccountLogonReq
             {| bncs.AuthAccountLogonReq.ClientKey := ClientKey srp;
                bncs.AuthAccountLogonReq.Username := Config.Username (cfg w) |}) s
  with
  | (Err e, s1) => (Err e, World.set_sockets (<[conn := s1]> (World.sockets w)) w)
  | (Ok _, s1) =>
    let '(r, ds, n) := first_response logon_response (Socket.inbox s1) in
    (r, World.set_sockets (<[conn := reads (Duration 15) n s1]> (World.sockets w))
          (fires ds w))
  end.
Proof.
  intros Hs Hc Ha. unfold sendLogon.
  rewrite (bind_Ok _ _ w w (cfg w)) by reflexivity.
  unfold bind, Send. rewrite (on_socket_eq _ _ w s Hs Hc).
  match goal with
  | |- context [Socket.send ?p s] =>
    pose proof (Socket_send_closed p s) as Hc1;
    destruct (Socket.send p s) as [[[]|e] s1]
  end; cbn [fst snd] in *; [|reflexivity].
  assert (Hlt : (conn < length (World.sockets w))%nat) by (eapply lookup_lt_Some; eauto).
  apply (wait_first conn (Duration 15) _ logon_response); auto; [|congruence].
  intros []; reflexivity.
Qed.

(** X16: on an open connection, the client having none of its own yet,
    [sendEnterChat] writes the game port and then the request to enter
    chat, stopping at the first write that fails; then it reads, first
    with a timeout of ten seconds and then with none, fires every packet
    that is no answer to the request, and returns the first answer or the
    first read error. *)
Theorem sendEnterChat_first_response (conn : Conn) (w : World.t) (s : Socket.t) :
  World.sockets w !! conn = Some s -> Socket.closed s = false ->
  attached w = None ->
  sendEnterChat conn w =
  match Socket.send (bncs.NetGamePort (Config.GamePort (cfg w))) s with
  | (Err e, s1) => (Err e, World.set_sockets (<[conn := s1]> (World.sockets w)) w)
  | (Ok _, s1) =>
    match Socket.send bncs.EnterChatReq s1 with
    | (Err e, s2) => (Err e, World.set_sockets (<[conn := s2]> (World.sockets w)) w)
    | (Ok _, s2) =>
      let '(r, ds, n) := first_response enter_chat_response (Socket.inbox s2) in
      (r, World.set_sockets (<[conn := reads (Duration 10) n s2]> (World.sockets w))
            (fires ds w))
    end
  end.
Proof.
  intros Hs Hc Ha. unfold sendEnterChat.
  rewrite (bind_Ok _ _ w w (cfg w)) by reflexivity.
  assert (Hlt : (conn < length (World.sockets w))%nat) by (eapply lookup_lt_Some; eauto).
  unfold bind at 1. unfold Send at 1. rewrite (on_socket_eq _ _ w s Hs Hc).
  match goal with
  | |- context [Socket.send ?p s] =>
    pose proof (Socket_send_closed p s) as Hc1;
    destruct (Socket.send p s) as [[[]|e] s1]
  end; cbn [fst snd] in *; [|reflexivity].
  unfold bind at 1. unfold Send at 1. rewrite on_socket_at by (auto; congruence).
  match goal with
  | |- context [Socket.send ?p s1] =>
    pose proof (Socket_send_closed p s1) as Hc2;
    destruct (Socket.send p s1) as [[[]|e] s2]
  end; cbn [fst snd] in *; [|reflexivity].
  apply (wait_first conn (Duration 10) _ enter_chat_response); auto; [|congruence].
  intros []; reflexivity.
Qed.

(** *** The version and key check *)

Lemma key_infos_Ok (keys : list string) (infos : list bncs.CDKey.t) (ct st : Z)
    (w : World.t) :
  Forall2 (fun k i => CreateBNCSKeyInfo k ct st = Ok i) keys infos ->
  key_infos keys ct st w = (Ok infos, w).
Proof.
  induction 1 as [|k i keys infos Hk _ IH]; [reflexivity|].
  cbn [key_infos]. unfold bind, lift. rewrite Hk, IH. reflexivity.
Qed.

Lemma key_infos_Err (good rest : list string) (k : string) (ct st : Z) (e : error)
    (w : World.t) :
  Forall (fun k => exists i, CreateBNCSKeyInfo k ct st = Ok i) good ->
  CreateBNCSKeyInfo k ct st = Err e ->
  key_infos (good ++ k :: rest) ct st w = (Err e, w).
Proof.
  intros Hg Hk. induction Hg as [|g good [i Hi] _ IH]; cbn [app key_infos].
  - unfold bind, lift. rewrite Hk. reflexivity.
  - unfold bind at 1. unfold lift at 1. rewrite Hi.
    unfold bind at 1. rewrite IH. reflexivity.
Qed.

(** X17: when the version and the hash of the executable are both
    configured, [sendAuthCheck] inspects no file: it decodes the CD keys
    and sends one request, which carries the given client token, the
    configured executable information, version and hash, one key record
    for every configured key, in order, and the configured key owner;
    then it waits for the answer. *)
Theorem sendAuthCheck_configured (conn : Conn) (clientToken : Z)
    (authinfo : bncs.AuthInfoResp.t) (infos : list bncs.CDKey.t) (w : World.t) :
  Config.ExeVersion (cfg w) <> 0 -> Config.ExeHash (cfg w) <> 0 ->
  Forall2 (fun k i => CreateBNCSKeyInfo k clientToken
                        (bncs.AuthInfoResp.ServerToken authinfo) = Ok i)
          (Config.CDKeys (cfg w)) infos ->
  sendAuthCheck conn clientToken authinfo w
  = (let* _ := Send conn
                 (bncs.AuthCheckReq
                    {| bncs.AuthCheckReq.ClientToken := clientToken;
                       bncs.AuthCheckReq.ExeInformation := Config.ExeInfo (cfg w);
                       bncs.AuthCheckReq.ExeVersion := Config.ExeVersion (cfg w);
                       bncs.AuthCheckReq.ExeHash := Config.ExeHash (cfg w);
                       bncs.AuthCheckReq.CDKeys := infos;
                       bncs.AuthCheckReq.KeyOwnerName := Config.CDKeyOwner (cfg w) |}) in
     wait conn (Duration 10) AuthCheck_switch) w.
Proof.
  intros Hv Hh Hk. unfold sendAuthCheck.
  rewrite (bind_Ok _ _ w w (cfg w)) by reflexivity.
  destruct (Z.eqb_spec (Config.ExeVersion (cfg w)) 0) as [|_]; [done|].
  destruct (Z.eqb_spec (Config.ExeHash (cfg w)) 0) as [|_]; [done|].
  cbn [orb].
  rewrite (bind_Ok _ _ w w (Config.ExeInfo (cfg w), Config.ExeVersion (cfg w),
                            Config.ExeHash (cfg w))) by reflexivity.
  rewrite (bind_Ok _ _ _ _ _ (key_infos_Ok _ _ _ _ w Hk)). reflexivity.
Qed.

(** X18: when the version or the hash of the executable is not
    configured and the executable is not there ([war3.exe] below version
    28, [Warcraft III.exe] from there on), [sendAuthCheck] returns the
    error of [os.Stat] and has sent nothing: the world is as before. *)
Theorem sendAuthCheck_missing_exe (conn : Conn) (clientToken : Z)
    (authinfo : bncs.AuthInfoResp.t) (w : World.t) (e : error) :
  Config.ExeVersion (cfg w) = 0 \/ Config.ExeHash (cfg w) = 0 ->
  os_Stat (exe_path (cfg w)) = Some e ->
  sendAuthCheck conn clientToken authinfo w = (Err e, w).
Proof.
  intros Hz He. unfold sendAuthCheck.
  rewrite (bind_Ok _ _ w w (cfg w)) by reflexivity.
  assert (Hb : (Config.ExeVersion (cfg w) =? 0) || (Config.ExeHash (cfg w) =? 0) = true).
  { apply orb_true_iff. destruct Hz as [Hz|Hz]; [left|right]; apply Z.eqb_eq, Hz. }
  rewrite Hb. fold (exe_path (cfg w)).
  unfold bind at 1. unfold bind at 1. unfold stat at 1. rewrite He. reflexivity.
Qed.

(** X19: when the executable needs no inspection and a CD key does not
    decode, [sendAuthCheck] returns the error of the first such key and
    has sent nothing: the world is as before. *)
Theorem sendAuthCheck_bad_key (conn : Conn) (clientToken : Z)
    (authinfo : bncs.AuthInfoResp.t) (w : World.t)
    (good rest : list string) (k : string) (e : error) :
  Config.ExeVersion (cfg w) <> 0 -> Config.ExeHash (cfg w) <> 0 ->
  Config.CDKeys (cfg w) = good ++ k :: rest ->
  Forall (fun k => exists i, CreateBNCSKeyInfo k clientToken
                               (bncs.AuthInfoResp.ServerToken authinfo) = Ok i) good ->
  CreateBNCSKeyInfo k clientToken (bncs.AuthInfoResp.ServerToken authinfo) = Err e ->
  sendAuthCheck conn clientToken authinfo w = (Err e, w).
Proof.
  intros Hv Hh Hkeys Hg Hk. unfold sendAuthCheck.
  rewrite (bind_Ok _ _ w w (cfg w)) by reflexivity.
  destruct (Z.eqb_spec (Config.ExeVersion (cfg w)) 0) as [|_]; [done|].
  destruct (Z.eqb_spec (Config.ExeHash (cfg w)) 0) as [|_]; [done|].
  cbn [orb].
  rewrite (bind_Ok _ _ w w (Config.ExeInfo (cfg w), Config.ExeVersion (cfg w),
                            Config.ExeHash (cfg w))) by reflexivity.
  rewrite Hkeys.
  rewrite (bind_Err _ _ _ _ _ (key_infos_Err _ _ _ _ _ _ w Hg Hk)). reflexivity.
Qed.

(** *** The new account *)

(** X20: [sendCreateAccount] sends nothing when the salt and verifier
    cannot be made, and returns that error; otherwise it sends one
    request with the configured user name, whose salt and verifier are
    32 bytes each whatever was made: the bytes made, cut after 32 or
    filled up with zeros. *)
Theorem sendCreateAccount_arrays (conn : Conn) (srp : S) (w : World.t) :
  match AccountCreate srp with
  | Err e => sendCreateAccount conn srp w = (Err e, w)
  | Ok (salt, verifier) =>
    exists req,
      sendCreateAccount conn srp w
      = (let* _ := Send conn (bncs.AuthAccountCreateReq req) in
         wait conn (Duration 10) AccountCreate_switch) w
      /\ bncs.AuthAccountCreateReq.Username req = Config.Username (cfg w)
      /\ length (bncs.AuthAccountCreateReq.Salt req) = 32%nat
      /\ length (bncs.AuthAccountCreateReq.Verifier req) = 32%nat
      /\ forall i, (i < 32)%nat ->
           bncs.AuthAccountCreateReq.Salt req !! i = Some (nth i salt x00)
           /\ bncs.AuthAccountCreateReq.Verifier req !! i = Some (nth i verifier x00)
  end.
Proof.
  unfold sendCreateAccount.
  destruct (AccountCreate srp) as [[salt verifier]|e] eqn:E.
  - eexists. split.
    + rewrite (bind_Ok _ _ w w (salt, verifier)) by reflexivity.
      rewrite (bind_Ok _ _ w w (cfg w)) by reflexivity. reflexivity.
    + cbn. rewrite !length_copy_array. repeat split; try reflexivity;
        apply lookup_copy_array; assumption.
  - reflexivity.
Qed.

End Step_facts.

(** ** [NewClient] *)

Section NewClient_facts.

Context {S : Type} {ext : Externals S} {inst : Installation}.

Lemma version_byte_spec (v : Z) :
  version_byte v = (v / 65536) mod 256 /\ 0 <= version_byte v < 256.
Proof.
  unfold version_byte.
  rewrite (Z.shiftr_div_pow2 v 16) by lia.
  change 0xFF with (Z.ones 8).
  rewrite (Z.land_ones (v / 2 ^ 16) 8) by lia.
  split; [reflexivity|]. apply Z.mod_pos_bound. lia.
Qed.

Lemma derive_version_frame (conf c : Config.t) :
  frame c (derive_version conf c) (bncs.GameVersion.Version (game_version conf) <> 0) True True True.
Proof.
  unfold derive_version.
  destruct (Z.eqb_spec (bncs.GameVersion.Version (game_version conf)) 0);
    repeat case_match; split; intros; try reflexivity; done.
Qed.

Lemma read_username_frame (conf c : Config.t) :
  frame c (read_username conf c) True (Config.Username conf <> EmptyString) True True.
Proof.
  unfold read_username.
  destruct (String.eqb_spec (Config.Username conf) EmptyString);
    repeat case_match; split; intros; try reflexivity; done.
Qed.

Lemma read_cdkeys_frame (conf c : Config.t) :
  frame c (read_cdkeys conf c) True True (Config.CDKeys conf <> []) True.
Proof.
  unfold read_cdkeys.
  destruct (Nat.eqb_spec (length (Config.CDKeys conf)) 0) as [H0|H0];
    [apply length_zero_iff_nil in H0|];
    cbv zeta; repeat case_match; split; intros; try reflexivity; done.
Qed.

Lemma derive_product_frame (conf c : Config.t) :
  frame c (derive_product conf c) True True True (bncs.GameVersion.Product (game_version conf) <> 0).
Proof.
  unfold derive_product.
  destruct (Z.eqb_spec (bncs.GameVersion.Product (game_version conf)) 0);
    repeat case_match; split; intros; try reflexivity; done.
Qed.

Lemma frame_trans (c1 c2 c3 : Config.t) (v1 u1 k1 p1 v2 u2 k2 p2 : Prop) :
  frame c1 c2 v1 u1 k1 p1 -> frame c2 c3 v2 u2 k2 p2 ->
  frame c1 c3 (v1 /\ v2) (u1 /\ u2) (k1 /\ k2) (p1 /\ p2).
Proof.
  intros [G1 V1 U1 K1 P1] [G2 V2 U2 K2 P2].
  split; [congruence| | | |]; intros [H1 H2].
  - rewrite V2, V1 by assumption. reflexivity.
  - rewrite U2, U1 by assumption. reflexivity.
  - rewrite K2, K1 by assumption. reflexivity.
  - rewrite P2, P1 by assumption. reflexivity.
Qed.

Lemma NewClient_frame (conf c : Config.t) :
  frame c (derive_product conf (read_cdkeys conf (read_username conf
             (derive_version conf c))))
    (bncs.GameVersion.Version (game_version conf) <> 0) (Config.Username conf <> EmptyString)
    (Config.CDKeys conf <> []) (bncs.GameVersion.Product (game_version conf) <> 0).
Proof.
  pose proof (frame_trans _ _ _ _ _ _ _ _ _ _ _
                (frame_trans _ _ _ _ _ _ _ _ _ _ _
                   (frame_trans _ _ _ _ _ _ _ _ _ _ _
                      (derive_version_frame conf c)
                      (read_username_frame conf _))
                   (read_cdkeys_frame conf _))
                (derive_product_frame conf _)) as [G V U K P].
  split; [exact G| | | |]; intros H; auto 10.
Qed.

(** X21: [NewClient] fails only when the merge with the defaults fails;
    a file that cannot be read is no error.  What the caller has given
    is not replaced: a game version, a user name, a list of CD keys or a
    product that is set in the given configuration comes out as the
    merge left it, and so does every field that [NewClient] derives
    nothing for.  The client has no connection and no chat state. *)
Theorem NewClient_keeps_what_is_given (conf : Config.t) :
  match mergo_Merge conf DefaultConfig with
  | Err e => NewClient conf = Err e
  | Ok c =>
    exists b, NewClient conf = Ok b
      /\ Client.conn b = None /\ Client.users b = ∅ /\ Client.fired b = []
      /\ given_fields (Client.config b) = given_fields c
      /\ (bncs.GameVersion.Version (game_version conf) <> 0 ->
          bncs.GameVersion.Version (game_version (Client.config b))
          = bncs.GameVersion.Version (game_version c))
      /\ (Config.Username conf <> EmptyString ->
          Config.Username (Client.config b) = Config.Username c)
      /\ (Config.CDKeys conf <> [] ->
          Config.CDKeys (Client.config b) = Config.CDKeys c)
      /\ (bncs.GameVersion.Product (game_version conf) <> 0 ->
          bncs.GameVersion.Product (game_version (Client.config b))
          = bncs.GameVersion.Product (game_version c))
  end.
Proof.
  unfold NewClient. destruct (mergo_Merge conf DefaultConfig) as [c|e]; [|reflexivity].
  eexists. split; [reflexivity|]. cbv zeta. cbn [Client.config Client.conn
    Client.users Client.fired].
  destruct (NewClient_frame conf c) as [G V U K P]. auto 10.
Qed.

(** X22: when no game version is given, [NewClient] takes it from the
    version of the executable, the third byte of that number (a value
    from 0 to 255): of the configured [ExeVersion] if there is one, else
    of what [war3.exe] reports, else of what [Warcraft III.exe] reports;
    when none of the three is there the version is as merged. *)
Theorem NewClient_version_byte (conf c : Config.t) (b : Client.t) :
  mergo_Merge conf DefaultConfig = Ok c ->
  bncs.GameVersion.Version (game_version conf) = 0 ->
  NewClient conf = Ok b ->
  let v := bncs.GameVersion.Version (game_version (Client.config b)) in
  let old := GetExeInfo (filepath_Join (Config.BinPath c) "war3.exe"%string) in
  let new := GetExeInfo (filepath_Join (Config.BinPath c) "Warcraft III.exe"%string) in
  if negb (Config.ExeVersion c =? 0)
  then v = (Config.ExeVersion c / 65536) mod 256 /\ 0 <= v < 256
  else match old, new with
       | Ok (x, _), _ => v = (x / 65536) mod 256 /\ 0 <= v < 256
       | Err _, Ok (x, _) => v = (x / 65536) mod 256 /\ 0 <= v < 256
       | Err _, Err _ => v = bncs.GameVersion.Version (game_version c)
       end.
Proof.
  intros Hm Hv. unfold NewClient. rewrite Hm. cbv zeta. intros [= <-].
  cbn [Client.config].
  pose proof (frame_trans _ _ _ _ _ _ _ _ _ _ _
                (frame_trans _ _ _ _ _ _ _ _ _ _ _
                   (read_username_frame conf (derive_version conf c))
                   (read_cdkeys_frame conf _))
                (derive_product_frame conf _)) as [_ V _ _ _].
  rewrite V by auto. clear V.
  unfold derive_version. rewrite Hv. cbn [Z.eqb].
  destruct (negb (Config.ExeVersion c =? 0)); [apply version_byte_spec|].
  destruct (GetExeInfo (filepath_Join (Config.BinPath c) "war3.exe"))
    as [[x i]|e1]; [apply version_byte_spec|].
  destruct (GetExeInfo (filepath_Join (Config.BinPath c) "Warcraft III.exe"))
    as [[x i]|e2]; [apply version_byte_spec|reflexivity].
Qed.

(** X23: when no CD key is given, [NewClient] reads them from [roc.w3k]
    and [tft.w3k] under [BinPath]: the first alone, or both in that
    order; without the first the second is not used and the keys are as
    merged.  When no product is given either, the keys read decide it:
    Reign of Chaos for one key, The Frozen Throne for two. *)
Theorem NewClient_keys_from_files (conf c : Config.t) (b : Client.t) :
  mergo_Merge conf DefaultConfig = Ok c ->
  Config.CDKeys conf = [] ->
  NewClient conf = Ok b ->
  let rock := key_file c "roc.w3k" in
  let tftk := key_file c "tft.w3k" in
  Config.CDKeys (Client.config b)
  = (if String.eqb rock EmptyString then Config.CDKeys c
     else if String.eqb tftk EmptyString then [rock] else [rock; tftk])
  /\ (bncs.GameVersion.Product (game_version conf) = 0 ->
      rock <> EmptyString ->
      bncs.GameVersion.Product (game_version (Client.config b))
      = if String.eqb tftk EmptyString then w3gs_ProductROC else w3gs_ProductTFT).
Proof.
  intros Hm Hk. unfold NewClient. rewrite Hm. cbv zeta. intros [= <-].
  cbn [Client.config].
  set (c2 := read_username conf (derive_version conf c)).
  assert (Hbin : Config.BinPath c2 = Config.BinPath c).
  { pose proof (frame_trans _ _ _ _ _ _ _ _ _ _ _
                  (derive_version_frame conf c) (read_username_frame conf _))
      as [G _ _ _ _]. fold c2 in G. unfold given_fields in G. congruence. }
  assert (Hkeys : Config.CDKeys c2 = Config.CDKeys c).
  { pose proof (frame_trans _ _ _ _ _ _ _ _ _ _ _
                  (derive_version_frame conf c) (read_username_frame conf _))
      as [_ _ _ K _]. fold c2 in K. apply K. auto. }
  assert (Hf : forall name, key_file c2 name = key_file c name).
  { intros name. unfold key_file. rewrite Hbin. reflexivity. }
  unfold derive_product, read_cdkeys. rewrite Hk. cbn [length Nat.eqb].
  cbv zeta. rewrite !Hf.
  destruct (String.eqb_spec (key_file c "roc.w3k") EmptyString) as [Hr|Hr];
    cbn [negb].
  - split; [|done]. case_match; [|exact Hkeys]. repeat case_match; exact Hkeys.
  - destruct (String.eqb_spec (key_file c "tft.w3k") EmptyString) as [Ht|Ht];
      cbn [negb]; (split; [case_match; reflexivity|]);
      intros Hp _; rewrite Hp; reflexivity.
Qed.

End NewClient_facts.

(** ** The default handler of a ping *)

Section Ping_facts.

Context {S : Type} {srp_ops : SRP S} {ext : Externals S}.

(** X24: a ping fired on a client whose connection is open is answered
    on that connection with the same packet; [Fire] records the ping, and
    when the answer cannot be written it records the error as an
    [AsyncError] of ["onPing[Send]"] instead of returning it. *)
Theorem Fire_Ping_echoes (x : Z) (w : World.t) (c : Conn) (sc : Socket.t) :
  attached w = Some c ->
  World.sockets w !! c = Some sc -> Socket.closed sc = false ->
  fst (Fire (bncs.Ping x) w) = Ok tt
  /\ World.sockets (snd (Fire (bncs.Ping x) w))
     = <[c := snd (Socket.send (bncs.Ping x) sc)]> (World.sockets w)
  /\ Socket.log (snd (Socket.send (bncs.Ping x) sc))
     = Socket.log sc ++ [Send_ (bncs.Ping x)]
  /\ fired_of (snd (Fire (bncs.Ping x) w))
     = fired_of w ++ Received (bncs.Ping x)
         :: match fst (Socket.send (bncs.Ping x) sc) with
            | Ok _ => []
            | Err e => [AsyncError "onPing[Send]" e]
            end.
Proof.
  unfold attached. intros Ha Hs Hc.
  unfold Fire, bind, emit, modify_client, onPing, b_Send. cbn. rewrite Ha.
  unfold Send.
  rewrite (on_socket_eq c _ _ sc) by assumption.
  rewrite Socket_send_log.
  destruct (Socket.send (bncs.Ping x) sc) as [[[]|e] s1]; cbn;
    unfold fired_of; cbn; rewrite <- ?app_assoc; auto.
Qed.

End Ping_facts.

(** ** What a success tells *)

Section Success_facts.

Context {S : Type} {srp_ops : SRP S} {ext : Externals S}.

Lemma Send_Ok_log (c : Conn) (pkt : bncs.Packet) (w w' : World.t) :
  Send c pkt w = (Ok tt, w') ->
  exists s, World.sockets w' !! c = Some s
            /\ Socket.closed s = false
            /\ last (Socket.log s) = Some (Send_ pkt).
Proof.
  unfold Send, on_socket.
  destruct (World.sockets w !! c) as [s|] eqn:Hs; [|discriminate].
  destruct (Socket.closed s) eqn:Hc; [discriminate|].
  pose proof (Socket_send_log pkt s) as Hl.
  pose proof (Socket_send_closed pkt s) as Hcl.
  destruct (Socket.send pkt s) as [r s1]. cbn in *. intros [= -> <-]. cbn.
  exists s1. split; [apply list_lookup_insert_eq; eapply lookup_lt_Some; eauto|].
  split; [congruence|]. rewrite Hl. apply last_snoc.
Qed.

(** *** What is still to be read on a connection *)

Lemma inbox_of_on_socket {A} (conn c : Conn) (f : Socket.t -> result A * Socket.t)
    (w : World.t) :
  (forall s, Socket.inbox (snd (f s)) = Socket.inbox s) ->
  inbox_of conn (snd (on_socket c f w)) = inbox_of conn w.
Proof.
  intros Hf. unfold on_socket.
  destruct (World.sockets w !! c) as [s|] eqn:Hs; [|reflexivity].
  destruct (Socket.closed s); [reflexivity|].
  specialize (Hf s). destruct (f s) as [r s']. cbn in *.
  unfold inbox_of. cbn. destruct (decide (c = conn)) as [->|Hne].
  - rewrite list_lookup_insert_eq by (eapply lookup_lt_Some; eauto).
    rewrite Hs, Hf. reflexivity.
  - rewrite list_lookup_insert_ne by done. reflexivity.
Qed.

Lemma inbox_of_Send (conn c : Conn) (pkt : bncs.Packet) (w : World.t) :
  inbox_of conn (snd (Send c pkt w)) = inbox_of conn w.
Proof. apply inbox_of_on_socket. intros s. apply Socket_send_inbox. Qed.

Lemma inbox_of_Fire (conn : Conn) (pkt : bncs.Packet) (w : World.t) :
  inbox_of conn (snd (Fire pkt w)) = inbox_of conn w.
Proof.
  unfold Fire, bind, emit, modify_client.
  destruct pkt; try reflexivity.
  - unfold onPing, b_Send. cbn [World.client World.set_client Client.conn Client.emit].
    destruct (Client.conn (World.client w)) as [c|]; [|reflexivity].
    match goal with
    | |- context [Send c ?p ?w0] =>
      pose proof (inbox_of_Send conn c p w0) as H; destruct (Send c p w0) as [[[]|e] w1]
    end; cbn in *; exact H.
  - unfold inbox_of. rewrite onChatEvent_keeps_sockets. reflexivity.
Qed.

Lemma NextPacket_Ok_inbox (conn : Conn) (t : Timeout) (w w' : World.t)
    (pkt : bncs.Packet) :
  NextPacket conn t w = (Ok pkt, w') ->
  inbox_of conn w = Ok pkt :: inbox_of conn w'.
Proof.
  unfold NextPacket, on_socket, inbox_of.
  destruct (World.sockets w !! conn) as [s|] eqn:Hs; [|discriminate].
  destruct (Socket.closed s); [discriminate|].
  unfold Socket.next. cbn.
  destruct (Socket.inbox s) as [|r rest]; [discriminate|].
  intros [= -> <-]. cbn.
  rewrite list_lookup_insert_eq by (eapply lookup_lt_Some; eauto). reflexivity.
Qed.

(** A wait returns only what its [switch] makes of a packet that was read
    on the connection. *)
Lemma wait_loop_answer {A} (conn : Conn) (switch : bncs.Packet -> Verdict A) :
  forall fuel r w a w',
    wait_loop fuel conn switch r w = (Ok a, w') ->
    exists pkt, (r = Ok pkt \/ In (Ok pkt) (inbox_of conn w)) /\ switch pkt = Return a.
Proof.
  induction fuel as [|fuel IH]; intros [pkt|e] w a w' E; cbn [wait_loop] in E;
    try discriminate E.
  - destruct (switch pkt) eqn:Hsw.
    + injection E as <- <-. eauto.
    + unfold bind in E. destruct (Send conn pkt w) as [[[]|e] w1]; discriminate E.
    + unfold bind in E. destruct (Fire pkt w) as [[[]|e] w1]; discriminate E.
  - assert (Hnext : forall w1, inbox_of conn w1 = inbox_of conn w ->
              (let '(r, w2) := NextPacket conn NoTimeout w1 in
               wait_loop fuel conn switch r w2) = (Ok a, w') ->
              exists pkt', In (Ok pkt') (inbox_of conn w) /\ switch pkt' = Return a).
    { intros w1 Hw1 E1.
      destruct (NextPacket conn NoTimeout w1) as [[p|e] w2] eqn:En;
        [|rewrite wait_loop_Err in E1; discriminate E1].
      apply NextPacket_Ok_inbox in En. rewrite Hw1 in En.
      apply IH in E1 as (pkt' & [[= ->]|Hin] & Hr); exists pkt'; rewrite En;
        (split; [|exact Hr]); [left; reflexivity|right; exact Hin]. }
    destruct (switch pkt) eqn:Hsw.
    + injection E as <- <-. eauto.
    + unfold bind in E. pose proof (inbox_of_Send conn conn pkt w) as Hs.
      destruct (Send conn pkt w) as [[[]|e] w1]; [|discriminate E].
      destruct (Hnext w1 Hs E) as (pkt' & Hin & Hr). eauto.
    + unfold bind in E. pose proof (inbox_of_Fire conn pkt w) as Hs.
      destruct (Fire pkt w) as [[[]|e] w1]; [|discriminate E].
      destruct (Hnext w1 Hs E) as (pkt' & Hin & Hr). eauto.
Qed.

Lemma wait_answer {A} (conn : Conn) (t : Timeout) (switch : bncs.Packet -> Verdict A)
    (w w' : World.t) (a : A) :
  wait conn t switch w = (Ok a, w') ->
  exists pkt, In (Ok pkt) (inbox_of conn w) /\ switch pkt = Return a.
Proof.
  unfold wait. intros E.
  destruct (NextPacket conn t w) as [[p|e] w1] eqn:En;
    [|rewrite wait_loop_Err in E; discriminate E].
  apply NextPacket_Ok_inbox in En.
  apply wait_loop_answer in E as (pkt & [[= ->]|Hin] & Hr); exists pkt; rewrite En;
    (split; [|exact Hr]); [left; reflexivity|right; exact Hin].
Qed.

Lemma sendEnterChat_answer (conn : Conn) (w w' : World.t) (chat : bncs.EnterChatResp.t) :
  sendEnterChat conn w = (Ok chat, w') ->
  In (Ok (bncs.EnterChatResp chat)) (inbox_of conn w).
Proof.
  unfold sendEnterChat. intros E.
  apply bind_inv_Ok in E as (b & w0 & Hb & E). injection Hb as <- <-.
  apply bind_inv_Ok in E as ([] & w1 & H1 & E).
  apply bind_inv_Ok in E as ([] & w2 & H2 & E).
  apply wait_answer in E as (pkt & Hin & Hr).
  assert (H : inbox_of conn w2 = inbox_of conn w).
  { pose proof (inbox_of_Send conn conn (bncs.NetGamePort (Config.GamePort (Client.config (World.client w)))) w) as Ha.
    pose proof (inbox_of_Send conn conn bncs.EnterChatReq w1) as Hb.
    rewrite H1 in Ha. rewrite H2 in Hb. cbn in Ha, Hb. congruence. }
  rewrite H in Hin. destruct pkt; try discriminate Hr. injection Hr as ->. exact Hin.
Qed.

(** X25: when [Logon] returns no error, its steps have all gone through
    on the connection [conn] that [Dial] returned: the account was found,
    the proof was accepted (with a [SetEmail] sent when the server asked
    for an address) and the server's own proof verified, and
    [sendEnterChat] returned an answer [chat], which is an [EnterChatResp]
    that was waiting to be read on [conn] when the request was made.  The
    world after is the one after the first join of the channel ["W3"] was
    sent, with [conn] as the client's connection and the [UniqueName] of
    [chat] as the client's; [conn] is open, and the join is the last thing
    written on it. *)
Theorem Logon_ends_in_channel (w w' : World.t) :
  Logon w = (Ok tt, w') ->
  exists srp conn w1 logon w2 proof srp' w3 w4 chat w5 w6 s,
    fst (newSRP (Config.Password (cfg w)) w) = Ok srp
    /\ Dial w = (Ok conn, w1)
    /\ sendLogon conn srp w1 = (Ok logon, w2)
    /\ bncs.AuthAccountLogonResp.Result logon = bncs.LogonSuccess
    /\ sendLogonProof conn srp logon w2 = (Ok (proof, srp'), w3)
    /\ match bncs.AuthAccountLogonProofResp.Result proof with
       | bncs.LogonProofSuccess => w4 = w3
       | bncs.LogonProofRequireEmail =>
         Send conn (bncs.SetEmail EmptyString) w3 = (Ok tt, w4)
       | _ => False
       end
    /\ VerifyPassword srp' (bncs.AuthAccountLogonProofResp.ServerPasswordProof proof)
       = true
    /\ sendEnterChat conn w4 = (Ok chat, w5)
    /\ In (Ok (bncs.EnterChatResp chat)) (inbox_of conn w4)
    /\ Send conn (bncs.JoinChannel bncs.ChannelJoinFirst "W3") w5 = (Ok tt, w6)
    /\ w' = World.set_client
              (Client.set_conn (Some conn)
                 (Client.set_UniqueName (bncs.EnterChatResp.UniqueName chat)
                    (World.client w6))) w6
    /\ attached w' = Some conn
    /\ Client.UniqueName (World.client w') = bncs.EnterChatResp.UniqueName chat
    /\ World.sockets w' !! conn = Some s
    /\ Socket.closed s = false
    /\ last (Socket.log s)
       = Some (Send_ (bncs.JoinChannel bncs.ChannelJoinFirst "W3")).
Proof.
  unfold Logon. intros E.
  apply bind_inv_Ok in E as (b & w0 & Hb & E). injection Hb as <- <-.
  apply bind_inv_Ok in E as (srp & w0 & Hsrp & E).
  pose proof (newSRP_world (Config.Password (Client.config (World.client w))) w) as Hw.
  rewrite Hsrp in Hw. cbn in Hw. subst w0.
  apply bind_inv_Ok in E as (conn & w1 & Hdial & E).
  apply bind_inv_Ok in E as (logon & w2 & Hlogon & E).
  apply or_close_inv_Ok in Hlogon.
  destruct (bncs.AuthAccountLogonResp.Result logon) eqn:Hres; [|discriminate E].
  apply bind_inv_Ok in E as ([proof srp'] & w3 & Hproof & E).
  apply or_close_inv_Ok in Hproof.
  apply bind_inv_Ok in E as ([] & w4 & Hmail & E).
  destruct (VerifyPassword srp' _) eqn:Hver; [|discriminate E]. cbn [negb] in E.
  apply bind_inv_Ok in E as (chat & w5 & Hchat & E).
  apply or_close_inv_Ok in Hchat.
  apply bind_inv_Ok in E as ([] & w6 & Hj & E).
  apply or_close_inv_Ok in Hj.
  destruct (Send_Ok_log _ _ _ _ Hj) as (s & Hs & Hc & Hl).
  unfold modify_client in E. injection E as <-.
  exists srp, conn, w1, logon, w2, proof, srp', w3, w4, chat, w5, w6, s.
  split; [change (cfg w) with (Client.config (World.client w)); rewrite Hsrp; reflexivity|].
  do 4 (split; [assumption|]).
  split.
  { destruct (bncs.AuthAccountLogonProofResp.Result proof).
    - injection Hmail as ->. reflexivity.
    - apply or_close_inv_Ok in Hmail. exact Hmail.
    - discriminate Hmail. }
  split; [exact Hver|]. split; [exact Hchat|].
  split; [exact (sendEnterChat_answer _ _ _ _ Hchat)|].
  split; [exact Hj|]. cbn. auto 10.
Qed.

(** X26: after a successful dial and an answer to the request,
    [CreateAccount] returns no error exactly when the result of the answer
    is [AccountCreateSuccess], and otherwise the error that
    [AccountCreateResultToError] makes of the result; the connection is
    closed either way. *)
Theorem CreateAccount_result (w : World.t) (srp : S) (conn : Conn) (w1 w2 : World.t)
    (create : bncs.AuthAccountCreateResp.t) :
  fst (newSRP (Config.Password (cfg w)) w) = Ok srp ->
  Dial w = (Ok conn, w1) ->
  sendCreateAccount conn srp w1 = (Ok create, w2) ->
  CreateAccount w
  = (match bncs.AuthAccountCreateResp.Result create with
     | bncs.AccountCreateSuccess => Ok tt
     | r => Err (AccountCreateResultToError r)
     end, Close conn w2).
Proof.
  intros Hsrp Hdial Hcreate. unfold CreateAccount. apply newSRP_eq in Hsrp.
  rewrite (bind_Ok _ _ w w (cfg w)) by reflexivity.
  rewrite (bind_Ok _ _ _ _ _ Hsrp), (bind_Ok _ _ _ _ _ Hdial).
  unfold defer_close. rewrite (bind_Ok _ _ _ _ _ Hcreate).
  destruct (bncs.AuthAccountCreateResp.Result create); reflexivity.
Qed.

End Success_facts.

(** ** The properties at work *)

(** Carol is not in the channel: her talk changes nothing. *)
Lemma unknown_member_ignored_witness :
  onChatEvent (ext := ext0) (Mock.event bncs.ChatTalk "Carol" "hello") w_bob
  = (Ok tt, w_bob).
Proof.
  apply (unknown_member_ignored (ext := ext0));
    [right; right; left; reflexivity|reflexivity].
Defined.

(** Carol joins, the server pings, Bob leaves. *)
Lemma membership_keyed_witness :
  users_keyed (ext := ext0)
    (fires (ext := ext0)
       [bncs.ChatEvent (Mock.event bncs.ChatJoin "Carol" "PX3W");
        bncs.Ping 7;
        bncs.ChatEvent (Mock.event bncs.ChatLeave "BOB" EmptyString)] w_bob).
Proof.
  apply (membership_keyed (ext := ext0)).
  intros k u H.
  change (({["bob"%string := Mock.bob]} : gmap string User.t) !! k = Some u) in H.
  apply lookup_singleton_Some in H as [<- <-]. reflexivity.
Defined.

(** Carol is found under ["CAROL"]. *)
Lemma shown_user_is_found_witness :
  exists u,
    b_User (ext := ext0) "CAROL"
      (World.client (snd (onChatEvent (ext := ext0)
                            (Mock.event bncs.ChatJoin "Carol" "PX3W") w_bob)))
    = Some u
    /\ b_Users (World.client (snd (onChatEvent (ext := ext0)
                                    (Mock.event bncs.ChatJoin "Carol" "PX3W") w_bob)))
         !! "carol"%string = Some u
    /\ User.Name u = "Carol"%string /\ User.Flags u = 2 /\ User.Ping u = 55
    /\ User.StatString u = "PX3W"%string.
Proof.
  exact (shown_user_is_found (ext := ext0)
           (Mock.event bncs.ChatJoin "Carol" "PX3W") w_bob "CAROL"
           (or_intror eq_refl) eq_refl).
Defined.

(** Bob talks: he was last seen now, and joined when he had joined. *)
Lemma Joined_is_kept_witness :
  let pkt := Mock.event bncs.ChatTalk "Bob" "hello" in
  let u' := User.set_LastSeen 1700000000000000000 Mock.bob in
  User.Joined u' = User.Joined Mock.bob
  /\ (User.LastSeen u' = User.LastSeen Mock.bob
      \/ ((bncs.ChatEvent.Type_ pkt = bncs.ChatTalk
           \/ bncs.ChatEvent.Type_ pkt = bncs.ChatEmote)
          /\ "bob"%string = strings_ToLower (Externals := ext0) (bncs.ChatEvent.Username pkt)
          /\ User.LastSeen u' = World.wall w_bob (World.ticks w_bob))).
Proof.
  exact (Joined_is_kept (ext := ext0) (Mock.event bncs.ChatTalk "Bob" "hello") w_bob
           "bob" Mock.bob (User.set_LastSeen 1700000000000000000 Mock.bob)
           eq_refl eq_refl).
Defined.

(** Carol joins and leaves: Bob is alone again. *)
Lemma join_then_leave_witness :
  let pkt := Mock.event bncs.ChatJoin "Carol" "PX3W" in
  let w1 := snd (onChatEvent (ext := ext0) pkt w_bob) in
  let w2 := snd (onChatEvent (ext := ext0) (leave_of pkt) w1) in
  users_of w2 = delete "carol"%string (users_of w_bob)
  /\ b_Channel (World.client w2) = b_Channel (World.client w_bob)
  /\ exists u, users_of w1 !! "carol"%string = Some u
               /\ fired_of w2 = fired_of w1 ++ [UserLeft u].
Proof.
  exact (join_then_leave (ext := ext0) (Mock.event bncs.ChatJoin "Carol" "PX3W")
           w_bob (or_intror eq_refl)).
Defined.

Ltac scalars :=
  repeat constructor;
  unfold scalar, utf8.MaxRune, utf8.surrogateMin, utf8.surrogateMax; lia.

(** A line feed between two letters is dropped. *)
Lemma FilterChat_drops_unprintable_witness :
  FilterChat (fun s => s) Mock.IsPrint (utf8_text [104; 10; 105])
  = cut254 (utf8_text (filter (fun r => Mock.IsPrint r = true) [104; 10; 105])).
Proof.
  apply (FilterChat_drops_unprintable (fun s => s) Mock.IsPrint [104; 10; 105]);
    [scalars|reflexivity].
Defined.

(** A greeting with an accent passes. *)
Lemma FilterChat_keeps_clean_text_witness :
  FilterChat (fun s => s) Mock.IsPrint (utf8_text [104; 233; 0x20AC])
  = utf8_text [104; 233; 0x20AC].
Proof.
  apply (FilterChat_keeps_clean_text (fun s => s) Mock.IsPrint [104; 233; 0x20AC]);
    [scalars|repeat constructor|vm_compute; lia|reflexivity].
Defined.

(** A greeting said on an open connection. *)
Lemma Say_sends_filtered_witness :
  exists sc', World.sockets (snd (Say (ext := ext0) "hello" w_online)) !! 0%nat = Some sc'
    /\ (Socket.log sc' = Socket.log (Scenes.socket [] [None])
        \/ exists t, Socket.log sc'
                     = Socket.log (Scenes.socket [] [None]) ++ [Send_ (bncs.ChatCommand t)]
                     /\ (0 < len t <= 254)%nat
                     /\ printable (unicode_IsPrint (Externals := ext0)) t).
Proof.
  exact (Say_sends_filtered (ext := ext0) "hello" w_online 0%nat
           (Scenes.socket [] [None]) eq_refl eq_refl eq_refl eq_refl).
Defined.

(** No context for an empty password: nothing is dialed. *)
Lemma no_dial_without_context_witness :
  Logon (ext := Scenes.picky) w_no_context = (Err (Errno 22), w_no_context)
  /\ CreateAccount (ext := Scenes.picky) w_no_context = (Err (Errno 22), w_no_context)
  /\ ChangePassword (ext := Scenes.picky) "swordfish" w_no_context
     = (Err (Errno 22), w_no_context).
Proof.
  exact (proj1 (no_dial_without_context (ext := Scenes.picky) "swordfish"
                  w_no_context (Errno 22) eq_refl) eq_refl).
Defined.

(** A server whose signature does not verify. *)
Lemma DialWithConn_invalid_signature_witness :
  let ext := Scenes.picky in
  let w2 := snd (sendAuthInfo 0%nat (snd (write_greeting 0%nat w_signed))) in
  DialWithConn 0%nat w_signed = (Err ErrInvalidServerSig, Close 0%nat w2)
  /\ is_closed 0%nat (Close 0%nat w2)
  /\ no_auth_check_sent 0%nat (Close 0%nat w2).
Proof.
  intros ext w2.
  apply (DialWithConn_invalid_signature (ext := ext) 0%nat w_signed w2
           Mock.Peer.authInfo).
  - cbn. lia.
  - intros s [= <-]. constructor.
  - reflexivity.
  - reflexivity.
  - reflexivity.
Defined.

(** A ping before the logon response: it is fired, not echoed. *)
Lemma sendLogon_first_response_witness :
  let srp := {| Mock.secret := bytes "hunter2"; Mock.session := [] |} in
  let s := Scenes.socket [Ok (bncs.Ping 7);
                          Ok (bncs.AuthAccountLogonResp Mock.Peer.logon)] [] in
  sendLogon (ext := ext0) 0%nat srp w_logon =
  match Socket.send
          (bncs.AuthAccountLogonReq
             {| bncs.AuthAccountLogonReq.ClientKey := ClientKey srp;
                bncs.AuthAccountLogonReq.Username := Config.Username (cfg w_logon) |}) s
  with
  | (Err e, s1) => (Err e, World.set_sockets (<[0%nat := s1]> (World.sockets w_logon)) w_logon)
  | (Ok _, s1) =>
    let '(r, ds, n) := first_response logon_response (Socket.inbox s1) in
    (r, World.set_sockets (<[0%nat := reads (Duration 15) n s1]> (World.sockets w_logon))
          (fires (ext := ext0) ds w_logon))
  end.
Proof.
  intros srp s.
  exact (sendLogon_first_response (ext := ext0) 0%nat srp w_logon s
           eq_refl eq_refl eq_refl).
Defined.

(** The request to enter chat cannot be written. *)
Lemma sendEnterChat_first_response_witness :
  sendEnterChat (ext := ext0) 0%nat w_enter
  = (Err ErrTimeout,
     World.set_sockets
       [{| Socket.RemoteIP := [x0a; x00; x00; x01];
           Socket.inbox := [];
           Socket.outcomes := [];
           Socket.log := [Send_ (bncs.NetGamePort 6112); Send_ bncs.EnterChatReq];
           Socket.closed := false |}] w_enter).
Proof.
  exact (sendEnterChat_first_response (ext := ext0) 0%nat w_enter
           (Scenes.socket [] [None; Some ErrTimeout]) eq_refl eq_refl eq_refl).
Defined.

(** Version and hash are configured: the request carries them. *)
Lemma sendAuthCheck_configured_witness :
  let info := {| bncs.CDKey.KeyLength := 6; bncs.CDKey.KeyProductValue := 14;
                 bncs.CDKey.KeyPublicValue := 99; bncs.CDKey.KeyHash := [] |} in
  sendAuthCheck (ext := ext0) 0%nat 99 Mock.Peer.authInfo w_one_key
  = (let* _ := Send 0%nat
                 (bncs.AuthCheckReq
                    {| bncs.AuthCheckReq.ClientToken := 99;
                       bncs.AuthCheckReq.ExeInformation :=
                         "war3.exe 01/01/16 00:00:00 471040";
                       bncs.AuthCheckReq.ExeVersion := 0x011a0001;
                       bncs.AuthCheckReq.ExeHash := 0x1234;
                       bncs.AuthCheckReq.CDKeys := [info];
                       bncs.AuthCheckReq.KeyOwnerName := "gowarcraft3" |}) in
     wait (ext := ext0) 0%nat (Duration 10) AuthCheck_switch) w_one_key.
Proof.
  intros info.
  apply (sendAuthCheck_configured (ext := ext0) 0%nat 99 Mock.Peer.authInfo [info]
           w_one_key); [discriminate|discriminate|].
  constructor; [reflexivity|constructor].
Defined.

(** Nothing is installed and no version is configured. *)
Lemma sendAuthCheck_missing_exe_witness :
  sendAuthCheck (ext := Scenes.picky) 0%nat 99 Mock.Peer.authInfo w_no_context
  = (Err (Errno 2), w_no_context).
Proof.
  apply (sendAuthCheck_missing_exe (ext := Scenes.picky)); [left|]; reflexivity.
Defined.

(** The second of three keys does not decode. *)
Lemma sendAuthCheck_bad_key_witness :
  sendAuthCheck (ext := Scenes.picky) 0%nat 99 Mock.Peer.authInfo w_exe
  = (Err (Errno 33), w_exe).
Proof.
  apply (sendAuthCheck_bad_key (ext := Scenes.picky) 0%nat 99 Mock.Peer.authInfo w_exe
           ["ROCKEY"%string] ["TFTKEY"%string] "BADKEY");
    [discriminate|discriminate|reflexivity| |reflexivity].
  constructor; [eexists; reflexivity|constructor].
Defined.

(** Version 1.26 is read off the configured executable version. *)
Lemma NewClient_version_byte_witness :
  match NewClient (ext := ext0) (inst := Scenes.installation) Scenes.bare with
  | Ok b => bncs.GameVersion.Version (game_version (Client.config b)) = 26
  | Err _ => False
  end.
Proof.
  destruct (NewClient (ext := ext0) (inst := Scenes.installation) Scenes.bare)
    as [b|e] eqn:E; [|discriminate E].
  pose proof (NewClient_version_byte (ext := ext0) (inst := Scenes.installation)
                Scenes.bare _ b eq_refl eq_refl E) as H.
  exact (proj1 H).
Defined.

(** Both key files are there: two keys, The Frozen Throne. *)
Lemma NewClient_keys_from_files_witness :
  match NewClient (ext := ext0) (inst := Scenes.installation) Scenes.bare with
  | Ok b => Config.CDKeys (Client.config b) = ["ROCKEY"%string; "TFTKEY"%string]
            /\ bncs.GameVersion.Product (game_version (Client.config b)) = 0x57335850
  | Err _ => False
  end.
Proof.
  destruct (NewClient (ext := ext0) (inst := Scenes.installation) Scenes.bare)
    as [b|e] eqn:E; [|discriminate E].
  pose proof (NewClient_keys_from_files (ext := ext0) (inst := Scenes.installation)
                Scenes.bare _ b eq_refl eq_refl E) as [H1 H2].
  split; [exact H1|]. apply H2; [reflexivity|discriminate].
Defined.

(** A ping on the connection of a client that is logged on. *)
Lemma Fire_Ping_echoes_witness :
  fst (Fire (ext := ext0) (bncs.Ping 7) w_online) = Ok tt
  /\ World.sockets (snd (Fire (ext := ext0) (bncs.Ping 7) w_online))
     = [{| Socket.RemoteIP := [x0a; x00; x00; x01];
           Socket.inbox := [];
           Socket.outcomes := [];
           Socket.log := [Send_ (bncs.Ping 7)];
           Socket.closed := false |}]
  /\ Socket.log (snd (Socket.send (bncs.Ping 7) (Scenes.socket [] [None])))
     = [Send_ (bncs.Ping 7)]
  /\ fired_of (snd (Fire (ext := ext0) (bncs.Ping 7) w_online))
     = [Received (bncs.Ping 7)].
Proof.
  exact (Fire_Ping_echoes (ext := ext0) 7 w_online 0%nat (Scenes.socket [] [None])
           eq_refl eq_refl eq_refl).
Defined.

(** A logon that goes through. *)
Lemma Logon_ends_in_channel_witness :
  let ext := Mock.externals Scenes.welcome in
  let w' := snd (Logon w_start) in
  exists srp conn w1 logon w2 proof srp' w3 w4 chat w5 w6 s,
    fst (newSRP (Config.Password (cfg w_start)) w_start) = Ok srp
    /\ Dial w_start = (Ok conn, w1)
    /\ sendLogon conn srp w1 = (Ok logon, w2)
    /\ bncs.AuthAccountLogonResp.Result logon = bncs.LogonSuccess
    /\ sendLogonProof conn srp logon w2 = (Ok (proof, srp'), w3)
    /\ match bncs.AuthAccountLogonProofResp.Result proof with
       | bncs.LogonProofSuccess => w4 = w3
       | bncs.LogonProofRequireEmail =>
         Send conn (bncs.SetEmail EmptyString) w3 = (Ok tt, w4)
       | _ => False
       end
    /\ VerifyPassword srp' (bncs.AuthAccountLogonProofResp.ServerPasswordProof proof)
       = true
    /\ sendEnterChat conn w4 = (Ok chat, w5)
    /\ In (Ok (bncs.EnterChatResp chat)) (inbox_of conn w4)
    /\ Send conn (bncs.JoinChannel bncs.ChannelJoinFirst "W3") w5 = (Ok tt, w6)
    /\ w' = World.set_client
              (Client.set_conn (Some conn)
                 (Client.set_UniqueName (bncs.EnterChatResp.UniqueName chat)
                    (World.client w6))) w6
    /\ attached w' = Some conn
    /\ Client.UniqueName (World.client w') = bncs.EnterChatResp.UniqueName chat
    /\ World.sockets w' !! conn = Some s
    /\ Socket.closed s = false
    /\ last (Socket.log s)
       = Some (Send_ (bncs.JoinChannel bncs.ChannelJoinFirst "W3")).
Proof.
  intros ext w'.
  apply (Logon_ends_in_channel (ext := ext) w_start w'). vm_compute. reflexivity.
Defined.

(** The name is taken: the error of code 4, and the connection closed. *)
Lemma CreateAccount_result_witness :
  let ext := Mock.externals Scenes.taken in
  let srp := {| Mock.secret := bytes "hunter2"; Mock.session := [] |} in
  let w1 := snd (Dial w_start) in
  let w2 := snd (sendCreateAccount 0%nat srp w1) in
  CreateAccount w_start = (Err (Errno 404), Close 0%nat w2).
Proof.
  intros ext srp w1 w2.
  apply (CreateAccount_result (ext := ext) w_start srp 0%nat w1 w2
           {| bncs.AuthAccountCreateResp.Result := bncs.AccountCreateResultCode 4 |});
    vm_compute; reflexivity.
Defined.
